(** * Workflow automation designer: SDK types, flow builder and execution
      engine

    Shallow embedding of the TypeScript sources
    - [packages/sdk/src/types/index.ts] (modules [Sdk] and [Schemas]),
    - [apps/frontend/src/stores/flowStore.ts] (module [FlowStore]),
    - the node registry of the flow builder, [nodes/nodeTypes.ts] with
      [CustomNode.tsx], [Sidebar.tsx] and [NodePanel.tsx] (module [Nodes]),
    - [components/simulation/SimulationPanel.tsx] (modules [Simulation]
      and [SimulationPanel]),
    - [components/testing/TestSuite.tsx] (modules [Testing] and
      [TestSuitePanel]),
    - [FlowBuilder.tsx], [Toolbar.tsx] and the palette of [Sidebar.tsx]
      (module [FlowBuilderView]),
    followed by the contracts of the workflow execution engine, which the
    orchestrator service implements outside the TypeScript tree and which
    are modelled from the specification (modules [Errors], [VariableStore],
    [Retry], [Condition], [Persistence], [RunStateMachine], [Progress]).
    The properties come after the definitions, one part per claim. *)

From stdpp Require Import gmap strings list pretty.
From Stdlib Require Import ZArith QArith Qpower Lia Lqa Floats.

Set Warnings "-register-all".
Local Open Scope string_scope.
Local Open Scope list_scope.

(** ** JSON documents, as they travel over the gateway API; a number is
       the rational its decimal literal denotes *)

Inductive json : Type :=
| JNull
| JBool (b : bool)
| JNum (q : Q)
| JStr (s : string)
| JArr (items : list json)
| JObj (fields : list (string * json)).

(** Property read [o[k]] on an object literal or a parsed object, given as
    its own properties in declaration order: [None] stands for JavaScript's
    [undefined]. Properties inherited from [Object.prototype] are left out. *)
Fixpoint field {A : Type} (k : string) (fs : list (string * A)) : option A :=
  match fs with
  | [] => None
  | (k', v) :: rest => if String.eqb k k' then Some v else field k rest
  end.

(** [Object.keys(o)] *)
Definition keys {A : Type} (fs : list (string * A)) : list string :=
  map fst fs.

(** ** TypeScript interface declarations, as lists of members *)

Inductive ts_type : Type :=
| TString
| TNumber
| TRecordAny
| TArray (elem : ts_type)
| TNamed (name : string).

Record member : Type := {
  member_name : string;
  member_optional : bool;
  member_type : ts_type
}.

Definition required (n : string) (t : ts_type) : member :=
  {| member_name := n; member_optional := false; member_type := t |}.

Definition optional (n : string) (t : ts_type) : member :=
  {| member_name := n; member_optional := true; member_type := t |}.

Definition member_names (i : list member) : list string :=
  map member_name i.

(** ** packages/sdk/src/types/index.ts *)
Module Sdk.

(** [export type RunStatus =
      'pending' | 'running' | 'completed' | 'failed' | 'cancelled'] *)
Inductive RunStatus : Type :=
| pending | running | completed | failed | cancelled.

Definition RunStatus_literal (r : RunStatus) : string :=
  match r with
  | pending => "pending"
  | running => "running"
  | completed => "completed"
  | failed => "failed"
  | cancelled => "cancelled"
  end.

Definition RunStatus_of_literal (s : string) : option RunStatus :=
  if String.eqb s "pending" then Some pending
  else if String.eqb s "running" then Some running
  else if String.eqb s "completed" then Some completed
  else if String.eqb s "failed" then Some failed
  else if String.eqb s "cancelled" then Some cancelled
  else None.

(** [export type StepType = 'trigger' | 'action' | 'branch' | 'loop'
      | 'parallel' | 'approval' | 'delay' | 'http' | 'datamap'] *)
Inductive StepType : Type :=
| trigger | action | branch | loop | parallel | approval | delay
| http | datamap.

Definition StepType_literal (t : StepType) : string :=
  match t with
  | trigger => "trigger"
  | action => "action"
  | branch => "branch"
  | loop => "loop"
  | parallel => "parallel"
  | approval => "approval"
  | delay => "delay"
  | http => "http"
  | datamap => "datamap"
  end.

Definition StepType_all : list StepType :=
  [trigger; action; branch; loop; parallel; approval; delay; http; datamap].

(** [interface WorkflowRun] *)
Record WorkflowRun : Type := {
  id : string;
  workflow_id : string;
  version : string;
  status : RunStatus;
  input_data : list (string * json);
  output_data : option (list (string * json));
  started_at : string;
  completed_at : option string;
  error_message : option string
}.

Definition WorkflowRun_interface : list member :=
  [required "id" TString;
   required "workflow_id" TString;
   required "version" TString;
   required "status" (TNamed "RunStatus");
   required "input_data" TRecordAny;
   optional "output_data" TRecordAny;
   required "started_at" TString;
   optional "completed_at" TString;
   optional "error_message" TString].

(** The zod combinators used by [WorkflowRunSchema]. *)
Definition z_string (v : option json) : option string :=
  match v with Some (JStr s) => Some s | _ => None end.

Definition z_enum (values : list string) (v : option json) : option string :=
  match v with
  | Some (JStr s) => if bool_decide (s ∈ values) then Some s else None
  | _ => None
  end.

Definition z_record_any (v : option json) : option (list (string * json)) :=
  match v with Some (JObj fs) => Some fs | _ => None end.

(** [schema.optional()]: an absent key parses to [undefined]. *)
Definition z_optional {A} (p : option json -> option A) (v : option json)
  : option (option A) :=
  match v with
  | None => Some None
  | Some _ => match p v with Some a => Some (Some a) | None => None end
  end.

(** [status: z.enum(['pending', 'running', 'completed', 'failed',
    'cancelled'])] *)
Definition WorkflowRunSchema_status_values : list string :=
  ["pending"; "running"; "completed"; "failed"; "cancelled"].

(** [WorkflowRunSchema.parse], [None] standing for a thrown [ZodError]. *)
Definition WorkflowRunSchema (v : json) : option WorkflowRun :=
  match v with
  | JObj fs =>
      i ← z_string (field "id" fs);
      w ← z_string (field "workflow_id" fs);
      ver ← z_string (field "version" fs);
      st ← z_enum WorkflowRunSchema_status_values (field "status" fs);
      st' ← RunStatus_of_literal st;
      inp ← z_record_any (field "input_data" fs);
      out ← z_optional z_record_any (field "output_data" fs);
      sa ← z_string (field "started_at" fs);
      ca ← z_optional z_string (field "completed_at" fs);
      em ← z_optional z_string (field "error_message" fs);
      Some {| id := i; workflow_id := w; version := ver; status := st';
              input_data := inp; output_data := out; started_at := sa;
              completed_at := ca; error_message := em |}
  | _ => None
  end.

(** The run statuses as the specification lists them. *)
Definition spec_run_statuses : list string :=
  ["pending"; "running"; "waiting"; "completed"; "failed"; "cancelled";
   "compensating"; "dead_lettered"].

(** A run document with the given status and otherwise valid fields. *)
Definition run_document (st : string) : json :=
  JObj [("id", JStr "run-1"); ("workflow_id", JStr "wf-1");
        ("version", JStr "1.0.0"); ("status", JStr st);
        ("input_data", JObj []); ("started_at", JStr "2024-01-01T00:00:00Z")].

End Sdk.

(** ** packages/sdk/src/types/index.ts: the other interfaces and schemas *)
Module Schemas.

(** [schema.min(1)] on [z.string()]: the empty string is refused. *)
Definition z_string_min1 (v : option json) : option string :=
  match v with
  | Some (JStr s) => if String.eqb s "" then None else Some s
  | _ => None
  end.

Definition z_number (v : option json) : option Q :=
  match v with Some (JNum q) => Some q | _ => None end.

(** [z.array(item)]: every element is parsed, in order. *)
Definition z_array {A} (item : option json -> option A) (v : option json)
  : option (list A) :=
  match v with
  | Some (JArr items) => mapM (fun i => item (Some i)) items
  | _ => None
  end.

(** [export type WorkflowStatus = 'draft' | 'active' | 'archived' | 'error'] *)
Inductive WorkflowStatus : Type := draft | active | archived | error.

Definition WorkflowStatus_literal (s : WorkflowStatus) : string :=
  match s with
  | draft => "draft"
  | active => "active"
  | archived => "archived"
  | error => "error"
  end.

Definition WorkflowStatus_of_literal (s : string) : option WorkflowStatus :=
  if String.eqb s "draft" then Some draft
  else if String.eqb s "active" then Some active
  else if String.eqb s "archived" then Some archived
  else if String.eqb s "error" then Some error
  else None.

Definition WorkflowStatus_values : list string :=
  ["draft"; "active"; "archived"; "error"].

Definition z_WorkflowStatus (v : option json) : option WorkflowStatus :=
  st ← Sdk.z_enum WorkflowStatus_values v; WorkflowStatus_of_literal st.

(** [export interface Workflow] *)
Record Workflow : Type := {
  id : string;
  name : string;
  description : option string;
  version : string;
  status : WorkflowStatus;
  created_at : string;
  updated_at : string
}.

(** [WorkflowSchema.parse] *)
Definition WorkflowSchema (v : json) : option Workflow :=
  match v with
  | JObj fs =>
      i ← Sdk.z_string (field "id" fs);
      n ← Sdk.z_string (field "name" fs);
      d ← Sdk.z_optional Sdk.z_string (field "description" fs);
      ver ← Sdk.z_string (field "version" fs);
      st ← z_WorkflowStatus (field "status" fs);
      ca ← Sdk.z_string (field "created_at" fs);
      ua ← Sdk.z_string (field "updated_at" fs);
      Some {| id := i; name := n; description := d; version := ver;
              status := st; created_at := ca; updated_at := ua |}
  | _ => None
  end.

(** The output of [CreateWorkflowSchema]. *)
Record CreateWorkflow : Type := {
  create_name : string;
  create_description : option string
}.

Definition CreateWorkflowSchema (v : json) : option CreateWorkflow :=
  match v with
  | JObj fs =>
      n ← z_string_min1 (field "name" fs);
      d ← Sdk.z_optional Sdk.z_string (field "description" fs);
      Some {| create_name := n; create_description := d |}
  | _ => None
  end.

(** The output of [UpdateWorkflowSchema]. *)
Record UpdateWorkflow : Type := {
  update_name : option string;
  update_description : option string;
  update_status : option WorkflowStatus
}.

Definition UpdateWorkflowSchema (v : json) : option UpdateWorkflow :=
  match v with
  | JObj fs =>
      n ← Sdk.z_optional z_string_min1 (field "name" fs);
      d ← Sdk.z_optional Sdk.z_string (field "description" fs);
      st ← Sdk.z_optional z_WorkflowStatus (field "status" fs);
      Some {| update_name := n; update_description := d; update_status := st |}
  | _ => None
  end.

(** An optional member of an object literal: left out when [undefined]. *)
Definition member_if {A} (k : string) (to_json : A -> json) (v : option A)
  : list (string * json) :=
  match v with
  | Some a => [(k, to_json a)]
  | None => []
  end.

(** [JSON.stringify] of a [Workflow], as a document. *)
Definition Workflow_toJSON (w : Workflow) : json :=
  JObj ([("id", JStr (id w)); ("name", JStr (name w))] ++
        member_if "description" JStr (description w) ++
        [("version", JStr (version w));
         ("status", JStr (WorkflowStatus_literal (status w)));
         ("created_at", JStr (created_at w));
         ("updated_at", JStr (updated_at w))]).

(** A [WorkflowRun] handed to [WorkflowRunSchema.parse] as the object it
    is, nothing serialised in between: the members that are [undefined] are
    absent, and the values of the two records are the values the run holds,
    which the schema hands through ([z.any()]). *)
Definition WorkflowRun_object (r : Sdk.WorkflowRun) : json :=
  JObj ([("id", JStr (Sdk.id r));
         ("workflow_id", JStr (Sdk.workflow_id r));
         ("version", JStr (Sdk.version r));
         ("status", JStr (Sdk.RunStatus_literal (Sdk.status r)));
         ("input_data", JObj (Sdk.input_data r))] ++
        member_if "output_data" JObj (Sdk.output_data r) ++
        [("started_at", JStr (Sdk.started_at r))] ++
        member_if "completed_at" JStr (Sdk.completed_at r) ++
        member_if "error_message" JStr (Sdk.error_message r)).

(** The members [WorkflowRunSchema] declares. *)
Definition WorkflowRun_members : list string :=
  member_names Sdk.WorkflowRun_interface.

(** [export type ConnectionType] and [ConnectionStatus] *)
Inductive ConnectionType : Type :=
| type_http | type_slack | type_salesforce | type_hubspot | type_calendly
| type_custom.

Definition ConnectionType_of_literal (s : string) : option ConnectionType :=
  if String.eqb s "http" then Some type_http
  else if String.eqb s "slack" then Some type_slack
  else if String.eqb s "salesforce" then Some type_salesforce
  else if String.eqb s "hubspot" then Some type_hubspot
  else if String.eqb s "calendly" then Some type_calendly
  else if String.eqb s "custom" then Some type_custom
  else None.

Definition ConnectionType_values : list string :=
  ["http"; "slack"; "salesforce"; "hubspot"; "calendly"; "custom"].

Definition z_ConnectionType (v : option json) : option ConnectionType :=
  t ← Sdk.z_enum ConnectionType_values v; ConnectionType_of_literal t.

Inductive ConnectionStatus : Type :=
| connection_active | connection_inactive | connection_error.

Definition ConnectionStatus_of_literal (s : string) : option ConnectionStatus :=
  if String.eqb s "active" then Some connection_active
  else if String.eqb s "inactive" then Some connection_inactive
  else if String.eqb s "error" then Some connection_error
  else None.

Definition ConnectionStatus_values : list string :=
  ["active"; "inactive"; "error"].

Definition z_ConnectionStatus (v : option json) : option ConnectionStatus :=
  t ← Sdk.z_enum ConnectionStatus_values v; ConnectionStatus_of_literal t.

(** [export interface Connection] *)
Record Connection : Type := {
  connection_id : string;
  connection_name : string;
  connection_type : ConnectionType;
  connection_config : list (string * json);
  connection_status : ConnectionStatus;
  connection_created_at : string;
  connection_updated_at : string
}.

Definition ConnectionSchema (v : json) : option Connection :=
  match v with
  | JObj fs =>
      i ← Sdk.z_string (field "id" fs);
      n ← Sdk.z_string (field "name" fs);
      t ← z_ConnectionType (field "type" fs);
      c ← Sdk.z_record_any (field "config" fs);
      st ← z_ConnectionStatus (field "status" fs);
      ca ← Sdk.z_string (field "created_at" fs);
      ua ← Sdk.z_string (field "updated_at" fs);
      Some {| connection_id := i; connection_name := n; connection_type := t;
              connection_config := c; connection_status := st;
              connection_created_at := ca; connection_updated_at := ua |}
  | _ => None
  end.

Record CreateConnection : Type := {
  new_name : string;
  new_type : ConnectionType;
  new_config : list (string * json)
}.

Definition CreateConnectionSchema (v : json) : option CreateConnection :=
  match v with
  | JObj fs =>
      n ← z_string_min1 (field "name" fs);
      t ← z_ConnectionType (field "type" fs);
      c ← Sdk.z_record_any (field "config" fs);
      Some {| new_name := n; new_type := t; new_config := c |}
  | _ => None
  end.

Record UpdateConnection : Type := {
  patch_name : option string;
  patch_config : option (list (string * json));
  patch_status : option ConnectionStatus
}.

Definition UpdateConnectionSchema (v : json) : option UpdateConnection :=
  match v with
  | JObj fs =>
      n ← Sdk.z_optional z_string_min1 (field "name" fs);
      c ← Sdk.z_optional Sdk.z_record_any (field "config" fs);
      st ← Sdk.z_optional z_ConnectionStatus (field "status" fs);
      Some {| patch_name := n; patch_config := c; patch_status := st |}
  | _ => None
  end.

(** [export interface ApiResponse<T>] and [ApiResponseSchema(dataSchema)] *)
Record ApiResponse (T : Type) : Type := {
  data : T;
  message : option string;
  errors : option (list string)
}.
Arguments data {T}.
Arguments message {T}.
Arguments errors {T}.

Definition ApiResponseSchema {T} (dataSchema : option json -> option T)
    (v : json) : option (ApiResponse T) :=
  match v with
  | JObj fs =>
      d ← dataSchema (field "data" fs);
      m ← Sdk.z_optional Sdk.z_string (field "message" fs);
      e ← Sdk.z_optional (z_array Sdk.z_string) (field "errors" fs);
      Some {| data := d; message := m; errors := e |}
  | _ => None
  end.

(** [export interface PaginatedResponse<T>] and
    [PaginatedResponseSchema(dataSchema)] *)
Record Pagination : Type := {
  page : Q;
  limit : Q;
  total : Q;
  total_pages : Q
}.

Record PaginatedResponse (T : Type) : Type := {
  items : list T;
  pagination : Pagination
}.
Arguments items {T}.
Arguments pagination {T}.

Definition z_pagination (v : option json) : option Pagination :=
  match v with
  | Some (JObj fs) =>
      p ← z_number (field "page" fs);
      l ← z_number (field "limit" fs);
      t ← z_number (field "total" fs);
      tp ← z_number (field "total_pages" fs);
      Some {| page := p; limit := l; total := t; total_pages := tp |}
  | _ => None
  end.

Definition PaginatedResponseSchema {T} (dataSchema : option json -> option T)
    (v : json) : option (PaginatedResponse T) :=
  match v with
  | JObj fs =>
      d ← z_array dataSchema (field "data" fs);
      p ← z_pagination (field "pagination" fs);
      Some {| items := d; pagination := p |}
  | _ => None
  end.

(** A schema that reads a document and refuses [undefined], as a [z.object]
    such as [WorkflowRunSchema] does, in the place of the schema of a
    member: the missing member is refused. A schema that accepts
    [undefined] ([z.any()], an optional schema) is not of this form and is
    given as a member schema directly. *)
Definition as_member {T} (schema : json -> option T) (v : option json)
  : option T :=
  match v with
  | Some d => schema d
  | None => None
  end.

(** The envelope the gateway answers with, as a document. *)
Definition envelope (d : json) (m : option string) (e : option (list string))
  : json :=
  JObj ([("data", d)] ++ member_if "message" JStr m ++
        member_if "errors" (fun l => JArr (map JStr l)) e).

End Schemas.

(** ** apps/frontend/src/stores/flowStore.ts *)
Module FlowStore.

(** reactflow's [Node] and [Edge], reduced to the fields the builder
    reads. *)
Record Node : Type := {
  node_id : string;
  node_type : string;
  node_data : list (string * json)
}.

Record Edge : Type := {
  edge_id : string;
  edge_source : string;
  edge_target : string
}.

(** [export interface WorkflowData] *)
Record WorkflowData : Type := {
  id : string;
  name : string;
  description : string;
  nodes : list Node;
  edges : list Edge;
  variables : list (string * json);
  metadata : list (string * json)
}.

(** [rightPanel: "node" | "simulation" | "testing"] *)
Inductive Panel : Type := node | simulation | testing.

(** The state fields of [interface FlowStore]. *)
Record state : Type := {
  isDesignMode : bool;
  currentWorkflow : option WorkflowData;
  selectedNode : option Node;
  isDesigning : bool;
  designGoal : string;
  isExecuting : bool;
  executionId : option string;
  sidebarOpen : bool;
  nodePanelOpen : bool;
  rightPanel : Panel
}.

(** The object literal handed to [create<FlowStore>]. *)
Definition initial : state := {|
  isDesignMode := true;
  currentWorkflow := None;
  selectedNode := None;
  isDesigning := false;
  designGoal := "";
  isExecuting := false;
  executionId := None;
  sidebarOpen := true;
  nodePanelOpen := false;
  rightPanel := node
|}.

(** Each action calls zustand's [set] with a partial state, which is
    merged into the current one: the fields not named keep their value. *)
Definition toggleDesignMode (s : state) : state :=
  {| isDesignMode := negb (isDesignMode s);
     currentWorkflow := currentWorkflow s; selectedNode := selectedNode s;
     isDesigning := isDesigning s; designGoal := designGoal s;
     isExecuting := isExecuting s; executionId := executionId s;
     sidebarOpen := sidebarOpen s; nodePanelOpen := nodePanelOpen s;
     rightPanel := rightPanel s |}.

Definition setCurrentWorkflow (workflow : option WorkflowData) (s : state)
  : state :=
  {| isDesignMode := isDesignMode s;
     currentWorkflow := workflow; selectedNode := selectedNode s;
     isDesigning := isDesigning s; designGoal := designGoal s;
     isExecuting := isExecuting s; executionId := executionId s;
     sidebarOpen := sidebarOpen s; nodePanelOpen := nodePanelOpen s;
     rightPanel := rightPanel s |}.

Definition setSelectedNode (n : option Node) (s : state) : state :=
  {| isDesignMode := isDesignMode s;
     currentWorkflow := currentWorkflow s; selectedNode := n;
     isDesigning := isDesigning s; designGoal := designGoal s;
     isExecuting := isExecuting s; executionId := executionId s;
     sidebarOpen := sidebarOpen s; nodePanelOpen := nodePanelOpen s;
     rightPanel := rightPanel s |}.

Definition setDesignGoal (goal : string) (s : state) : state :=
  {| isDesignMode := isDesignMode s;
     currentWorkflow := currentWorkflow s; selectedNode := selectedNode s;
     isDesigning := isDesigning s; designGoal := goal;
     isExecuting := isExecuting s; executionId := executionId s;
     sidebarOpen := sidebarOpen s; nodePanelOpen := nodePanelOpen s;
     rightPanel := rightPanel s |}.

Definition startAIDesign (s : state) : state :=
  {| isDesignMode := isDesignMode s;
     currentWorkflow := currentWorkflow s; selectedNode := selectedNode s;
     isDesigning := true; designGoal := designGoal s;
     isExecuting := isExecuting s; executionId := executionId s;
     sidebarOpen := sidebarOpen s; nodePanelOpen := nodePanelOpen s;
     rightPanel := rightPanel s |}.

Definition stopAIDesign (s : state) : state :=
  {| isDesignMode := isDesignMode s;
     currentWorkflow := currentWorkflow s; selectedNode := selectedNode s;
     isDesigning := false; designGoal := designGoal s;
     isExecuting := isExecuting s; executionId := executionId s;
     sidebarOpen := sidebarOpen s; nodePanelOpen := nodePanelOpen s;
     rightPanel := rightPanel s |}.

(** [startExecution: (executionId) => set({ isExecuting: true, executionId })] *)
Definition startExecution (execId : string) (s : state) : state :=
  {| isDesignMode := isDesignMode s;
     currentWorkflow := currentWorkflow s; selectedNode := selectedNode s;
     isDesigning := isDesigning s; designGoal := designGoal s;
     isExecuting := true; executionId := Some execId;
     sidebarOpen := sidebarOpen s; nodePanelOpen := nodePanelOpen s;
     rightPanel := rightPanel s |}.

(** [stopExecution: () => set({ isExecuting: false, executionId: null })] *)
Definition stopExecution (s : state) : state :=
  {| isDesignMode := isDesignMode s;
     currentWorkflow := currentWorkflow s; selectedNode := selectedNode s;
     isDesigning := isDesigning s; designGoal := designGoal s;
     isExecuting := false; executionId := None;
     sidebarOpen := sidebarOpen s; nodePanelOpen := nodePanelOpen s;
     rightPanel := rightPanel s |}.

Definition toggleSidebar (s : state) : state :=
  {| isDesignMode := isDesignMode s;
     currentWorkflow := currentWorkflow s; selectedNode := selectedNode s;
     isDesigning := isDesigning s; designGoal := designGoal s;
     isExecuting := isExecuting s; executionId := executionId s;
     sidebarOpen := negb (sidebarOpen s); nodePanelOpen := nodePanelOpen s;
     rightPanel := rightPanel s |}.

Definition toggleNodePanel (s : state) : state :=
  {| isDesignMode := isDesignMode s;
     currentWorkflow := currentWorkflow s; selectedNode := selectedNode s;
     isDesigning := isDesigning s; designGoal := designGoal s;
     isExecuting := isExecuting s; executionId := executionId s;
     sidebarOpen := sidebarOpen s; nodePanelOpen := negb (nodePanelOpen s);
     rightPanel := rightPanel s |}.

Definition setRightPanel (panel : Panel) (s : state) : state :=
  {| isDesignMode := isDesignMode s;
     currentWorkflow := currentWorkflow s; selectedNode := selectedNode s;
     isDesigning := isDesigning s; designGoal := designGoal s;
     isExecuting := isExecuting s; executionId := executionId s;
     sidebarOpen := sidebarOpen s; nodePanelOpen := nodePanelOpen s;
     rightPanel := panel |}.

(** The eleven operations of the store, as calls a component can make. *)
Inductive action : Type :=
| ToggleDesignMode
| SetCurrentWorkflow (workflow : option WorkflowData)
| SetSelectedNode (n : option Node)
| SetDesignGoal (goal : string)
| StartAIDesign
| StopAIDesign
| StartExecution (execId : string)
| StopExecution
| ToggleSidebar
| ToggleNodePanel
| SetRightPanel (panel : Panel).

Definition dispatch (a : action) (s : state) : state :=
  match a with
  | ToggleDesignMode => toggleDesignMode s
  | SetCurrentWorkflow w => setCurrentWorkflow w s
  | SetSelectedNode n => setSelectedNode n s
  | SetDesignGoal g => setDesignGoal g s
  | StartAIDesign => startAIDesign s
  | StopAIDesign => stopAIDesign s
  | StartExecution e => startExecution e s
  | StopExecution => stopExecution s
  | ToggleSidebar => toggleSidebar s
  | ToggleNodePanel => toggleNodePanel s
  | SetRightPanel p => setRightPanel p s
  end.

(** A session: the actions applied one after the other, oldest first. *)
Definition run (acts : list action) (s : state) : state :=
  fold_left (fun st a => dispatch a st) acts s.

(** [isExecuting] is true exactly when [executionId] is not [null]. *)
Definition executing_consistent (s : state) : Prop :=
  isExecuting s = true <-> executionId s <> None.

Definition touches_execution (a : action) : bool :=
  match a with
  | StartExecution _ | StopExecution => true
  | _ => false
  end.

End FlowStore.

(** ** components/flow-builder/nodes: nodeTypes.ts, CustomNode.tsx,
       Sidebar.tsx, NodePanel.tsx *)
Module Nodes.

Inductive Component : Type := CustomNode.

(** [export const nodeTypes = { connector: CustomNode, ... }] *)
Definition nodeTypes : list (string * Component) :=
  [("connector", CustomNode);
   ("condition", CustomNode);
   ("transform", CustomNode);
   ("webhook", CustomNode);
   ("delay", CustomNode);
   ("start", CustomNode);
   ("end", CustomNode)].

Record palette_entry : Type := {
  type : string;
  label : string;
  icon : string;
  color : string
}.

(** [export const nodeCategories = { triggers: [...], actions: [...],
    logic: [...], end: [...] }] *)
Definition nodeCategories : list (string * list palette_entry) :=
  [("triggers",
    [{| type := "start"; label := "Start"; icon := "play"; color := "green" |};
     {| type := "webhook"; label := "Webhook"; icon := "webhook"; color := "blue" |}]);
   ("actions",
    [{| type := "connector"; label := "Connector"; icon := "link"; color := "purple" |};
     {| type := "transform"; label := "Transform"; icon := "settings"; color := "orange" |}]);
   ("logic",
    [{| type := "condition"; label := "Condition"; icon := "git-branch"; color := "yellow" |};
     {| type := "delay"; label := "Delay"; icon := "clock"; color := "gray" |}]);
   ("end",
    [{| type := "end"; label := "End"; icon := "square"; color := "red" |}])].

(** The node kinds the palette offers, category after category. *)
Definition palette_types : list string :=
  flat_map (fun c => map type (snd c)) nodeCategories.

Inductive LucideIcon : Type :=
| Play | Webhook | Link | Settings | GitBranch | Clock | Square.

(** [const iconMap: Record<string, LucideIcon>] of CustomNode.tsx and
    Sidebar.tsx *)
Definition iconMap : list (string * LucideIcon) :=
  [("start", Play);
   ("webhook", Webhook);
   ("connector", Link);
   ("transform", Settings);
   ("condition", GitBranch);
   ("delay", Clock);
   ("end", Square)].

(** [const colorMap: Record<string, string>] of CustomNode.tsx; the same
    table is local to [getNodeTypeColor] in NodePanel.tsx. *)
Definition colorMap : list (string * string) :=
  [("start", "bg-green-500");
   ("webhook", "bg-blue-500");
   ("connector", "bg-purple-500");
   ("transform", "bg-orange-500");
   ("condition", "bg-yellow-500");
   ("delay", "bg-gray-500");
   ("end", "bg-red-500")].

(** The tables are object literals, so a read [table[k]] that finds no
    property of the table's own goes on to [Object.prototype]. These are the
    names found there; the value read under each is a function, under
    [__proto__] the prototype itself, and so truthy in every case. *)
Definition Object_prototype_names : list string :=
  ["constructor"; "hasOwnProperty"; "isPrototypeOf"; "propertyIsEnumerable";
   "toLocaleString"; "toString"; "valueOf"; "__proto__";
   "__defineGetter__"; "__defineSetter__"; "__lookupGetter__";
   "__lookupSetter__"].

(** What [table[k] || fallback] evaluates to: a value of the table's kind,
    or the value inherited under a name of [Object.prototype]. *)
Inductive looked_up (A : Type) : Type :=
| Found (a : A)
| Inherited (name : string).
Arguments Found {A} a.
Arguments Inherited {A} name.

(** [table[k]]: the table's own property, else the inherited one, else
    [undefined]. *)
Definition get {A} (table : list (string * A)) (k : string)
  : option (looked_up A) :=
  match field k table with
  | Some a => Some (Found a)
  | None =>
      if bool_decide (k ∈ Object_prototype_names) then Some (Inherited k)
      else None
  end.

(** [table[k] || fallback], for a table whose own values are truthy: the
    icons are components, the class names non-empty strings. *)
Definition get_or {A} (table : list (string * A)) (k : string) (fallback : A)
  : looked_up A :=
  match get table k with
  | Some v => v
  | None => Found fallback
  end.

(** [const Icon = iconMap[data.type] || Settings] *)
Definition CustomNode_icon (data_type : string) : looked_up LucideIcon :=
  get_or iconMap data_type Settings.

(** [const colorClass = colorMap[data.type] || "bg-gray-500"] *)
Definition CustomNode_colorClass (data_type : string) : looked_up string :=
  get_or colorMap data_type "bg-gray-500".

(** [getNodeTypeColor] of NodePanel.tsx *)
Definition getNodeTypeColor (t : string) : looked_up string :=
  get_or colorMap t "bg-gray-500".

(** Whether the dispatch tables have a case of their own for a kind. *)
Definition has_case (t : string) : bool :=
  bool_decide (t ∈ keys iconMap) && bool_decide (t ∈ keys colorMap).

(** The step kinds as the specification lists them. *)
Definition spec_step_kinds : list string :=
  ["start"; "webhook"; "connector"; "transform"; "condition"; "delay";
   "parallel"; "approval"; "end"].

(** What the specification asks of a registry of kinds [registered] with
    per-kind cases [cases]: the registry is the listed set, every listed
    kind has a case, and no kind outside the set has one. *)
Definition spec_closed_dispatch (registered : list string)
    (cases : string -> bool) : Prop :=
  (forall k, k ∈ registered <-> k ∈ spec_step_kinds) /\
  (forall k, k ∈ spec_step_kinds -> cases k = true) /\
  (forall k, cases k = true -> k ∈ spec_step_kinds).

End Nodes.

(** ** components/simulation/SimulationPanel.tsx *)
Module Simulation.



End Simulation.

(** ** components/testing/TestSuite.tsx *)
Module Testing.

(** JavaScript values as the comparison [===] sees them: primitives carry
    their content, objects and arrays are references into the heap. *)
Inductive value : Type :=
| VUndefined
| VNull
| VBoolean (b : bool)
| VNumber (x : float)
| VString (s : string)
| VObject (ref : nat).

(** The content of the heap cells: own properties in insertion order, an
    array holding its elements under the keys ["0"], ["1"], ... *)
Definition heap : Type := gmap nat (list (string * value)).

(** Strict equality [a === b]: numbers compare as IEEE doubles, objects by
    identity. *)
Definition strict_equals (a b : value) : bool :=
  match a, b with
  | VUndefined, VUndefined => true
  | VNull, VNull => true
  | VBoolean x, VBoolean y => Bool.eqb x y
  | VNumber x, VNumber y => PrimFloat.eqb x y
  | VString x, VString y => String.eqb x y
  | VObject x, VObject y => Nat.eqb x y
  | _, _ => false
  end.

(** [expected_status: "completed" | "failed"] *)
Inductive ExpectedStatus : Type := completed | failed.

Definition ExpectedStatus_literal (e : ExpectedStatus) : string :=
  match e with
  | completed => "completed"
  | failed => "failed"
  end.

(** [interface TestCase]; the two records are given as
    [Object.entries] lists them. *)
Record TestCase : Type := {
  id : string;
  name : string;
  description : string;
  initial_variables : list (string * value);
  expected_outputs : list (string * value);
  expected_status : ExpectedStatus;
  timeout_seconds : float;
  enabled : bool
}.

(** The two properties [validateTestResult] reads of its argument
    [simulationResult: any]. [variables] is [None] when the property is
    [undefined] or [null], where a property read throws. *)
Record SimulationResult : Type := {
  status : value;
  variables : option (list (string * value))
}.

Inductive completion : Type :=
| Return (b : bool)
| ThrowTypeError.

(** [simulationResult.variables[key]] on an object; an absent key reads
    as [undefined]. *)
Definition read (vars : list (string * value)) (key : string) : value :=
  match field key vars with
  | Some v => v
  | None => VUndefined
  end.

(** The loop [for (const [key, expectedValue] of
    Object.entries(testCase.expected_outputs))]. *)
Fixpoint check_outputs (entries : list (string * value))
    (vars : option (list (string * value))) : completion :=
  match entries with
  | [] => Return true
  | (key, expectedValue) :: rest =>
      match vars with
      | None => ThrowTypeError
      | Some o =>
          let actualValue := read o key in
          if negb (strict_equals actualValue expectedValue)
          then Return false
          else check_outputs rest vars
      end
  end.

Definition validateTestResult (testCase : TestCase)
    (simulationResult : SimulationResult) : completion :=
  if negb (strict_equals
             (VString (ExpectedStatus_literal (expected_status testCase)))
             (status simulationResult))
  then Return false
  else check_outputs (expected_outputs testCase) (variables simulationResult).

(** The result restricted to the variables a test case lists. *)
Definition listed_only (testCase : TestCase) (r : SimulationResult)
  : SimulationResult :=
  {| status := status r;
     variables :=
       option_map
         (List.filter
          (fun kv => bool_decide (fst kv ∈ keys (expected_outputs testCase))))
         (variables r) |}.

(** Deep structural equality of two values in a heap, to the given depth:
    the comparison [validateTestResult] does not make. *)
Fixpoint deep_equal (h : heap) (depth : nat) (a b : value) : bool :=
  match a, b with
  | VObject x, VObject y =>
      match depth, h !! x, h !! y with
      | S d, Some px, Some py =>
          bool_decide (keys px = keys py) &&
          forallb (fun k => deep_equal h d (read px k) (read py k)) (keys px)
      | _, _, _ => false
      end
  | _, _ => strict_equals a b
  end.

(** A test case expecting [{ "user": { "id": "42" } }], and a simulation
    result holding a structurally equal object at another address. *)
Definition sample_heap : heap :=
  <[1%nat := [("id", VString "42")]]> (<[2%nat := [("id", VString "42")]]> ∅).

Definition sample_case : TestCase :=
  {| id := "test_1"; name := "nested"; description := "";
     initial_variables := [];
     expected_outputs := [("user", VObject 1)];
     expected_status := completed;
     timeout_seconds := 30%float;
     enabled := true |}.

Definition sample_result : SimulationResult :=
  {| status := VString "completed";
     variables := Some [("user", VObject 2); ("extra", VNumber 1%float)] |}.

End Testing.

(** ** components/testing/TestSuite.tsx: suites, test cases and runs *)
Module TestSuitePanel.

(** [interface TestSuite] *)
Record TestSuite : Type := {
  id : string;
  name : string;
  description : string;
  workflow_id : string;
  test_cases : list Testing.TestCase;
  created_at : string;
  updated_at : string
}.

(** [Partial<TestCase>], the form of the new test case; its [id] is never
    set. [None] is [undefined]. *)
Record PartialTestCase : Type := {
  new_name : option string;
  new_description : option string;
  new_initial_variables : option (list (string * Testing.value));
  new_expected_outputs : option (list (string * Testing.value));
  new_expected_status : option Testing.ExpectedStatus;
  new_timeout_seconds : option float;
  new_enabled : option bool
}.

(** The object literal of [useState<Partial<TestCase>>] and of the reset in
    [addTestCase]. *)
Definition blank : PartialTestCase :=
  {| new_name := Some "";
     new_description := Some "";
     new_initial_variables := Some [];
     new_expected_outputs := Some [];
     new_expected_status := Some Testing.completed;
     new_timeout_seconds := Some 30%float;
     new_enabled := Some true |}.

(** [status: "passed" | "failed" | "running" | "pending"] *)
Inductive ResultStatus : Type := passed | failed | running | pending.

(** [interface TestResult]; an absent [duration_ms] or [actual_status] is
    [VUndefined]. *)
Record TestResult : Type := {
  test_id : string;
  test_name : string;
  status : ResultStatus;
  duration_ms : Testing.value;
  error : option string;
  actual_outputs : option (list (string * Testing.value));
  actual_status : Testing.value
}.

(** The state of the component. *)
Record state : Type := {
  testSuites : list TestSuite;
  selectedSuite : option TestSuite;
  isRunning : bool;
  testResults : list TestResult;
  newTestCase : PartialTestCase
}.

Definition initial : state :=
  {| testSuites := []; selectedSuite := None; isRunning := false;
     testResults := []; newTestCase := blank |}.

(** Truthiness of a string and of a number. *)
Definition truthy_string (s : string) : bool := negb (String.eqb s "").

Definition truthy_number (x : float) : bool :=
  negb (PrimFloat.eqb x 0%float) && PrimFloat.eqb x x.

(** [a || b] on an optional string and an optional number. *)
Definition string_or (a : option string) (b : string) : string :=
  match a with
  | Some s => if truthy_string s then s else b
  | None => b
  end.

Definition number_or (a : option float) (b : float) : float :=
  match a with
  | Some x => if truthy_number x then x else b
  | None => b
  end.

(** [createTestSuite]; [now] is [Date.now()], [created] and [updated] the
    two [new Date().toISOString()]. *)
Definition createTestSuite (currentWorkflow : option FlowStore.WorkflowData)
    (now : N) (created updated : string) (st : state) : state :=
  match currentWorkflow with
  | None => st
  | Some wf =>
      let suite :=
        {| id := "suite_" +:+ pretty now;
           name := "Test Suite for " +:+ FlowStore.name wf;
           description := "Automated test suite for workflow validation";
           workflow_id := FlowStore.id wf;
           test_cases := [];
           created_at := created;
           updated_at := updated |} in
      {| testSuites := testSuites st ++ [suite];
         selectedSuite := Some suite;
         isRunning := isRunning st;
         testResults := testResults st;
         newTestCase := newTestCase st |}
  end.

(** [testSuites.map(s => s.id === selectedSuite.id ? updatedSuite : s)] *)
Definition replace_suite (selected updated : TestSuite)
    (suites : list TestSuite) : list TestSuite :=
  map (fun s => if String.eqb (id s) (id selected) then updated else s) suites.

Definition with_cases (suite : TestSuite) (cases : list Testing.TestCase)
    (updated : string) : TestSuite :=
  {| id := id suite; name := name suite; description := description suite;
     workflow_id := workflow_id suite; test_cases := cases;
     created_at := created_at suite; updated_at := updated |}.

(** The test case [addTestCase] builds from the form. *)
Definition built_case (now : N) (n : string) (form : PartialTestCase)
  : Testing.TestCase :=
  {| Testing.id := "test_" +:+ pretty now;
     Testing.name := n;
     Testing.description := string_or (new_description form) "";
     Testing.initial_variables :=
       match new_initial_variables form with Some o => o | None => [] end;
     Testing.expected_outputs :=
       match new_expected_outputs form with Some o => o | None => [] end;
     Testing.expected_status :=
       match new_expected_status form with
       | Some e => e
       | None => Testing.completed
       end;
     Testing.timeout_seconds := number_or (new_timeout_seconds form) 30%float;
     Testing.enabled :=
       match new_enabled form with Some false => false | _ => true end |}.

(** [addTestCase]; [iso] is [new Date().toISOString()]. *)
Definition addTestCase (now : N) (iso : string) (st : state) : state :=
  match selectedSuite st, new_name (newTestCase st) with
  | Some selected, Some n =>
      if truthy_string n then
        let updatedSuite :=
          with_cases selected
            (test_cases selected ++ [built_case now n (newTestCase st)]) iso in
        {| testSuites := replace_suite selected updatedSuite (testSuites st);
           selectedSuite := Some updatedSuite;
           isRunning := isRunning st;
           testResults := testResults st;
           newTestCase := blank |}
      else st
  | _, _ => st
  end.

(** [removeTestCase] *)
Definition removeTestCase (testId : string) (iso : string) (st : state)
  : state :=
  match selectedSuite st with
  | None => st
  | Some selected =>
      let updatedSuite :=
        with_cases selected
          (List.filter (fun t => negb (String.eqb (Testing.id t) testId))
             (test_cases selected)) iso in
      {| testSuites := replace_suite selected updatedSuite (testSuites st);
         selectedSuite := Some updatedSuite;
         isRunning := isRunning st;
         testResults := testResults st;
         newTestCase := newTestCase st |}
  end.

Definition with_enabled (t : Testing.TestCase) (checked : bool)
  : Testing.TestCase :=
  {| Testing.id := Testing.id t; Testing.name := Testing.name t;
     Testing.description := Testing.description t;
     Testing.initial_variables := Testing.initial_variables t;
     Testing.expected_outputs := Testing.expected_outputs t;
     Testing.expected_status := Testing.expected_status t;
     Testing.timeout_seconds := Testing.timeout_seconds t;
     Testing.enabled := checked |}.

(** The [onCheckedChange] of a test case's switch; it is rendered for a
    selected suite only. *)
Definition setEnabled (testId : string) (checked : bool) (st : state) : state :=
  match selectedSuite st with
  | None => st
  | Some selected =>
      let updatedSuite :=
        with_cases selected
          (map (fun t => if String.eqb (Testing.id t) testId
                         then with_enabled t checked else t)
             (test_cases selected)) (updated_at selected) in
      {| testSuites := replace_suite selected updatedSuite (testSuites st);
         selectedSuite := Some updatedSuite;
         isRunning := isRunning st;
         testResults := testResults st;
         newTestCase := newTestCase st |}
  end.

(** The [onClick] of the [i]-th suite of the list: [setSelectedSuite(suite)]. *)
Definition selectSuite (i : nat) (st : state) : state :=
  match testSuites st !! i with
  | None => st
  | Some suite =>
      {| testSuites := testSuites st; selectedSuite := Some suite;
         isRunning := isRunning st; testResults := testResults st;
         newTestCase := newTestCase st |}
  end.

(** [setNewTestCase], from the inputs of the form. *)
Definition setNewTestCase (form : PartialTestCase) (st : state) : state :=
  {| testSuites := testSuites st; selectedSuite := selectedSuite st;
     isRunning := isRunning st; testResults := testResults st;
     newTestCase := form |}.

(** The request [runTestSuite] posts for a test case. *)
Record SimulationConfig : Type := {
  use_mock_data : bool;
  enable_validation : bool;
  stop_on_error : bool;
  dry_run : bool;
  step_timeout_seconds : float;
  max_steps : float
}.

Record SimulationRequest : Type := {
  request_workflow_id : string;
  request_config : SimulationConfig;
  request_initial_variables : list (string * Testing.value)
}.

Definition request_for (suite : TestSuite) (t : Testing.TestCase)
  : SimulationRequest :=
  {| request_workflow_id := workflow_id suite;
     request_config :=
       {| use_mock_data := true; enable_validation := true;
          stop_on_error := true; dry_run := false;
          step_timeout_seconds := Testing.timeout_seconds t;
          max_steps := 100%float |};
     request_initial_variables := Testing.initial_variables t |}.

(** What [fetch] and [response.json()] can do. A thrown value is an [Error]
    with its message, or something else. A body that is a primitive reads
    as an object without properties ([status] undefined, [variables]
    missing); [null] is apart, a property read on it throws. *)
Inductive thrown : Type :=
| ErrorObject (message : string)
| OtherValue.

Inductive body : Type :=
| BodyThrows (e : thrown)
| BodyNull
| BodyObject (r : Testing.SimulationResult) (duration : Testing.value).

Inductive fetch_outcome : Type :=
| Rejects (e : thrown)
| Responds (ok : bool) (b : body).

(** The environment of a run: the outcome of the [n]-th call of [fetch],
    and the message of the [TypeError] a property read throws. *)
Record environment : Type := {
  fetch : nat -> SimulationRequest -> fetch_outcome;
  type_error_message : Testing.TestCase -> body -> string
}.

(** [error instanceof Error ? error.message : "Unknown error"] *)
Definition caught_message (e : thrown) : string :=
  match e with
  | ErrorObject m => m
  | OtherValue => "Unknown error"
  end.

Definition failed_with (t : Testing.TestCase) (m : string) : TestResult :=
  {| test_id := Testing.id t; test_name := Testing.name t; status := failed;
     duration_ms := Testing.VUndefined; error := Some m;
     actual_outputs := None; actual_status := Testing.VUndefined |}.

Definition placeholder (t : Testing.TestCase) (s : ResultStatus) : TestResult :=
  {| test_id := Testing.id t; test_name := Testing.name t; status := s;
     duration_ms := Testing.VUndefined; error := None;
     actual_outputs := None; actual_status := Testing.VUndefined |}.

(** The result that replaces the running entry of a test case: the body of
    the [try] with its [catch]. *)
Definition settled_result (env : environment) (t : Testing.TestCase)
    (o : fetch_outcome) : TestResult :=
  match o with
  | Rejects e => failed_with t (caught_message e)
  | Responds false _ => failed_with t "Simulation failed"
  | Responds true (BodyThrows e) => failed_with t (caught_message e)
  | Responds true BodyNull => failed_with t (type_error_message env t BodyNull)
  | Responds true (BodyObject r d) =>
      match Testing.validateTestResult t r with
      | Testing.Return verdict =>
          {| test_id := Testing.id t; test_name := Testing.name t;
             status := if verdict then passed else failed;
             duration_ms := d;
             error := if verdict then None
                      else Some "Test expectations not met";
             actual_outputs := Testing.variables r;
             actual_status := Testing.status r |}
      | Testing.ThrowTypeError =>
          failed_with t (type_error_message env t (BodyObject r d))
      end
  end.

(** [results[results.length - 1] = result] *)
Definition replace_last (results : list TestResult) (x : TestResult)
  : list TestResult :=
  <[(length results - 1)%nat := x]> results.

(** The loop of [runTestSuite]: [results] is the local array, [published]
    the arguments of the calls of [setTestResults] so far, [calls] the
    number of calls of [fetch] so far. *)
Fixpoint run_cases (env : environment) (suite : TestSuite) (calls : nat)
    (cases : list Testing.TestCase) (results : list TestResult)
    (published : list (list TestResult))
  : list TestResult * list (list TestResult) :=
  match cases with
  | [] => (results, published)
  | t :: rest =>
      if negb (Testing.enabled t)
      then run_cases env suite calls rest (results ++ [placeholder t pending])
             published
      else
        let started := results ++ [placeholder t running] in
        let finished :=
          replace_last started
            (settled_result env t (fetch env calls (request_for suite t))) in
        run_cases env suite (S calls) rest finished
          (published ++ [started; finished])
  end.

(** [runTestSuite], once its promise has settled: the last published list
    is the state [testResults]. *)
Definition runTestSuite (env : environment) (st : state) : state :=
  match selectedSuite st with
  | None => st
  | Some suite =>
      let published := snd (run_cases env suite 0 (test_cases suite) [] []) in
      {| testSuites := testSuites st; selectedSuite := selectedSuite st;
         isRunning := false;
         testResults :=
           match last published with
           | Some results => results
           | None => testResults st
           end;
         newTestCase := newTestCase st |}
  end.

(** The events of the component. *)
Inductive action : Type :=
| CreateTestSuite (currentWorkflow : option FlowStore.WorkflowData)
    (now : N) (created updated : string)
| AddTestCase (now : N) (iso : string)
| RemoveTestCase (testId : string) (iso : string)
| SetEnabled (testId : string) (checked : bool)
| SelectSuite (i : nat)
| SetNewTestCase (form : PartialTestCase)
| RunTestSuite (env : environment).

Definition dispatch (a : action) (st : state) : state :=
  match a with
  | CreateTestSuite wf now c u => createTestSuite wf now c u st
  | AddTestCase now iso => addTestCase now iso st
  | RemoveTestCase i iso => removeTestCase i iso st
  | SetEnabled i c => setEnabled i c st
  | SelectSuite i => selectSuite i st
  | SetNewTestCase form => setNewTestCase form st
  | RunTestSuite env => runTestSuite env st
  end.

Definition run (acts : list action) (st : state) : state :=
  fold_left (fun s a => dispatch a s) acts st.

(** The number of calls of [fetch] made before the [i]-th test case. *)
Definition calls_before (cases : list Testing.TestCase) (i : nat) : nat :=
  length (List.filter Testing.enabled (take i cases)).

(** The result of the [i]-th test case once the run is over. *)
Definition result_of (env : environment) (suite : TestSuite)
    (cases : list Testing.TestCase) (i : nat) (t : Testing.TestCase)
  : TestResult :=
  if Testing.enabled t
  then settled_result env t
         (fetch env (calls_before cases i) (request_for suite t))
  else placeholder t pending.

Definition well_formed_case (t : Testing.TestCase) : Prop :=
  Testing.name t <> "" /\
  truthy_number (Testing.timeout_seconds t) = true.

(** The invariant of the panel: the selected suite is one of the suites,
    and every test case of every suite is well formed. *)
Definition panel_invariant (st : state) : Prop :=
  (forall sel, selectedSuite st = Some sel -> sel ∈ testSuites st) /\
  Forall (fun s => Forall well_formed_case (test_cases s)) (testSuites st).

(** The events that edit the selected suite. *)
Definition edits_selected (a : action) : bool :=
  match a with
  | AddTestCase _ _ | RemoveTestCase _ _ | SetEnabled _ _ => true
  | _ => false
  end.

(** The ids of the test cases of the selected suite. *)
Definition selected_case_ids (st : state) : list string :=
  match selectedSuite st with
  | Some sel => map Testing.id (test_cases sel)
  | None => []
  end.

Definition selected_cases (st : state) : list Testing.TestCase :=
  match selectedSuite st with
  | Some sel => test_cases sel
  | None => []
  end.

(** A session of the panel to run the handlers on: a suite for a workflow,
    an enabled test case and a disabled one after it. The form leaves the
    timeout at 0. *)
Definition sample_workflow : FlowStore.WorkflowData :=
  {| FlowStore.id := "wf_1"; FlowStore.name := "Orders";
     FlowStore.description := ""; FlowStore.nodes := [];
     FlowStore.edges := []; FlowStore.variables := [];
     FlowStore.metadata := [] |}.

Definition sample_form (n : string) (on : bool) : PartialTestCase :=
  {| new_name := Some n;
     new_description := Some "";
     new_initial_variables := Some [];
     new_expected_outputs := Some [("total", Testing.VNumber 3%float)];
     new_expected_status := Some Testing.completed;
     new_timeout_seconds := Some 0%float;
     new_enabled := Some on |}.

Definition sample_actions : list action :=
  [CreateTestSuite (Some sample_workflow) 1000 "t0" "t0";
   SetNewTestCase (sample_form "smoke" true);
   AddTestCase 1001 "t1";
   SetNewTestCase (sample_form "skipped" false);
   AddTestCase 1002 "t2"].

Definition sample_state : state := run sample_actions initial.

Definition sample_smoke : Testing.TestCase :=
  built_case 1001 "smoke" (sample_form "smoke" true).

Definition sample_skipped : Testing.TestCase :=
  built_case 1002 "skipped" (sample_form "skipped" false).

Definition sample_suite : TestSuite :=
  {| id := "suite_1000";
     name := "Test Suite for Orders";
     description := "Automated test suite for workflow validation";
     workflow_id := "wf_1";
     test_cases := [sample_smoke; sample_skipped];
     created_at := "t0";
     updated_at := "t2" |}.

(** A server that answers every request with a completed simulation. *)
Definition sample_environment : environment :=
  {| fetch := fun _ _ =>
       Responds true
         (BodyObject
            {| Testing.status := Testing.VString "completed";
               Testing.variables :=
                 Some [("total", Testing.VNumber 3%float)] |}
            (Testing.VNumber 12%float));
     type_error_message := fun _ _ =>
       "Cannot read properties of undefined" |}.

End TestSuitePanel.

(** ** components/flow-builder: FlowBuilder.tsx, Toolbar.tsx, Sidebar.tsx *)
Module FlowBuilderView.

(** What FlowBuilder.tsx can render in the right sidebar. *)
Inductive RightPanelContent : Type :=
| NodePanel (node : FlowStore.Node)
| SimulationPanel
| TestSuite.

(** The three conditionals of the right sidebar, in the order of the JSX:
    [rightPanel === "node" && selectedNode && <NodePanel/>],
    [rightPanel === "simulation" && <SimulationPanel/>],
    [rightPanel === "testing" && <TestSuite/>]. *)
Definition right_sidebar (s : FlowStore.state) : list RightPanelContent :=
  match FlowStore.rightPanel s, FlowStore.selectedNode s with
  | FlowStore.node, Some n => [NodePanel n]
  | _, _ => []
  end ++
  match FlowStore.rightPanel s with
  | FlowStore.simulation => [SimulationPanel]
  | _ => []
  end ++
  match FlowStore.rightPanel s with
  | FlowStore.testing => [TestSuite]
  | _ => []
  end.

(** [onNodeClick], [onPaneClick] and the [onClose] of the node panel. *)
Definition onNodeClick (n : FlowStore.Node) : FlowStore.action :=
  FlowStore.SetSelectedNode (Some n).

Definition onPaneClick : FlowStore.action := FlowStore.SetSelectedNode None.

Definition onClose : FlowStore.action := FlowStore.SetSelectedNode None.

(** The store actions that can change the right sidebar. *)
Definition steers_right_sidebar (a : FlowStore.action) : bool :=
  match a with
  | FlowStore.SetSelectedNode _ | FlowStore.SetRightPanel _ => true
  | _ => false
  end.

(** Toolbar.tsx: [isExecuting ? <Stop/> : <Execute/>]. *)
Inductive RunButton : Type := ExecuteButton | StopButton.

Definition run_button (s : FlowStore.state) : RunButton :=
  if FlowStore.isExecuting s then StopButton else ExecuteButton.

(** Toolbar.tsx: [executionId && <Badge>Execution:
    {executionId.slice(0, 8)}...</Badge>]; a string is the sequence of its
    code units. *)
Definition execution_badge (s : FlowStore.state) : option string :=
  match FlowStore.executionId s with
  | Some i =>
      if String.eqb i "" then None
      else Some ("Execution: " +:+ String.substring 0 8 i +:+ "...")
  | None => None
  end.

(** Toolbar.tsx: [currentWorkflow?.name || "Untitled Workflow"]. *)
Definition title (s : FlowStore.state) : string :=
  match FlowStore.currentWorkflow s with
  | Some w =>
      if String.eqb (FlowStore.name w) "" then "Untitled Workflow"
      else FlowStore.name w
  | None => "Untitled Workflow"
  end.

(** Sidebar.tsx, for an entry of the palette: [iconMap[node.type]], without
    a fallback, and the swatch class [bg-${node.color}-500]. *)
Definition Sidebar_icon (e : Nodes.palette_entry)
  : option (Nodes.looked_up Nodes.LucideIcon) :=
  Nodes.get Nodes.iconMap (Nodes.type e).

Definition Sidebar_swatch (e : Nodes.palette_entry) : string :=
  "bg-" +:+ Nodes.color e +:+ "-500".

Definition palette : list Nodes.palette_entry :=
  flat_map snd Nodes.nodeCategories.

End FlowBuilderView.

(** ** components/simulation/SimulationPanel.tsx: starting a simulation *)
Module SimulationPanel.

(** The state [config] of the panel. *)
Record Config : Type := {
  useMockData : bool;
  enableValidation : bool;
  stopOnError : bool;
  dryRun : bool;
  stepTimeout : float;
  maxSteps : float
}.

Definition default_config : Config :=
  {| useMockData := true; enableValidation := true; stopOnError := true;
     dryRun := false; stepTimeout := 30%float; maxSteps := 100%float |}.

(** The state of the component; the simulation result is the document the
    server answered with. *)
Record state : Type := {
  isSimulating : bool;
  simulationResult : option json;
  config : Config;
  initialVariables : string;
  mockDataConfig : string
}.

Definition initial : state :=
  {| isSimulating := false; simulationResult := None;
     config := default_config; initialVariables := ""; mockDataConfig := "" |}.

(** The body [startSimulation] posts; a member that is [undefined] is left
    out by [JSON.stringify]. *)
Record RequestConfig : Type := {
  use_mock_data : bool;
  enable_validation : bool;
  stop_on_error : bool;
  dry_run : bool;
  step_timeout_seconds : float;
  max_steps : float
}.

Record Request : Type := {
  workflow_id : string;
  request_config : RequestConfig;
  initial_variables : option json;
  mock_data_config : option json
}.

(** What [fetch] does: it rejects, or it responds; [body] is what
    [response.json()] gives, [None] when it throws. *)
Inductive fetch_outcome : Type :=
| Rejects
| Responds (ok : bool) (body : option json).

(** The environment: [JSON.parse], [None] standing for a thrown
    [SyntaxError], and [fetch]. *)
Record environment : Type := {
  JSON_parse : string -> option json;
  fetch : Request -> fetch_outcome
}.

(** [text ? JSON.parse(text) : undefined]; the outer [None] is a throw. *)
Definition parse_if_given (env : environment) (text : string)
  : option (option json) :=
  if String.eqb text "" then Some None
  else match JSON_parse env text with
       | Some j => Some (Some j)
       | None => None
       end.

(** The argument of [JSON.stringify] in [startSimulation]. *)
Definition build_request (env : environment) (wf : FlowStore.WorkflowData)
    (st : state) : option Request :=
  iv ← parse_if_given env (initialVariables st);
  mc ← parse_if_given env (mockDataConfig st);
  Some {| workflow_id := FlowStore.id wf;
          request_config :=
            {| use_mock_data := useMockData (config st);
               enable_validation := enableValidation (config st);
               stop_on_error := stopOnError (config st);
               dry_run := dryRun (config st);
               step_timeout_seconds := stepTimeout (config st);
               max_steps := maxSteps (config st) |};
          initial_variables := iv;
          mock_data_config := mc |}.

Definition finished (result : option json) (st : state) : state :=
  {| isSimulating := false;
     simulationResult :=
       match result with Some r => Some r | None => simulationResult st end;
     config := config st; initialVariables := initialVariables st;
     mockDataConfig := mockDataConfig st |}.

(** [startSimulation], once its promise has settled: the state, and the
    request that was sent, if one was. *)
Definition startSimulation (currentWorkflow : option FlowStore.WorkflowData)
    (env : environment) (st : state) : state * option Request :=
  match currentWorkflow with
  | None => (st, None)
  | Some wf =>
      match build_request env wf st with
      | None => (finished None st, None)
      | Some req =>
          match fetch env req with
          | Responds true (Some result) => (finished (Some result) st, Some req)
          | _ => (finished None st, Some req)
          end
      end
  end.


(** A text the request can carry: empty, or accepted by [JSON.parse]. *)
Definition sendable (env : environment) (text : string) : Prop :=
  text = "" \/ is_Some (JSON_parse env text).

(** A [JSON.parse] that knows the empty object only, and a server that
    answers every request with an empty document. *)
Definition sample_environment : environment :=
  {| JSON_parse := fun text =>
       if String.eqb text "{}" then Some (JObj []) else None;
     fetch := fun _ => Responds true (Some (JObj [])) |}.

Definition sample_workflow : FlowStore.WorkflowData :=
  {| FlowStore.id := "wf_1"; FlowStore.name := "Orders";
     FlowStore.description := ""; FlowStore.nodes := [];
     FlowStore.edges := []; FlowStore.variables := [];
     FlowStore.metadata := [] |}.

(** The panel with a mock configuration typed in. *)
Definition sample_state : state :=
  {| isSimulating := false; simulationResult := None;
     config := default_config; initialVariables := "";
     mockDataConfig := "{}" |}.

End SimulationPanel.

(** ** The execution engine's contracts

    The engine (variable store, retry policy, step executors, persistence
    and run state machine) is the orchestrator service, whose code is not
    part of the TypeScript tree above. Its operations are modelled from
    sections 3 to 7 of the specification. *)

(** *** Errors (specification, section 7) *)
Module Errors.

Inductive ErrorKind : Type :=
| MappingError
| ConnectorError
| ConditionError
| TimeoutError
| RateLimitedError
| CancellationError.

#[export] Instance ErrorKind_eq_dec : EqDecision ErrorKind.
Proof. solve_decision. Defined.

End Errors.

(** *** Variable Store (specification, sections 3 and 4.1) *)
Module VariableStore.

(** The store: the variables of one run with their values. *)
Definition store : Type := list (string * json).

Inductive error : Type := NotFoundError (name : string).

Definition empty : store := [].

(** Modelled from the spec: [get(name) -> value or NotFoundError] of the
    Variable Store; a read of an undeclared variable fails explicitly. *)
Definition get (name : string) (s : store) : json + error :=
  match field name s with
  | Some v => inl v
  | None => inr (NotFoundError name)
  end.

(** Modelled from the spec: [set(name, value)] of the Variable Store; a
    write overwrites the whole value of a declared variable and appends an
    undeclared one. *)
Fixpoint set (name : string) (value : json) (s : store) : store :=
  match s with
  | [] => [(name, value)]
  | (k, v) :: rest =>
      if String.eqb name k then (k, value) :: rest
      else (k, v) :: set name value rest
  end.

(** Modelled from the spec: [snapshot() -> immutable copy]. *)
Definition snapshot (s : store) : store := s.

(** The outputs of a step written back, one variable after the other. *)
Definition write_all (outputs : list (string * json)) (s : store) : store :=
  fold_left (fun acc kv => set (fst kv) (snd kv) acc) outputs s.

End VariableStore.

(** *** Retry/Backoff Policy (specification, sections 3 and 4.4) *)
Module Retry.
Import Errors.

(** Modelled from the spec: the RetryPolicy of section 3. The base delay
    is a duration and the multiplier a factor: neither is negative. *)
Record RetryPolicy : Type := {
  max_attempts : nat;
  base_delay : Q;            (* milliseconds *)
  backoff_multiplier : Q;
  jitter : bool;
  retryable : list ErrorKind;
  base_delay_nonneg : (0 <= base_delay)%Q;
  backoff_multiplier_nonneg : (0 <= backoff_multiplier)%Q
}.

(** [base * multiplier^(attempt-1)] *)
Definition backoff (attempt : nat) (policy : RetryPolicy) : Q :=
  (base_delay policy * backoff_multiplier policy ^ Z.of_nat (attempt - 1))%Q.

(** Modelled from the spec: [nextDelay(attempt, policy) -> duration] of the
    Retry/Backoff Policy. [u] is the uniform draw of the jitter, a fraction
    of the delay: the jitter term [u * delay] ranges over [[0, delay]] as
    [u] ranges over [[0, 1]]. *)
Definition nextDelay (attempt : nat) (policy : RetryPolicy) (u : Q) : Q :=
  let delay := backoff attempt policy in
  if jitter policy then (delay + u * delay)%Q else delay.

(** Modelled from the spec: [shouldRetry(error, attempt, policy) -> bool];
    [attempt] is the attempt that has just failed, and retries are exhausted
    when the next attempt would exceed [max_attempts] or the error kind is
    not retryable. *)
Definition shouldRetry (e : ErrorKind) (attempt : nat) (policy : RetryPolicy)
  : bool :=
  bool_decide (e ∈ retryable policy) && (attempt <? max_attempts policy)%nat.

(** The policy of the specification's retry example. *)
Definition example_policy : RetryPolicy :=
  {| max_attempts := 3; base_delay := 100; backoff_multiplier := 2;
     jitter := false; retryable := [ConnectorError; RateLimitedError];
     base_delay_nonneg := Qle_bool_imp_le 0 100 eq_refl;
     backoff_multiplier_nonneg := Qle_bool_imp_le 0 2 eq_refl |}.

Definition with_jitter (policy : RetryPolicy) : RetryPolicy :=
  {| max_attempts := max_attempts policy; base_delay := base_delay policy;
     backoff_multiplier := backoff_multiplier policy; jitter := true;
     retryable := retryable policy;
     base_delay_nonneg := base_delay_nonneg policy;
     backoff_multiplier_nonneg := backoff_multiplier_nonneg policy |}.

End Retry.

(** *** The condition executor (specification, section 4.3) *)
Module Condition.
Import Errors.

(** A branch of a condition step: a boolean expression over the store and
    the step its edge leads to. An expression that throws evaluates to
    [None]. *)
Record Branch : Type := {
  test : VariableStore.store -> option bool;
  target : string
}.

Record ConditionStep : Type := {
  branches : list Branch;          (* in declaration order *)
  else_branch : option string
}.

Inductive EdgeMark : Type := taken | skipped.

#[export] Instance EdgeMark_eq_dec : EqDecision EdgeMark.
Proof. solve_decision. Defined.

Inductive outcome : Type :=
| Chosen (next : string) (marks : list (string * EdgeMark))
| Fails (e : ErrorKind).

(** The branches from the first matching one on: [None] when none matches,
    [Some (inr _)] when an expression throws before a match. *)
Fixpoint first_match (s : VariableStore.store) (bs : list Branch)
  : option (list Branch * Branch * list Branch + unit) :=
  match bs with
  | [] => None
  | b :: rest =>
      match test b s with
      | None => Some (inr tt)
      | Some true => Some (inl ([], b, rest))
      | Some false =>
          match first_match s rest with
          | Some (inl (before, m, after)) => Some (inl (b :: before, m, after))
          | other => other
          end
      end
  end.

Definition mark_all (m : EdgeMark) (bs : list Branch)
  : list (string * EdgeMark) :=
  map (fun b => (target b, m)) bs.

Definition mark_else (m : EdgeMark) (e : option string)
  : list (string * EdgeMark) :=
  match e with
  | Some t => [(t, m)]
  | None => []
  end.

(** Modelled from the spec: the condition step executor. The branches are
    tried in declaration order and the first matching one is taken; every
    other outgoing edge is marked skipped; without a match the else edge is
    taken, and a missing else is a [ConditionError]. An expression that
    throws fails the step with the Data Mapper's [MappingError] (it is not
    a branch choice). *)
Definition execute (s : VariableStore.store) (c : ConditionStep) : outcome :=
  match first_match s (branches c) with
  | Some (inl (before, m, after)) =>
      Chosen (target m)
        (mark_all skipped before ++ [(target m, taken)] ++
         mark_all skipped after ++ mark_else skipped (else_branch c))
  | Some (inr _) => Fails MappingError
  | None =>
      match else_branch c with
      | Some t => Chosen t (mark_all skipped (branches c) ++ [(t, taken)])
      | None => Fails ConditionError
      end
  end.


Definition matches (s : VariableStore.store) (b : Branch) : Prop :=
  test b s = Some true.

Definition rejects (s : VariableStore.store) (b : Branch) : Prop :=
  test b s = Some false.




End Condition.

(** *** Persistence of step results (specification, sections 3 and 6) *)
Module Persistence.
Import Errors.

Inductive StepStatus : Type :=
| pending | running | completed | failed | skipped.

(** Modelled from the spec: the StepResult of section 3. *)
Record StepResult : Type := {
  step_id : string;
  status : StepStatus;
  attempt : nat;
  inputs : VariableStore.store;
  outputs : VariableStore.store;
  error : option (ErrorKind * string);
  start_time : Z;
  end_time : option Z;
  duration : option Z
}.

(** The persisted step results, each under the id of its run, oldest first. *)
Definition records : Type := list (string * StepResult).

(** The idempotency key: run id, step id and attempt number. *)
Definition key (entry : string * StepResult) : string * string * nat :=
  (fst entry, step_id (snd entry), attempt (snd entry)).

(** Modelled from the spec: [appendStepResult(runId, StepResult)] of the
    persistence collaborator, idempotent by run id, step id and attempt
    number: a call whose key is already stored appends nothing. *)
Definition appendStepResult (runId : string) (r : StepResult) (db : records)
  : records :=
  if bool_decide (key (runId, r) ∈ map key db) then db
  else db ++ [(runId, r)].

(** The stored results of a run for one step and attempt. *)
Definition stored_under (k : string * string * nat) (db : records)
  : list StepResult :=
  map snd (List.filter (fun e => bool_decide (key e = k)) db).

(** The first attempt of a step, as recorded, and a replay of the call with
    another payload under the same key. *)
Definition first_attempt : StepResult :=
  {| step_id := "B"; status := completed; attempt := 1;
     inputs := []; outputs := [("response", JStr "ok")]; error := None;
     start_time := 0; end_time := Some 5%Z; duration := Some 5%Z |}.

Definition replayed_attempt : StepResult :=
  {| step_id := "B"; status := failed; attempt := 1;
     inputs := []; outputs := [];
     error := Some (ConnectorError, "replay");
     start_time := 7; end_time := Some 9%Z; duration := Some 2%Z |}.

End Persistence.

(** *** Run State Machine (specification, sections 3, 4.3, 4.5, 5 and 7) *)
Module RunStateMachine.
Import Errors.

Inductive RunStatus : Type :=
| pending | running | waiting | completed | failed | cancelled
| compensating | dead_lettered.

Inductive StepKind : Type :=
| kind_start | kind_webhook | kind_connector | kind_transform
| kind_condition | kind_delay | kind_parallel | kind_approval | kind_end.

(** Modelled from the spec: the Step of section 3, a tagged variant with
    one case per kind; each case carries its outgoing edges. *)
Inductive StepBody : Type :=
| StartStep (next : string)
| WebhookStep (next : string)
| ConnectorStep (connector_type action : string) (next : string)
| TransformStep
    (mapping : VariableStore.store -> option (list (string * json)))
    (next : string)
| ConditionStep (c : Condition.ConditionStep)
| DelayStep (next : string)
| ParallelStep (children : list string) (join : string) (stop_on_error : bool)
| ApprovalStep (approve_on_timeout : bool) (next : string)
| EndStep.

Definition kind_of (b : StepBody) : StepKind :=
  match b with
  | StartStep _ => kind_start
  | WebhookStep _ => kind_webhook
  | ConnectorStep _ _ _ => kind_connector
  | TransformStep _ _ => kind_transform
  | ConditionStep _ => kind_condition
  | DelayStep _ => kind_delay
  | ParallelStep _ _ _ => kind_parallel
  | ApprovalStep _ _ => kind_approval
  | EndStep => kind_end
  end.

Record Step : Type := {
  id : string;
  body : StepBody;
  retry_override : option Retry.RetryPolicy;
  compensation : option string
}.

Inductive FailurePolicy : Type := halt | compensate | dead_letter.

(** Modelled from the spec: the WorkflowDefinition of section 3, with the
    workflow-level retry policy and failure policy. The terminal steps are
    the steps of kind [end]. *)
Record WorkflowDefinition : Type := {
  definition_id : string;
  version : string;
  steps : list Step;
  entry : string;
  default_retry : Retry.RetryPolicy;
  failure_policy : FailurePolicy
}.

(** The outgoing edges of a step, in declaration order. *)
Definition successors (b : StepBody) : list string :=
  match b with
  | StartStep n | WebhookStep n | ConnectorStep _ _ n | TransformStep _ n
  | DelayStep n | ApprovalStep _ n => [n]
  | ConditionStep c =>
      map Condition.target (Condition.branches c) ++
      match Condition.else_branch c with Some t => [t] | None => [] end
  | ParallelStep children join _ => children ++ [join]
  | EndStep => []
  end.

Definition find_step (def : WorkflowDefinition) (i : string) : option Step :=
  List.find (fun s => String.eqb (id s) i) (steps def).

Definition policy_of (def : WorkflowDefinition) (s : Step) : Retry.RetryPolicy :=
  match retry_override s with
  | Some p => p
  | None => default_retry def
  end.

(** [b] is reached from [a] along the edges of the definition. *)
Inductive reaches (def : WorkflowDefinition) : string -> string -> Prop :=
| reaches_here a : reaches def a a
| reaches_edge a s b c :
    find_step def a = Some s -> b ∈ successors (body s) ->
    reaches def b c -> reaches def a c.

(** A ranking of the steps along which every edge leads to a step of lower
    rank. *)
Definition ranked (def : WorkflowDefinition) (rank : string -> nat) : Prop :=
  forall s t, s ∈ steps def -> t ∈ successors (body s) ->
    (rank t < rank (id s))%nat.

Definition rankedb (def : WorkflowDefinition) (rank : string -> nat) : bool :=
  forallb
    (fun s => forallb (fun t => (rank t <? rank (id s))%nat)
                (successors (body s)))
    (steps def).

(** The step graph has no raw cycle: its steps can be ranked. *)
Definition acyclic (def : WorkflowDefinition) : Prop :=
  exists rank : string -> nat, ranked def rank.

(** A valid definition: one entry step, a terminal step reachable from it,
    and no raw cycle. *)
Definition valid_definition (def : WorkflowDefinition) : Prop :=
  is_Some (find_step def (entry def)) /\
  (exists t s, reaches def (entry def) t /\ find_step def t = Some s /\
               body s = EndStep) /\
  acyclic def.

(** An open parallel step: the join its branches lead to, the branches not
    yet started, the store as it was at fan-out, and the writes of the
    branches, to be merged at the join. *)
Record Frame : Type := {
  frame_join : string;
  pending_branches : list string;
  frame_stop_on_error : bool;
  view : VariableStore.store;
  writes : list (string * json)
}.

(** Modelled from the spec: the Run of section 3, with the position of the
    state machine in the step graph ([current], [attempt], [frames]). *)
Record Run : Type := {
  run_id : string;
  definition : string * string;
  status : RunStatus;
  input_data : list (string * json);
  store : VariableStore.store;
  execution_path : list string;
  step_results : Persistence.records;
  current : string;
  attempt : nat;
  frames : list Frame;
  partial_failure : bool;
  error_summary : option ErrorKind;
  retry_delay : option Q;
  compensation_log : list (string * bool);
  started_at : option Z;
  completed_at : option Z
}.

(** The external signals that resume a suspended step. *)
Inductive Signal : Type :=
| timer_fired
| webhook_delivered (payload : list (string * json))
| decision (approve : bool)
| timed_out.

(** What reaches the engine from outside at one transition: the clock, a
    cancellation request, the result of the connector registry's [invoke]
    (an error comes with its retryable flag), the signal delivered to a
    suspended step, the jitter draw and the results of the compensation
    actions. *)
Record Input : Type := {
  now : Z;
  cancel_requested : bool;
  connector_result : list (string * json) + ErrorKind * bool;
  signal : Signal;
  jitter_draw : Q;
  compensation_ok : string -> bool
}.

(** Modelled from the spec: [triggerRun(definitionRef, inputData)] creates
    the run in status [pending]. *)
Definition triggerRun (def : WorkflowDefinition) (runId : string)
    (inputData : list (string * json)) : Run :=
  {| run_id := runId; definition := (definition_id def, version def);
     status := pending; input_data := inputData;
     store := VariableStore.empty; execution_path := [];
     step_results := []; current := entry def; attempt := 1;
     frames := []; partial_failure := false; error_summary := None;
     retry_delay := None; compensation_log := [];
     started_at := None; completed_at := None |}.

(** Modelled from the spec: [getRunStatus(runId) -> Run], on the run the
    state machine holds. *)
Definition getRunStatus (r : Run) : Run := r.

Definition set_status (st : RunStatus) (r : Run) : Run :=
  {| run_id := run_id r; definition := definition r; status := st;
     input_data := input_data r; store := store r;
     execution_path := execution_path r; step_results := step_results r;
     current := current r; attempt := attempt r; frames := frames r;
     partial_failure := partial_failure r; error_summary := error_summary r;
     retry_delay := retry_delay r; compensation_log := compensation_log r;
     started_at := started_at r; completed_at := completed_at r |}.

Definition set_position (step : string) (n : nat) (r : Run) : Run :=
  {| run_id := run_id r; definition := definition r; status := status r;
     input_data := input_data r; store := store r;
     execution_path := execution_path r; step_results := step_results r;
     current := step; attempt := n; frames := frames r;
     partial_failure := partial_failure r; error_summary := error_summary r;
     retry_delay := retry_delay r; compensation_log := compensation_log r;
     started_at := started_at r; completed_at := completed_at r |}.

Definition set_frames (fs : list Frame) (r : Run) : Run :=
  {| run_id := run_id r; definition := definition r; status := status r;
     input_data := input_data r; store := store r;
     execution_path := execution_path r; step_results := step_results r;
     current := current r; attempt := attempt r; frames := fs;
     partial_failure := partial_failure r; error_summary := error_summary r;
     retry_delay := retry_delay r; compensation_log := compensation_log r;
     started_at := started_at r; completed_at := completed_at r |}.

Definition set_store (s : VariableStore.store) (r : Run) : Run :=
  {| run_id := run_id r; definition := definition r; status := status r;
     input_data := input_data r; store := s;
     execution_path := execution_path r; step_results := step_results r;
     current := current r; attempt := attempt r; frames := frames r;
     partial_failure := partial_failure r; error_summary := error_summary r;
     retry_delay := retry_delay r; compensation_log := compensation_log r;
     started_at := started_at r; completed_at := completed_at r |}.

(** What does not steer the state machine: path, step results, failure
    flags, delays, logs and timestamps. *)
Definition set_trace (path : list string) (results : Persistence.records)
    (r : Run) : Run :=
  {| run_id := run_id r; definition := definition r; status := status r;
     input_data := input_data r; store := store r;
     execution_path := path; step_results := results;
     current := current r; attempt := attempt r; frames := frames r;
     partial_failure := partial_failure r; error_summary := error_summary r;
     retry_delay := retry_delay r; compensation_log := compensation_log r;
     started_at := started_at r; completed_at := completed_at r |}.

Definition set_outcome (partial : bool) (summary : option ErrorKind)
    (delay : option Q) (log : list (string * bool)) (r : Run) : Run :=
  {| run_id := run_id r; definition := definition r; status := status r;
     input_data := input_data r; store := store r;
     execution_path := execution_path r; step_results := step_results r;
     current := current r; attempt := attempt r; frames := frames r;
     partial_failure := partial; error_summary := summary;
     retry_delay := delay; compensation_log := log;
     started_at := started_at r; completed_at := completed_at r |}.

Definition set_times (started completed_ : option Z) (r : Run) : Run :=
  {| run_id := run_id r; definition := definition r; status := status r;
     input_data := input_data r; store := store r;
     execution_path := execution_path r; step_results := step_results r;
     current := current r; attempt := attempt r; frames := frames r;
     partial_failure := partial_failure r; error_summary := error_summary r;
     retry_delay := retry_delay r; compensation_log := compensation_log r;
     started_at := started; completed_at := completed_ |}.

(** The run is over: no transition leaves its status. [failed] is final
    under the failure policy [halt]; under the other two policies the run
    goes on to compensation or to the dead-letter store. *)
Definition settled (def : WorkflowDefinition) (r : Run) : bool :=
  match status r with
  | completed | cancelled | dead_lettered => true
  | failed =>
      match failure_policy def with halt => true | _ => false end
  | _ => false
  end.

(** The terminal statuses of the specification. *)
Definition terminal_status (st : RunStatus) : bool :=
  match st with
  | completed | failed | cancelled | dead_lettered => true
  | _ => false
  end.

Definition message_of (e : ErrorKind) : string :=
  match e with
  | MappingError => "MappingError"
  | ConnectorError => "ConnectorError"
  | ConditionError => "ConditionError"
  | TimeoutError => "TimeoutError"
  | RateLimitedError => "RateLimitedError"
  | CancellationError => "CancellationError"
  end.

(** The step result of the current attempt, appended when the attempt ends;
    an error is attached to it before the state changes. *)
Definition record_result (inp : Input) (st : Persistence.StepStatus)
    (outs : list (string * json)) (err : option ErrorKind) (r : Run) : Run :=
  set_trace (execution_path r)
    (Persistence.appendStepResult (run_id r)
       {| Persistence.step_id := current r;
          Persistence.status := st;
          Persistence.attempt := attempt r;
          Persistence.inputs := VariableStore.snapshot (store r);
          Persistence.outputs := outs;
          Persistence.error := option_map (fun e => (e, message_of e)) err;
          Persistence.start_time := now inp;
          Persistence.end_time := Some (now inp);
          Persistence.duration := Some 0%Z |}
       (step_results r))
    r.

(** The edges a condition step did not take: their targets are recorded as
    skipped. *)
Definition record_skipped (inp : Input)
    (marks : list (string * Condition.EdgeMark)) (r : Run) : Run :=
  fold_left
    (fun acc e =>
       match snd e with
       | Condition.taken => acc
       | Condition.skipped =>
           set_trace (execution_path acc)
             (Persistence.appendStepResult (run_id acc)
                {| Persistence.step_id := fst e;
                   Persistence.status := Persistence.skipped;
                   Persistence.attempt := 0;
                   Persistence.inputs := [];
                   Persistence.outputs := [];
                   Persistence.error := None;
                   Persistence.start_time := now inp;
                   Persistence.end_time := Some (now inp);
                   Persistence.duration := Some 0%Z |}
                (step_results acc))
             acc
       end)
    marks r.

(** The current step joins the execution path at its first attempt. *)
Definition visit (r : Run) : Run :=
  if (attempt r =? 1)%nat
  then set_trace (execution_path r ++ [current r]) (step_results r) r
  else r.

Definition log_writes (outs : list (string * json)) (fs : list Frame)
  : list Frame :=
  match fs with
  | f :: rest =>
      {| frame_join := frame_join f; pending_branches := pending_branches f;
         frame_stop_on_error := frame_stop_on_error f; view := view f;
         writes := writes f ++ outs |} :: rest
  | [] => []
  end.

(** The outputs of a step are written to the store; inside a parallel
    branch they are also kept for the merge at the join. *)
Definition write_outputs (outs : list (string * json)) (r : Run) : Run :=
  set_frames (log_writes outs (frames r))
    (set_store (VariableStore.write_all outs (store r)) r).

(** The run moves on to [step], which becomes ready. *)
Definition enter (step : string) (r : Run) : Run :=
  set_status running (set_position step 1 r).

Definition proceed (inp : Input) (outs : list (string * json))
    (next : string) (r : Run) : Run :=
  enter next
    (write_outputs outs (record_result inp Persistence.completed outs None r)).

(** A branch of the innermost open parallel step [f] has ended: the next
    branch starts from the store as it was at fan-out; after the last one
    the writes of the branches are merged into that store, later writes
    winning, and the join step becomes ready. *)
Definition arrive (f : Frame) (fs : list Frame) (r : Run) : Run :=
  match pending_branches f with
  | c :: cs =>
      enter c
        (set_store (view f)
           (set_frames
              ({| frame_join := frame_join f; pending_branches := cs;
                  frame_stop_on_error := frame_stop_on_error f;
                  view := view f; writes := writes f |} :: fs) r))
  | [] =>
      enter (frame_join f)
        (set_store (VariableStore.write_all (writes f) (view f))
           (set_frames (log_writes (writes f) fs) r))
  end.

(** The run fails: its status becomes [failed], with the error as summary. *)
Definition fail_run (cause : option ErrorKind) (r : Run) : Run :=
  set_status failed
    (set_outcome (partial_failure r) cause (retry_delay r)
       (compensation_log r) r).

(** A step has failed for good. Inside a parallel step that does not stop
    on error the branch ends and the failure is remembered; otherwise the
    run fails. *)
Definition permanent (cause : option ErrorKind) (r : Run) : Run :=
  match frames r with
  | f :: fs =>
      if frame_stop_on_error f then fail_run cause r
      else arrive f fs
             (set_outcome true cause (retry_delay r) (compensation_log r) r)
  | [] => fail_run cause r
  end.

(** An attempt of step [st] has failed: the failure is recorded, then the
    retry policy decides between another attempt, after the computed delay,
    and permanent failure. A rejected approval has no error kind and is not
    retried. *)
Definition step_failed (def : WorkflowDefinition) (inp : Input) (st : Step)
    (cause : option ErrorKind) (may_retry : bool) (r : Run) : Run :=
  let r1 := record_result inp Persistence.failed [] cause r in
  let policy := policy_of def st in
  let again :=
    match cause with
    | Some e => may_retry && Retry.shouldRetry e (attempt r) policy
    | None => false
    end in
  if again
  then set_status running
         (set_position (current r) (S (attempt r))
            (set_outcome (partial_failure r1) (error_summary r1)
               (Some (Retry.nextDelay (attempt r) policy (jitter_draw inp)))
               (compensation_log r1) r1))
  else permanent cause r1.

(** The end step finalizes the run; a failure remembered from a parallel
    branch makes the run fail instead of completing. *)
Definition finish (inp : Input) (r : Run) : Run :=
  let r1 := record_result inp Persistence.completed [] None r in
  if partial_failure r1
  then fail_run (error_summary r1) r1
  else set_status completed (set_times (started_at r1) (Some (now inp)) r1).

(** A parallel step fans out: its first branch starts, the others wait in
    a new frame. *)
Definition fan_out (inp : Input) (children : list string) (join : string)
    (stop_on_error : bool) (r : Run) : Run :=
  let r1 := record_result inp Persistence.completed [] None r in
  match children with
  | [] => enter join r1
  | c :: cs =>
      enter c
        (set_frames
           ({| frame_join := join; pending_branches := cs;
               frame_stop_on_error := stop_on_error; view := store r;
               writes := [] |} :: frames r) r1)
  end.

(** The ready step is the join of the innermost open parallel step. *)
Definition at_join (r : Run) : option (Frame * list Frame) :=
  match frames r with
  | f :: fs =>
      if String.eqb (current r) (frame_join f) then Some (f, fs) else None
  | [] => None
  end.

(** One transition of a running run: a branch that has reached its join
    ends there; otherwise the ready step is executed, by exhaustive match on
    its kind. *)
Definition run_step (def : WorkflowDefinition) (inp : Input) (r : Run) : Run :=
  match at_join r with
  | Some (f, fs) => arrive f fs r
  | None =>
      match find_step def (current r) with
      | None =>
          permanent (Some MappingError)
            (record_result inp Persistence.failed [] (Some MappingError)
               (visit r))
      | Some st =>
          let r1 := visit r in
          match body st with
          | StartStep n => proceed inp [] n r1
          | EndStep => finish inp r1
          | ConnectorStep _ _ n =>
              match connector_result inp with
              | inl outs => proceed inp outs n r1
              | inr (e, flag) => step_failed def inp st (Some e) flag r1
              end
          | TransformStep mapping n =>
              match mapping (store r1) with
              | Some outs => proceed inp outs n r1
              | None => step_failed def inp st (Some MappingError) false r1
              end
          | ConditionStep c =>
              match Condition.execute (store r1) c with
              | Condition.Chosen t marks =>
                  proceed inp [] t (record_skipped inp marks r1)
              | Condition.Fails ConditionError =>
                  step_failed def inp st (Some ConditionError) false r1
              | Condition.Fails e => step_failed def inp st (Some e) true r1
              end
          | DelayStep _ | WebhookStep _ | ApprovalStep _ _ =>
              set_status waiting r1
          | ParallelStep children join stop_on_error =>
              fan_out inp children join stop_on_error r1
          end
      end
  end.

(** Whether a signal is one the suspended step waits for. *)
Definition addresses (b : StepBody) (s : Signal) : bool :=
  match b, s with
  | DelayStep _, timer_fired => true
  | WebhookStep _, webhook_delivered _ => true
  | WebhookStep _, timed_out => true
  | ApprovalStep _ _, decision _ => true
  | ApprovalStep _ _, timed_out => true
  | _, _ => false
  end.

(** One transition of a waiting run: the signal resumes the suspended
    step; a signal the step does not wait for is dropped. *)
Definition resume (def : WorkflowDefinition) (inp : Input) (r : Run) : Run :=
  match find_step def (current r) with
  | None => permanent (Some MappingError) (set_status running r)
  | Some st =>
      match body st, signal inp with
      | DelayStep n, timer_fired => proceed inp [] n r
      | WebhookStep n, webhook_delivered payload => proceed inp payload n r
      | WebhookStep _, timed_out =>
          step_failed def inp st (Some TimeoutError) true r
      | ApprovalStep _ n, decision true => proceed inp [] n r
      | ApprovalStep _ _, decision false => step_failed def inp st None false r
      | ApprovalStep approve n, timed_out =>
          if approve then proceed inp [] n r
          else step_failed def inp st (Some TimeoutError) true r
      | _, _ => r
      end
  end.

(** The compensation walk: the execution path in reverse, each visited step
    that declares a compensation action with the result of that action. *)
Definition compensate_all (def : WorkflowDefinition) (inp : Input) (r : Run)
  : list (string * bool) :=
  flat_map
    (fun i =>
       match find_step def i with
       | Some st =>
           match compensation st with
           | Some _ => [(i, compensation_ok inp i)]
           | None => []
           end
       | None => []
       end)
    (rev (execution_path r)).

(** Modelled from the spec: one transition of the Run State Machine,
    section 4.5. *)
Definition advance (def : WorkflowDefinition) (inp : Input) (r : Run) : Run :=
  if settled def r then r
  else if cancel_requested inp
  then set_status cancelled (set_times (started_at r) (Some (now inp)) r)
  else
    match status r with
    | pending =>
        set_status running
          (set_store (VariableStore.write_all (input_data r) VariableStore.empty)
             (set_times (Some (now inp)) None r))
    | running => run_step def inp r
    | waiting => resume def inp r
    | failed =>
        match failure_policy def with
        | compensate => set_status compensating r
        | _ => set_status dead_lettered r
        end
    | compensating =>
        set_status dead_lettered
          (set_times (started_at r) (Some (now inp))
             (set_outcome (partial_failure r) (error_summary r)
                (retry_delay r) (compensate_all def inp r) r))
    | _ => r
    end.

(** The run after the transitions the inputs drive, oldest first. *)
Definition run_for (def : WorkflowDefinition) (inputs : list Input) (r : Run)
  : Run :=
  fold_left (fun acc inp => advance def inp acc) inputs r.

(** An input advances the run when, the run waiting, its signal is one the
    suspended step waits for. *)
Definition advances (def : WorkflowDefinition) (inp : Input) (r : Run) : bool :=
  match status r with
  | waiting =>
      match find_step def (current r) with
      | Some st => addresses (body st) (signal inp)
      | None => true
      end
  | _ => true
  end.

(** Every suspended step is advanced: each input advances the run it
    meets. *)
Fixpoint driven (def : WorkflowDefinition) (inputs : list Input) (r : Run)
  : bool :=
  match inputs with
  | [] => true
  | inp :: rest => advances def inp r && driven def rest (advance def inp r)
  end.

(** Modelled from the spec: the Simulation Adapter of section 4.7. The mock
    response declared for a step stands in for the result of the connector
    registry; the state machine is the one of live execution. *)
Definition mocked (mock : string -> option (list (string * json))) (r : Run)
    (inp : Input) : Input :=
  match mock (current r) with
  | Some response =>
      {| now := now inp; cancel_requested := cancel_requested inp;
         connector_result := inl response; signal := signal inp;
         jitter_draw := jitter_draw inp;
         compensation_ok := compensation_ok inp |}
  | None => inp
  end.

(** Modelled from the spec: the [mock_data_used] marker of section 4.7, for
    one transition of [r]: the mock response of the connector step about to
    execute, and nothing for a transition that calls no connector. *)
Definition mock_data_used (def : WorkflowDefinition)
    (mock : string -> option (list (string * json))) (r : Run)
  : list (string * list (string * json)) :=
  match status r, at_join r, find_step def (current r) with
  | running, None, Some st =>
      match body st, mock (current r) with
      | ConnectorStep _ _ _, Some response => [(current r, response)]
      | _, _ => []
      end
  | _, _, _ => []
  end.

(** Modelled from the spec: a simulated execution, section 4.7. Its record
    is the run record of the state machine, with the same fields as in live
    execution, together with the marker [mock_data_used] collected on the
    way. *)
Fixpoint simulate (def : WorkflowDefinition)
    (mock : string -> option (list (string * json))) (inputs : list Input)
    (r : Run) : Run * list (string * list (string * json)) :=
  match inputs with
  | [] => (r, [])
  | inp :: rest =>
      let result := simulate def mock rest (advance def (mocked mock r inp) r) in
      (fst result, mock_data_used def mock r ++ snd result)
  end.


(** A mock configuration for [linear]: the response declared for its
    connector step [B]. *)
Definition linear_mock (step : string) : option (list (string * json)) :=
  if String.eqb step "B" then Some [("response", JStr "ok")] else None.

(** The scenarios of the specification. *)
Definition plain_step (i : string) (b : StepBody) : Step :=
  {| id := i; body := b; retry_override := None; compensation := None |}.

(** [A(start) -> B(connector) -> C(end)], at most three attempts. *)
Definition linear : WorkflowDefinition :=
  {| definition_id := "wf-linear"; version := "1";
     steps := [plain_step "A" (StartStep "B");
               plain_step "B" (ConnectorStep "http" "post" "C");
               plain_step "C" EndStep];
     entry := "A";
     default_retry := Retry.example_policy;
     failure_policy := halt |}.

Definition linear_rank (i : string) : nat :=
  if String.eqb i "A" then 2 else if String.eqb i "B" then 1 else 0.

(** [S(start) -> D(delay) -> E(end)] *)
Definition delayed : WorkflowDefinition :=
  {| definition_id := "wf-delay"; version := "1";
     steps := [plain_step "S" (StartStep "D");
               plain_step "D" (DelayStep "E");
               plain_step "E" EndStep];
     entry := "S";
     default_retry := Retry.example_policy;
     failure_policy := halt |}.

(** [S(start) -> P(parallel: X, Y; join J; stop_on_error = false) ->
    J(transform) -> E(end)], where branch [X] is a transform whose mapping
    fails and branch [Y] a connector. *)
Definition forked : WorkflowDefinition :=
  {| definition_id := "wf-parallel"; version := "1";
     steps := [plain_step "S" (StartStep "P");
               plain_step "P" (ParallelStep ["X"; "Y"] "J" false);
               plain_step "X" (TransformStep (fun _ => None) "J");
               plain_step "Y" (ConnectorStep "slack" "send" "J");
               plain_step "J" (TransformStep (fun _ => Some []) "E");
               plain_step "E" EndStep];
     entry := "S";
     default_retry := Retry.example_policy;
     failure_policy := halt |}.

Definition ok_input : Input :=
  {| now := 0; cancel_requested := false;
     connector_result := inl [("response", JStr "ok")];
     signal := timer_fired; jitter_draw := 0;
     compensation_ok := fun _ => true |}.

Definition failing_input : Input :=
  {| now := 0; cancel_requested := false;
     connector_result := inr (ConnectorError, true);
     signal := timer_fired; jitter_draw := 0;
     compensation_ok := fun _ => true |}.

Definition cancel_input : Input :=
  {| now := 0; cancel_requested := true;
     connector_result := inl [];
     signal := timer_fired; jitter_draw := 0;
     compensation_ok := fun _ => true |}.

(** The attempts recorded for a step. *)
Definition attempts_of (step : string) (r : Run) : list nat :=
  map (fun e => Persistence.attempt (snd e))
    (List.filter (fun e => String.eqb (Persistence.step_id (snd e)) step)
       (step_results r)).

(** A driver that advances every suspended step: the timer of a delay
    fires, a webhook is delivered, an approval is granted. *)
Definition advancing_signal (b : StepBody) : Signal :=
  match b with
  | WebhookStep _ => webhook_delivered []
  | ApprovalStep _ _ => decision true
  | _ => timer_fired
  end.

Definition advancing_input (def : WorkflowDefinition) (r : Run) : Input :=
  {| now := 0; cancel_requested := false;
     connector_result := inl [];
     signal := match find_step def (current r) with
               | Some st => advancing_signal (body st)
               | None => timer_fired
               end;
     jitter_draw := 0;
     compensation_ok := fun _ => true |}.

Fixpoint advancing_inputs (def : WorkflowDefinition) (n : nat) (r : Run)
  : list Input :=
  match n with
  | O => []
  | S m =>
      advancing_input def r ::
      advancing_inputs def m (advance def (advancing_input def r) r)
  end.

(** The kinds at which a run suspends. *)
Definition suspends (b : StepBody) : bool :=
  match b with
  | WebhookStep _ | DelayStep _ | ApprovalStep _ _ => true
  | _ => false
  end.

(** A waiting run waits at a step that suspends. *)
Definition waits_at_suspension (def : WorkflowDefinition) (r : Run) : Prop :=
  status r = waiting ->
  exists st, find_step def (current r) = Some st /\ suspends (body st) = true.

(** [S(start) -> B(connector) -> E(end)] with one attempt and the failure
    policy [compensate]; [B] declares a compensation action. *)
Definition compensated : WorkflowDefinition :=
  {| definition_id := "wf-compensate"; version := "1";
     steps := [plain_step "S" (StartStep "B");
               {| id := "B"; body := ConnectorStep "crm" "write" "E";
                  retry_override :=
                    Some {| Retry.max_attempts := 1; Retry.base_delay := 100;
                            Retry.backoff_multiplier := 2;
                            Retry.jitter := false;
                            Retry.retryable := [ConnectorError];
                            Retry.base_delay_nonneg :=
                              Qle_bool_imp_le 0 100 eq_refl;
                            Retry.backoff_multiplier_nonneg :=
                              Qle_bool_imp_le 0 2 eq_refl |};
                  compensation := Some "crm.delete" |};
               plain_step "E" EndStep];
     entry := "S";
     default_retry := Retry.example_policy;
     failure_policy := compensate |}.

End RunStateMachine.

(** *** The progress measure of the Run State Machine

    Bounded retries give every step a budget of transitions; along the
    edges of an acyclic definition these budgets add up to a weight, and
    the weights of the ready step and of the branches still to run bound
    the transitions a run has left. *)
Module Progress.
Import RunStateMachine.

(** The transitions step [st] has left for itself at attempt [a]. *)
Definition local_budget (def : WorkflowDefinition) (st : Step) (a : nat)
    (suspended : bool) : nat :=
  2 * (Retry.max_attempts (policy_of def st) - a) +
  (if suspended then 2 else 3).

(** The weight of a step: its own budget and the weights of its
    successors, followed to the given depth. *)
Fixpoint weight_upto (def : WorkflowDefinition) (depth : nat) (i : string)
  : nat :=
  match depth with
  | O => 0
  | S d =>
      match find_step def i with
      | Some st =>
          local_budget def st 1 false +
          sum_list_with (weight_upto def d) (successors (body st))
      | None => 1
      end
  end.

Definition weight (def : WorkflowDefinition) (rank : string -> nat)
    (i : string) : nat :=
  weight_upto def (S (rank i)) i.

(** The weight left of the step the run is at. *)
Definition token (def : WorkflowDefinition) (rank : string -> nat)
    (i : string) (a : nat) (suspended : bool) : nat :=
  match find_step def i with
  | Some st =>
      local_budget def st a suspended +
      sum_list_with (weight def rank) (successors (body st))
  | None => 1
  end.

Definition frame_measure (def : WorkflowDefinition) (rank : string -> nat)
    (f : Frame) : nat :=
  1 + weight def rank (frame_join f) +
  sum_list_with (weight def rank) (pending_branches f).

Definition measure_at (def : WorkflowDefinition) (rank : string -> nat)
    (st : RunStatus) (i : string) (a : nat) (fs : list Frame) : nat :=
  match st with
  | pending =>
      token def rank i a false + sum_list_with (frame_measure def rank) fs + 4
  | running =>
      token def rank i a false + sum_list_with (frame_measure def rank) fs + 3
  | waiting =>
      token def rank i a true + sum_list_with (frame_measure def rank) fs + 3
  | failed =>
      match failure_policy def with halt => 0 | _ => 2 end
  | compensating => 1
  | completed | cancelled | dead_lettered => 0
  end.

(** A bound on the transitions the run has left. *)
Definition measure (def : WorkflowDefinition) (rank : string -> nat)
    (r : Run) : nat :=
  measure_at def rank (status r) (current r) (attempt r) (frames r).

(** The transitions within which a triggered run is over. *)
Definition transition_bound (def : WorkflowDefinition) (rank : string -> nat)
  : nat :=
  measure def rank (triggerRun def "" []).

End Progress.

(** * Properties *)

(** ** Generic facts about property reads *)

Lemma field_filter_keep {A : Type} (P : string * A -> bool) k
    (fs : list (string * A)) :
  (forall v, P (k, v) = true) ->
  field k (List.filter P fs) = field k fs.
Proof.
  intros HP. induction fs as [|[k' v] fs IH]; simpl; [reflexivity|].
  destruct (String.eqb k k') eqn:E.
  - apply String.eqb_eq in E. subst k'. rewrite HP. simpl.
    rewrite String.eqb_refl. reflexivity.
  - destruct (P (k', v)); simpl; [rewrite E|]; exact IH.
Qed.

(** ** The SDK's run status (C1) *)

Lemma RunStatus_literal_inv (r : Sdk.RunStatus) :
  Sdk.RunStatus_of_literal (Sdk.RunStatus_literal r) = Some r.
Proof. destruct r; reflexivity. Qed.

Lemma RunStatus_of_literal_sound s r :
  Sdk.RunStatus_of_literal s = Some r -> Sdk.RunStatus_literal r = s.
Proof.
  unfold Sdk.RunStatus_of_literal.
  repeat match goal with
  | |- context [String.eqb s ?lit] =>
      destruct (String.eqb_spec s lit) as [->|_]; [intros [= <-]; reflexivity|]
  end.
  discriminate.
Qed.

Lemma RunStatus_literal_values (r : Sdk.RunStatus) :
  Sdk.RunStatus_literal r ∈ Sdk.WorkflowRunSchema_status_values.
Proof. destruct r; unfold Sdk.WorkflowRunSchema_status_values; set_solver. Qed.

Lemma run_document_accepted s :
  is_Some (Sdk.WorkflowRunSchema (Sdk.run_document s)) <->
  s ∈ Sdk.WorkflowRunSchema_status_values.
Proof.
  unfold Sdk.WorkflowRunSchema, Sdk.run_document. simpl.
  case_bool_decide as Hin; simpl.
  - split; [intros _; exact Hin|intros _].
    assert (exists r, Sdk.RunStatus_of_literal s = Some r) as [r ->].
    { unfold Sdk.WorkflowRunSchema_status_values in Hin.
      repeat (apply elem_of_cons in Hin as [->|Hin]; [eexists; reflexivity|]).
      inversion Hin. }
    simpl. eauto.
  - split; [intros [? [=]]|intros H; contradiction].
Qed.

Lemma WorkflowRunSchema_status doc run :
  Sdk.WorkflowRunSchema doc = Some run ->
  exists fs, doc = JObj fs /\
    field "status" fs = Some (JStr (Sdk.RunStatus_literal (Sdk.status run))).
Proof.
  destruct doc as [| | | |?|fs]; simpl; try discriminate.
  intros H. exists fs. split; [reflexivity|].
  destruct (Sdk.z_string (field "id" fs)); simpl in H; [|discriminate].
  destruct (Sdk.z_string (field "workflow_id" fs)); simpl in H; [|discriminate].
  destruct (Sdk.z_string (field "version" fs)); simpl in H; [|discriminate].
  destruct (Sdk.z_enum _ (field "status" fs)) as [st|] eqn:Hst;
    simpl in H; [|discriminate].
  destruct (Sdk.RunStatus_of_literal st) as [r|] eqn:Hr; simpl in H; [|discriminate].
  destruct (Sdk.z_record_any (field "input_data" fs)); simpl in H; [|discriminate].
  destruct (Sdk.z_optional _ (field "output_data" fs)); simpl in H; [|discriminate].
  destruct (Sdk.z_string (field "started_at" fs)); simpl in H; [|discriminate].
  destruct (Sdk.z_optional _ (field "completed_at" fs)); simpl in H; [|discriminate].
  destruct (Sdk.z_optional _ (field "error_message" fs)); simpl in H; [|discriminate].
  injection H as <-. simpl.
  apply RunStatus_of_literal_sound in Hr. subst st.
  unfold Sdk.z_enum in Hst.
  destruct (field "status" fs) as [[| | |lit| |]|]; try discriminate.
  case_bool_decide; [|discriminate]. injection Hst as ->. reflexivity.
Qed.

(** C1, as stated, fails: [waiting] is one of the eight statuses of the
    specification, yet no [RunStatus] value carries it and the run schema
    throws on a run document whose status is [waiting]. *)
Lemma run_status_waiting_rejected :
  "waiting" ∈ Sdk.spec_run_statuses /\
  (forall r, Sdk.RunStatus_literal r <> "waiting") /\
  Sdk.WorkflowRunSchema (Sdk.run_document "waiting") = None.
Proof.
  split; [unfold Sdk.spec_run_statuses; set_solver|].
  split; [intros r; destruct r; discriminate|reflexivity].
Qed.

(** C1, amended: the status of every run the SDK exposes is one of exactly
    the five values pending, running, completed, failed, cancelled. The
    type [RunStatus] has these five literals and no other, the run schema
    accepts a run document exactly when its status is one of them, the
    status of a parsed run is the literal of the document, and the three
    further statuses of the specification (waiting, compensating,
    dead_lettered) are rejected. *)
Theorem run_status_five_values :
  (forall s, (exists r, Sdk.RunStatus_literal r = s) <->
             s ∈ ["pending"; "running"; "completed"; "failed"; "cancelled"]) /\
  (forall s, is_Some (Sdk.WorkflowRunSchema (Sdk.run_document s)) <->
             s ∈ ["pending"; "running"; "completed"; "failed"; "cancelled"]) /\
  (forall doc,
     match Sdk.WorkflowRunSchema doc with
     | Some run =>
         exists fs, doc = JObj fs /\
           field "status" fs = Some (JStr (Sdk.RunStatus_literal (Sdk.status run))) /\
           Sdk.RunStatus_literal (Sdk.status run)
             ∈ ["pending"; "running"; "completed"; "failed"; "cancelled"]
     | None => True
     end) /\
  (forall s, s ∈ Sdk.spec_run_statuses ->
     s ∈ ["waiting"; "compensating"; "dead_lettered"] <->
     Sdk.WorkflowRunSchema (Sdk.run_document s) = None).
Proof.
  split; [|split; [|split]].
  - intros s. split.
    + intros [r <-]. apply RunStatus_literal_values.
    + intros H.
      repeat (apply elem_of_cons in H as [->|H]);
        [exists Sdk.pending|exists Sdk.running|exists Sdk.completed
        |exists Sdk.failed|exists Sdk.cancelled|inversion H]; reflexivity.
  - exact run_document_accepted.
  - intros doc. destruct (Sdk.WorkflowRunSchema doc) as [run|] eqn:H; [|exact I].
    destruct (WorkflowRunSchema_status _ _ H) as (fs & -> & Hf).
    exists fs. repeat split; [exact Hf|apply RunStatus_literal_values].
  - intros s Hs. unfold Sdk.spec_run_statuses in Hs.
    repeat (apply elem_of_cons in Hs as [->|Hs]); try (inversion Hs; fail);
      (split; [intros H; try reflexivity;
               repeat (apply elem_of_cons in H as [H|H]; [discriminate H|]);
               inversion H
              |intros H; try discriminate H; set_solver]).
Qed.

Lemma run_status_five_values_witness :
  "waiting" ∈ ["waiting"; "compensating"; "dead_lettered"] <->
  Sdk.WorkflowRunSchema (Sdk.run_document "waiting") = None.
Proof.
  apply (proj2 (proj2 (proj2 run_status_five_values)) "waiting").
  unfold Sdk.spec_run_statuses. apply list_elem_of_In. simpl. tauto.
Defined.


(** ** The step kinds of the flow builder (C8) *)

(** C8, as stated, fails: [parallel] is one of the nine kinds of the
    specification and is not a key of [nodeTypes]; the kind [parallel] has
    no case in the dispatch tables, and the icon lookup of CustomNode.tsx
    answers it with the fallback icon rather than refusing it. *)
Lemma step_kinds_not_closed :
  "parallel" ∈ Nodes.spec_step_kinds /\
  ("parallel" ∉ keys Nodes.nodeTypes) /\
  Nodes.has_case "parallel" = false /\
  Nodes.CustomNode_icon "parallel" = Nodes.Found Nodes.Settings /\
  ~ Nodes.spec_closed_dispatch (keys Nodes.nodeTypes) Nodes.has_case.
Proof.
  assert (Hin : "parallel" ∈ Nodes.spec_step_kinds).
  { apply list_elem_of_In. simpl. tauto. }
  assert (Hout : "parallel" ∉ keys Nodes.nodeTypes).
  { intros H. apply list_elem_of_In in H. simpl in H.
    repeat (destruct H as [H|H]; [discriminate H|]). exact H. }
  repeat split; try assumption.
  intros (Hreg & _ & _). apply Hout, Hreg, Hin.
Qed.

Lemma has_case_registered k :
  Nodes.has_case k = true <-> k ∈ keys Nodes.nodeTypes.
Proof.
  unfold Nodes.has_case. rewrite andb_true_iff, !bool_decide_eq_true.
  rewrite !list_elem_of_In. simpl. tauto.
Qed.

Lemma field_None_not_key {A : Type} k (fs : list (string * A)) :
  k ∉ keys fs -> field k fs = None.
Proof.
  induction fs as [|[k' v] fs IH]; simpl; [reflexivity|].
  intros H. destruct (String.eqb_spec k k') as [->|_].
  - exfalso. apply H. left.
  - apply IH. intros Hin. apply H. right. exact Hin.
Qed.

(** C8, amended: the node kinds the flow builder registers ([nodeTypes]) and
    offers in its palette ([nodeCategories]) are exactly the seven kinds
    start, webhook, connector, transform, condition, delay, end; the icon
    and colour tables have a case of their own for each of these seven and
    for no other kind. No kind is refused by the lookups in these tables: a
    kind outside the seven is answered with the fallback icon [Settings] and
    the fallback colour [bg-gray-500], unless it is a name every object
    inherits from [Object.prototype] ([constructor], [toString], ...), for
    which the lookup yields the inherited value and the fallback is not
    reached. The SDK's [StepType] is the separate set trigger, action,
    branch, loop, parallel, approval, delay, http, datamap. *)
Theorem step_kinds_seven_with_fallback :
  (forall k, k ∈ keys Nodes.nodeTypes <->
     k ∈ ["start"; "webhook"; "connector"; "transform"; "condition"; "delay";
          "end"]) /\
  Nodes.palette_types ≡ₚ keys Nodes.nodeTypes /\
  NoDup (keys Nodes.nodeTypes) /\
  (forall k, Nodes.has_case k = true <-> k ∈ keys Nodes.nodeTypes) /\
  (forall k, if Nodes.has_case k then True
             else if bool_decide (k ∈ Nodes.Object_prototype_names)
             then Nodes.CustomNode_icon k = Nodes.Inherited k /\
                  Nodes.CustomNode_colorClass k = Nodes.Inherited k /\
                  Nodes.getNodeTypeColor k = Nodes.Inherited k
             else Nodes.CustomNode_icon k = Nodes.Found Nodes.Settings /\
                  Nodes.CustomNode_colorClass k = Nodes.Found "bg-gray-500" /\
                  Nodes.getNodeTypeColor k = Nodes.Found "bg-gray-500") /\
  (forall t : Sdk.StepType, t ∈ Sdk.StepType_all) /\
  map Sdk.StepType_literal Sdk.StepType_all =
    ["trigger"; "action"; "branch"; "loop"; "parallel"; "approval"; "delay";
     "http"; "datamap"].
Proof.
  split; [|split; [|split; [|split; [|split; [|split]]]]].
  - intros k. rewrite !list_elem_of_In. simpl. tauto.
  - apply (bool_decide_unpack _). vm_compute. reflexivity.
  - apply (bool_decide_unpack _). vm_compute. reflexivity.
  - exact has_case_registered.
  - intros k. destruct (Nodes.has_case k) eqn:E; [exact I|].
    assert (Hk : k ∉ keys Nodes.iconMap).
    { intros Hin. apply not_true_iff_false in E. apply E.
      apply has_case_registered.
      apply list_elem_of_In in Hin. apply list_elem_of_In.
      simpl in *. tauto. }
    assert (Hc : k ∉ keys Nodes.colorMap) by exact Hk.
    unfold Nodes.CustomNode_icon, Nodes.CustomNode_colorClass,
      Nodes.getNodeTypeColor, Nodes.get_or, Nodes.get.
    rewrite (field_None_not_key _ _ Hk), (field_None_not_key _ _ Hc).
    destruct (bool_decide (k ∈ Nodes.Object_prototype_names));
      repeat split.
  - intros t. apply list_elem_of_In. destruct t; simpl; tauto.
  - reflexivity.
Qed.

(** [constructor] is no node kind, and yet the lookups do not fall back for
    it: the tables inherit a property of that name. *)
Example lookup_of_an_inherited_name :
  Nodes.has_case "constructor" = false /\
  Nodes.CustomNode_icon "constructor" = Nodes.Inherited "constructor" /\
  Nodes.getNodeTypeColor "toString" = Nodes.Inherited "toString".
Proof. repeat split. Qed.

(** ** Test expectations (C9) *)

Lemma check_outputs_true entries vars :
  Testing.check_outputs entries vars = Testing.Return true <->
  Forall (fun kv => exists o, vars = Some o /\
            Testing.strict_equals (Testing.read o (fst kv)) (snd kv) = true)
         entries.
Proof.
  induction entries as [|[key expected] rest IH]; simpl.
  - split; [intros _; constructor|reflexivity].
  - destruct vars as [o|].
    + destruct (Testing.strict_equals (Testing.read o key) expected) eqn:E; simpl.
      * rewrite IH. split.
        -- intros H. constructor; [exists o; auto|exact H].
        -- intros H. inversion H; assumption.
      * split; [discriminate|].
        intros H. inversion H as [|? ? (o' & [= <-] & Ho) _]; subst.
        simpl in Ho. congruence.
    + split; [discriminate|].
      intros H. inversion H as [|? ? (o' & Hn & _) _]. discriminate Hn.
Qed.

Lemma check_outputs_listed entries (P : string * Testing.value -> bool) o :
  (forall k v, k ∈ keys entries -> P (k, v) = true) ->
  Testing.check_outputs entries (Some (List.filter P o)) =
  Testing.check_outputs entries (Some o).
Proof.
  induction entries as [|[key expected] rest IH]; simpl; intros HP;
    [reflexivity|].
  unfold Testing.read.
  rewrite field_filter_keep by (intros v; apply HP; left).
  rewrite IH; [reflexivity|].
  intros k v Hk. apply HP. right. exact Hk.
Qed.

Lemma strict_equals_object r1 r2 :
  Testing.strict_equals (Testing.VObject r1) (Testing.VObject r2) = true <->
  r1 = r2.
Proof. simpl. apply Nat.eqb_eq. Qed.

(** The sample: structurally equal objects at two addresses fail the test. *)
Example validate_nested_by_reference :
  Testing.deep_equal Testing.sample_heap 3
    (Testing.VObject 1) (Testing.VObject 2) = true /\
  Testing.validateTestResult Testing.sample_case Testing.sample_result =
    Testing.Return false.
Proof. split; vm_compute; reflexivity. Qed.

(** C9: [validateTestResult] returns true exactly when the expected status
    is strictly equal to the result's status and, for every entry of
    [expected_outputs], the result's variable of that name is strictly equal
    to the expected value. The match is a shallow subset match: dropping
    every variable the test case does not list leaves the verdict unchanged,
    and two object values are equal exactly when they are the same
    reference, whatever the heap holds at them. *)
Theorem validateTestResult_shallow_subset_match :
  (forall tc r,
     Testing.validateTestResult tc r = Testing.Return true <->
     Testing.strict_equals
       (Testing.VString (Testing.ExpectedStatus_literal (Testing.expected_status tc)))
       (Testing.status r) = true /\
     Forall (fun kv => exists o, Testing.variables r = Some o /\
               Testing.strict_equals (Testing.read o (fst kv)) (snd kv) = true)
            (Testing.expected_outputs tc)) /\
  (forall tc r,
     Testing.validateTestResult tc (Testing.listed_only tc r) =
     Testing.validateTestResult tc r) /\
  (forall r1 r2,
     Testing.strict_equals (Testing.VObject r1) (Testing.VObject r2) = true <->
     r1 = r2).
Proof.
  split; [|split].
  - intros tc r. unfold Testing.validateTestResult.
    destruct (Testing.strict_equals _ (Testing.status r)); simpl.
    + rewrite check_outputs_true. tauto.
    + split; [discriminate|intros [H _]; discriminate H].
  - intros tc r. unfold Testing.validateTestResult, Testing.listed_only. simpl.
    destruct (negb _); [reflexivity|].
    destruct (Testing.variables r) as [o|]; simpl; [|reflexivity].
    apply (check_outputs_listed _ (fun kv => bool_decide
             (fst kv ∈ keys (Testing.expected_outputs tc)))).
    intros k v Hk. apply bool_decide_eq_true. exact Hk.
  - exact strict_equals_object.
Qed.

(** ** The execution flags of the flow store (C10) *)

Lemma dispatch_executing_consistent a s :
  FlowStore.executing_consistent s ->
  FlowStore.executing_consistent (FlowStore.dispatch a s).
Proof.
  unfold FlowStore.executing_consistent.
  destruct a; simpl; try (intros H; exact H); intros _.
  - split; [discriminate|reflexivity].
  - split; [discriminate|intros H; contradiction].
Qed.

Lemma dispatch_other_fields a s :
  FlowStore.touches_execution a = false ->
  FlowStore.isExecuting (FlowStore.dispatch a s) = FlowStore.isExecuting s /\
  FlowStore.executionId (FlowStore.dispatch a s) = FlowStore.executionId s.
Proof. destruct a; simpl; try discriminate; intros _; split; reflexivity. Qed.

(** Every state a session reaches from the initial one is consistent. *)
Lemma run_executing_consistent acts s :
  FlowStore.executing_consistent s ->
  FlowStore.executing_consistent (FlowStore.run acts s).
Proof.
  revert s. induction acts as [|a acts IH]; intros s H; simpl; [exact H|].
  apply IH, dispatch_executing_consistent, H.
Qed.

(** C10: [isExecuting] is true exactly when [executionId] is not null in the
    initial state of the flow store, and every operation preserves this:
    [startExecution] sets [isExecuting] to true and [executionId] to its
    argument together, [stopExecution] resets them to false and null
    together, and no other operation changes either field. *)
Theorem flow_store_execution_invariant :
  FlowStore.executing_consistent FlowStore.initial /\
  (forall a s, FlowStore.executing_consistent s ->
               FlowStore.executing_consistent (FlowStore.dispatch a s)) /\
  (forall acts,
     FlowStore.executing_consistent (FlowStore.run acts FlowStore.initial)) /\
  (forall execId s,
     FlowStore.isExecuting (FlowStore.startExecution execId s) = true /\
     FlowStore.executionId (FlowStore.startExecution execId s) = Some execId) /\
  (forall s,
     FlowStore.isExecuting (FlowStore.stopExecution s) = false /\
     FlowStore.executionId (FlowStore.stopExecution s) = None) /\
  (forall a s, FlowStore.touches_execution a = false ->
     FlowStore.isExecuting (FlowStore.dispatch a s) = FlowStore.isExecuting s /\
     FlowStore.executionId (FlowStore.dispatch a s) = FlowStore.executionId s).
Proof.
  assert (H0 : FlowStore.executing_consistent FlowStore.initial).
  { split; [discriminate|intros H; contradiction]. }
  split; [exact H0|].
  split; [exact dispatch_executing_consistent|].
  split; [intros acts; apply run_executing_consistent, H0|].
  split; [intros; split; reflexivity|].
  split; [intros; split; reflexivity|].
  exact dispatch_other_fields.
Qed.

Lemma flow_store_execution_invariant_witness :
  FlowStore.executing_consistent
    (FlowStore.dispatch (FlowStore.StartExecution "exec-1") FlowStore.initial) /\
  FlowStore.isExecuting
    (FlowStore.dispatch FlowStore.ToggleSidebar
       (FlowStore.startExecution "exec-1" FlowStore.initial)) = true.
Proof.
  destruct flow_store_execution_invariant as (H0 & Hstep & _ & _ & _ & Hother).
  split.
  - apply Hstep. exact H0.
  - rewrite (proj1 (Hother FlowStore.ToggleSidebar _ eq_refl)). reflexivity.
Defined.

(** ** Variable Store (C7) *)

Lemma field_is_Some_key {A : Type} k (fs : list (string * A)) :
  is_Some (field k fs) <-> k ∈ keys fs.
Proof.
  induction fs as [|[k' v] fs IH]; simpl.
  - split; [intros [? [=]]|intros H; inversion H].
  - destruct (String.eqb_spec k k') as [->|Hne].
    + split; [intros _; left|eauto].
    + rewrite IH. split; [intros H; right; exact H|].
      intros H. apply elem_of_cons in H as [H|H]; [contradiction|exact H].
Qed.

Lemma field_set_eq name v s :
  field name (VariableStore.set name v s) = Some v.
Proof.
  induction s as [|[k w] s IH]; simpl.
  - rewrite String.eqb_refl. reflexivity.
  - destruct (String.eqb_spec name k) as [->|Hne]; simpl.
    + rewrite String.eqb_refl. reflexivity.
    + destruct (String.eqb_spec name k); [contradiction|exact IH].
Qed.

Lemma field_set_ne name name' v s :
  name <> name' ->
  field name' (VariableStore.set name v s) = field name' s.
Proof.
  intros Hne. induction s as [|[k w] s IH]; simpl.
  - destruct (String.eqb_spec name' name); [congruence|reflexivity].
  - destruct (String.eqb_spec name k) as [->|Hk]; simpl.
    + destruct (String.eqb_spec name' k); [congruence|reflexivity].
    + destruct (String.eqb_spec name' k); [reflexivity|exact IH].
Qed.

Lemma keys_set name v s :
  keys (VariableStore.set name v s) =
  if bool_decide (name ∈ keys s) then keys s else keys s ++ [name].
Proof.
  unfold keys. induction s as [|[k w] s IH]; simpl.
  - reflexivity.
  - destruct (String.eqb_spec name k) as [->|Hk]; simpl.
    + rewrite bool_decide_eq_true_2 by left. reflexivity.
    + rewrite IH.
      destruct (bool_decide (name ∈ map fst s)) eqn:E.
      * apply bool_decide_eq_true in E.
        rewrite bool_decide_eq_true_2 by (right; exact E). reflexivity.
      * apply bool_decide_eq_false in E.
        rewrite bool_decide_eq_false_2; [reflexivity|].
        intros H. apply elem_of_cons in H as [H|H]; [congruence|contradiction].
Qed.

Lemma NoDup_keys_set name v s :
  NoDup (keys s) -> NoDup (keys (VariableStore.set name v s)).
Proof.
  intros H. rewrite keys_set. case_bool_decide as Hin; [exact H|].
  apply NoDup_app. split; [exact H|]. split.
  - intros x Hx Hx'. apply list_elem_of_singleton in Hx'. subst x. contradiction.
  - apply NoDup_singleton.
Qed.

Lemma NoDup_keys_write_all outputs s :
  NoDup (keys s) -> NoDup (keys (VariableStore.write_all outputs s)).
Proof.
  unfold VariableStore.write_all. revert s.
  induction outputs as [|[k v] outputs IH]; intros s H; simpl; [exact H|].
  apply IH, NoDup_keys_set, H.
Qed.

(** C7: a read returns the stored value of a declared variable and fails
    with [NotFoundError] exactly when the variable is undeclared (a variable
    holding null is returned as null, not as an error); a write is
    append-or-overwrite: it is read back, leaves the other variables as they
    were, overwrites a declared name in place and appends an undeclared one,
    so a store with unique names keeps them unique, from the empty store
    on. *)
Theorem variable_store_get_set :
  (forall s name,
     VariableStore.get name s = inr (VariableStore.NotFoundError name) <->
     name ∉ keys s) /\
  (forall s name, name ∈ keys s ->
     exists v, VariableStore.get name s = inl v /\ (name, v) ∈ s) /\
  (forall s name v,
     VariableStore.get name (VariableStore.set name v s) = inl v) /\
  (forall s name name' v, name <> name' ->
     VariableStore.get name' (VariableStore.set name v s) =
     VariableStore.get name' s) /\
  (forall s name v,
     keys (VariableStore.set name v s) =
     if bool_decide (name ∈ keys s) then keys s else keys s ++ [name]) /\
  NoDup (keys VariableStore.empty) /\
  (forall s name v, NoDup (keys s) ->
     NoDup (keys (VariableStore.set name v s))).
Proof.
  split; [|split; [|split; [|split; [|split; [|split]]]]].
  - intros s name. unfold VariableStore.get.
    rewrite <- field_is_Some_key.
    destruct (field name s) as [v|].
    + split; [discriminate|]. intros H. exfalso. apply H. eauto.
    + split; [intros _ [? [=]]|reflexivity].
  - intros s name Hin. apply field_is_Some_key in Hin as [v Hv].
    exists v. unfold VariableStore.get. rewrite Hv. split; [reflexivity|].
    clear -Hv. induction s as [|[k w] s IH]; simpl in Hv; [discriminate|].
    destruct (String.eqb_spec name k) as [->|_].
    + injection Hv as ->. left.
    + right. apply IH, Hv.
  - intros s name v. unfold VariableStore.get. rewrite field_set_eq. reflexivity.
  - intros s name name' v Hne. unfold VariableStore.get.
    rewrite field_set_ne by exact Hne. reflexivity.
  - intros s name v. apply keys_set.
  - constructor.
  - intros s name v. apply NoDup_keys_set.
Qed.

Lemma variable_store_get_set_witness :
  (exists v, VariableStore.get "email"
               (VariableStore.set "email" JNull VariableStore.empty) = inl v /\
             ("email", v) ∈ VariableStore.set "email" JNull VariableStore.empty) /\
  VariableStore.get "user_id"
    (VariableStore.set "email" JNull VariableStore.empty) =
  VariableStore.get "user_id" VariableStore.empty /\
  NoDup (keys (VariableStore.set "email" (JStr "a@b.c")
                 (VariableStore.set "email" JNull VariableStore.empty))).
Proof.
  destruct variable_store_get_set as (_ & Hget & _ & Hother & _ & H0 & Huniq).
  split; [|split].
  - apply Hget. apply list_elem_of_In. simpl. tauto.
  - apply Hother. discriminate.
  - apply Huniq, Huniq, H0.
Defined.

(** ** Retry delays (C4) *)

Lemma backoff_closed_form policy (n : nat) :
  (1 <= n)%nat ->
  (Retry.backoff n policy ==
   Retry.base_delay policy *
   Retry.backoff_multiplier policy ^ (Z.of_nat n - 1))%Q.
Proof.
  intros Hn. unfold Retry.backoff.
  replace (Z.of_nat (n - 1)) with (Z.of_nat n - 1)%Z by lia. reflexivity.
Qed.

Lemma backoff_nonneg policy (n : nat) : (0 <= Retry.backoff n policy)%Q.
Proof.
  unfold Retry.backoff. apply Qmult_le_0_compat.
  - apply Retry.base_delay_nonneg.
  - apply Qpower_0_le, Retry.backoff_multiplier_nonneg.
Qed.

Lemma jitter_term_bounds (u d : Q) :
  (0 <= u)%Q -> (u <= 1)%Q -> (0 <= d)%Q -> (0 <= u * d)%Q /\ (u * d <= d)%Q.
Proof.
  intros Hu0 Hu1 Hd. split.
  - apply Qmult_le_0_compat; assumption.
  - apply Qle_trans with (1 * d)%Q.
    + apply Qmult_le_compat_r; assumption.
    + rewrite Qmult_1_l. apply Qle_refl.
Qed.

(** C4: for every retry policy and attempt [n >= 1], the delay without
    jitter is [base * multiplier^(n-1)]; with jitter it is that delay plus a
    term in [[0, delay]], the share [u] in [[0, 1]] of the delay that is
    drawn, hence within [[delay, 2 * delay]]; with [base = 100],
    [multiplier = 2] the delays of attempts 1, 2, 3 without jitter are 100,
    200, 400. *)
Theorem nextDelay_exponential_backoff :
  (forall policy (n : nat) u, (1 <= n)%nat -> Retry.jitter policy = false ->
     (Retry.nextDelay n policy u ==
      Retry.base_delay policy *
      Retry.backoff_multiplier policy ^ (Z.of_nat n - 1))%Q) /\
  (forall policy (n : nat) u, (1 <= n)%nat -> Retry.jitter policy = true ->
     (0 <= u)%Q -> (u <= 1)%Q ->
     let delay := (Retry.base_delay policy *
                   Retry.backoff_multiplier policy ^ (Z.of_nat n - 1))%Q in
     (0 <= Retry.nextDelay n policy u - delay)%Q /\
     (Retry.nextDelay n policy u - delay <= delay)%Q /\
     (delay <= Retry.nextDelay n policy u)%Q /\
     (Retry.nextDelay n policy u <= 2 * delay)%Q) /\
  (forall u,
     (Retry.nextDelay 1 Retry.example_policy u == 100)%Q /\
     (Retry.nextDelay 2 Retry.example_policy u == 200)%Q /\
     (Retry.nextDelay 3 Retry.example_policy u == 400)%Q).
Proof.
  split; [|split].
  - intros policy n u Hn Hj. unfold Retry.nextDelay. rewrite Hj.
    apply backoff_closed_form, Hn.
  - intros policy n u Hn Hj Hu0 Hu1 delay.
    assert (Hd : (Retry.backoff n policy == delay)%Q)
      by apply backoff_closed_form, Hn.
    assert (Hd0 : (0 <= delay)%Q) by (rewrite <- Hd; apply backoff_nonneg).
    destruct (jitter_term_bounds u delay Hu0 Hu1 Hd0) as [Ht0 Ht1].
    assert (Hnd : (Retry.nextDelay n policy u == delay + u * delay)%Q).
    { unfold Retry.nextDelay. rewrite Hj. cbv zeta. rewrite Hd. reflexivity. }
    rewrite Hnd. repeat split; lra.
  - intros u. repeat split; reflexivity.
Qed.

Lemma nextDelay_exponential_backoff_witness :
  (Retry.nextDelay 3 Retry.example_policy (1 # 2) == 100 * 2 ^ (3 - 1))%Q /\
  (100 * 2 ^ (3 - 1) <=
   Retry.nextDelay 3 (Retry.with_jitter Retry.example_policy) (1 # 2))%Q /\
  (Retry.nextDelay 3 (Retry.with_jitter Retry.example_policy) (1 # 2) <=
   2 * (100 * 2 ^ (3 - 1)))%Q.
Proof.
  destruct nextDelay_exponential_backoff as (Hplain & Hjit & _).
  split; [|split].
  - apply (Hplain Retry.example_policy 3%nat (1 # 2)); [lia|reflexivity].
  - apply (Hjit (Retry.with_jitter Retry.example_policy) 3%nat (1 # 2));
      [lia|reflexivity|vm_compute; discriminate|vm_compute; discriminate].
  - apply (Hjit (Retry.with_jitter Retry.example_policy) 3%nat (1 # 2));
      [lia|reflexivity|vm_compute; discriminate|vm_compute; discriminate].
Defined.

(** ** The condition executor (C5) *)

Lemma first_match_found s bs before m after :
  Condition.first_match s bs = Some (inl (before, m, after)) ->
  bs = before ++ m :: after /\
  Forall (Condition.rejects s) before /\ Condition.matches s m.
Proof.
  revert before. induction bs as [|b bs IH]; intros before; simpl;
    [discriminate|].
  destruct (Condition.test b s) as [[|]|] eqn:Hb; [| |discriminate].
  - intros [= <- <- <-]. repeat split; [constructor|exact Hb].
  - destruct (Condition.first_match s bs) as [[[[before' m'] after']|[]]|];
      [|discriminate|discriminate].
    intros [= <- <- <-]. destruct (IH before' eq_refl) as (-> & Hrej & Hm).
    repeat split; [constructor; [exact Hb|exact Hrej]|exact Hm].
Qed.











(** ** Persistence of step results (C6) *)

Lemma appendStepResult_key_stored runId r db :
  Persistence.key (runId, r)
    ∈ map Persistence.key (Persistence.appendStepResult runId r db).
Proof.
  unfold Persistence.appendStepResult. case_bool_decide as Hin; [exact Hin|].
  rewrite map_app. apply elem_of_app. right. left.
Qed.

Lemma appendStepResult_same_key runId r r' db :
  Persistence.step_id r' = Persistence.step_id r ->
  Persistence.attempt r' = Persistence.attempt r ->
  Persistence.appendStepResult runId r'
    (Persistence.appendStepResult runId r db) =
  Persistence.appendStepResult runId r db.
Proof.
  intros Hs Ha.
  assert (Hk : Persistence.key (runId, r') = Persistence.key (runId, r)).
  { unfold Persistence.key. simpl. rewrite Hs, Ha. reflexivity. }
  unfold Persistence.appendStepResult at 1. rewrite Hk.
  rewrite bool_decide_eq_true_2 by apply appendStepResult_key_stored.
  reflexivity.
Qed.

Lemma appendStepResult_NoDup runId r db :
  NoDup (map Persistence.key db) ->
  NoDup (map Persistence.key (Persistence.appendStepResult runId r db)).
Proof.
  intros H. unfold Persistence.appendStepResult.
  case_bool_decide as Hin; [exact H|].
  rewrite map_app. apply NoDup_app. split; [exact H|]. split.
  - intros k Hk Hk'. apply list_elem_of_singleton in Hk'. subst k. contradiction.
  - apply NoDup_singleton.
Qed.

Lemma stored_under_absent k db :
  k ∉ map Persistence.key db -> Persistence.stored_under k db = [].
Proof.
  unfold Persistence.stored_under.
  induction db as [|e db IH]; simpl; intros H; [reflexivity|].
  rewrite bool_decide_eq_false_2 by (intros He; apply H; rewrite He; left).
  apply IH. intros Hin. apply H. right. exact Hin.
Qed.

Lemma stored_under_unique k db :
  NoDup (map Persistence.key db) -> k ∈ map Persistence.key db ->
  length (Persistence.stored_under k db) = 1%nat.
Proof.
  unfold Persistence.stored_under.
  induction db as [|e db IH]; simpl; intros Hnd Hin; [inversion Hin|].
  apply NoDup_cons in Hnd as [Hfresh Hnd].
  case_bool_decide as He; simpl.
  - subst k. fold (Persistence.stored_under (Persistence.key e) db).
    rewrite stored_under_absent by exact Hfresh. reflexivity.
  - apply IH; [exact Hnd|].
    apply elem_of_cons in Hin as [Hin|Hin]; [congruence|exact Hin].
Qed.

(** C6: [appendStepResult] is idempotent on the key (run id, step id,
    attempt): a second call with the same key, with the same or another
    payload, leaves the stored step results as the first call left them,
    the keys of the store stay unique, and exactly one step result is stored
    under the key. *)
Theorem appendStepResult_idempotent :
  (forall db runId r,
     Persistence.appendStepResult runId r
       (Persistence.appendStepResult runId r db) =
     Persistence.appendStepResult runId r db) /\
  (forall db runId r r',
     Persistence.step_id r' = Persistence.step_id r ->
     Persistence.attempt r' = Persistence.attempt r ->
     Persistence.appendStepResult runId r'
       (Persistence.appendStepResult runId r db) =
     Persistence.appendStepResult runId r db) /\
  (forall db runId r,
     NoDup (map Persistence.key db) ->
     NoDup (map Persistence.key (Persistence.appendStepResult runId r db)) /\
     length (Persistence.stored_under (Persistence.key (runId, r))
               (Persistence.appendStepResult runId r
                  (Persistence.appendStepResult runId r db))) = 1%nat).
Proof.
  split; [|split].
  - intros db runId r. apply appendStepResult_same_key; reflexivity.
  - intros db runId r r'. apply appendStepResult_same_key.
  - intros db runId r Hnd. split; [apply appendStepResult_NoDup, Hnd|].
    rewrite appendStepResult_same_key by reflexivity.
    apply stored_under_unique;
      [apply appendStepResult_NoDup, Hnd|apply appendStepResult_key_stored].
Qed.

Lemma appendStepResult_idempotent_witness :
  Persistence.appendStepResult "run-1" Persistence.replayed_attempt
    (Persistence.appendStepResult "run-1" Persistence.first_attempt []) =
  Persistence.appendStepResult "run-1" Persistence.first_attempt [] /\
  length (Persistence.stored_under ("run-1", "B", 1%nat)
            (Persistence.appendStepResult "run-1" Persistence.first_attempt
               (Persistence.appendStepResult "run-1"
                  Persistence.first_attempt []))) = 1%nat.
Proof.
  destruct appendStepResult_idempotent as (_ & Hkey & Hunique).
  split.
  - apply Hkey; reflexivity.
  - apply (Hunique [] "run-1" Persistence.first_attempt). constructor.
Defined.

(** ** Termination of the Run State Machine (C3) *)

Lemma sum_list_with_ext_in {A : Type} (f g : A -> nat) (l : list A) :
  (forall x, x ∈ l -> f x = g x) -> sum_list_with f l = sum_list_with g l.
Proof.
  induction l as [|a l IH]; intros H; simpl; [reflexivity|].
  rewrite (H a) by left. rewrite IH; [reflexivity|].
  intros x Hx. apply H. right. exact Hx.
Qed.

Lemma find_step_Some def i st :
  RunStateMachine.find_step def i = Some st ->
  st ∈ RunStateMachine.steps def /\ RunStateMachine.id st = i.
Proof.
  unfold RunStateMachine.find_step. intros H.
  apply List.find_some in H as [Hin Heq].
  split; [apply list_elem_of_In, Hin|apply String.eqb_eq, Heq].
Qed.

Section Termination.

Import RunStateMachine Progress.

Variable def : WorkflowDefinition.
Variable rank : string -> nat.
Hypothesis rank_decreases :
  forall s t, s ∈ steps def -> t ∈ successors (body s) ->
    (rank t < rank (id s))%nat.

Lemma rank_successor i st t :
  find_step def i = Some st -> t ∈ successors (body st) ->
  (rank t < rank i)%nat.
Proof.
  intros Hf Ht. destruct (find_step_Some _ _ _ Hf) as [Hin <-].
  apply rank_decreases; assumption.
Qed.

(** Beyond the rank of a step the depth does not change its weight. *)
Lemma weight_upto_stable d d' i :
  (rank i < d)%nat -> (rank i < d')%nat ->
  weight_upto def d i = weight_upto def d' i.
Proof.
  revert d' i. induction d as [|d IH]; intros d' i Hd Hd'; [lia|].
  destruct d' as [|d']; [lia|]. simpl.
  destruct (find_step def i) as [st|] eqn:Hf; [|reflexivity].
  f_equal. apply sum_list_with_ext_in. intros t Ht.
  pose proof (rank_successor _ _ _ Hf Ht). apply IH; lia.
Qed.

Lemma weight_token i : weight def rank i = token def rank i 1 false.
Proof.
  unfold weight, token. simpl.
  destruct (find_step def i) as [st|] eqn:Hf; [|reflexivity].
  f_equal. apply sum_list_with_ext_in. intros t Ht.
  pose proof (rank_successor _ _ _ Hf Ht).
  unfold weight. apply weight_upto_stable; lia.
Qed.

Lemma token_positive i a b : (1 <= token def rank i a b)%nat.
Proof.
  unfold token, local_budget. destruct (find_step def i); [|lia].
  destruct b; lia.
Qed.

Lemma token_successor i st a b t :
  find_step def i = Some st -> t ∈ successors (body st) ->
  (weight def rank t + 2 <= token def rank i a b)%nat.
Proof.
  intros Hf Ht. unfold token. rewrite Hf.
  pose proof (sum_list_with_in t (weight def rank) _ Ht).
  unfold local_budget. destruct b; lia.
Qed.

Lemma token_suspend i st a :
  find_step def i = Some st ->
  (token def rank i a true < token def rank i a false)%nat.
Proof.
  intros Hf. unfold token, local_budget. rewrite Hf. lia.
Qed.

Lemma token_retry i st a b :
  find_step def i = Some st ->
  (a < Retry.max_attempts (policy_of def st))%nat ->
  (token def rank i (S a) false < token def rank i a b)%nat.
Proof.
  intros Hf Ha. unfold token, local_budget. rewrite Hf. destruct b; lia.
Qed.

Lemma frames_measure_log_writes outs fs :
  sum_list_with (frame_measure def rank) (log_writes outs fs) =
  sum_list_with (frame_measure def rank) fs.
Proof. destruct fs as [|f fs]; reflexivity. Qed.

Lemma visit_control r :
  status (visit r) = status r /\ current (visit r) = current r /\
  attempt (visit r) = attempt r /\ frames (visit r) = frames r.
Proof. unfold visit. destruct (attempt r =? 1)%nat; repeat split. Qed.

Lemma record_skipped_control inp marks r :
  status (record_skipped inp marks r) = status r /\
  current (record_skipped inp marks r) = current r /\
  attempt (record_skipped inp marks r) = attempt r /\
  frames (record_skipped inp marks r) = frames r.
Proof.
  unfold record_skipped. revert r.
  induction marks as [|[t m] marks IH]; intros r; simpl; [repeat split|].
  destruct m; simpl.
  - apply IH.
  - destruct (IH (set_trace (execution_path r)
                    (Persistence.appendStepResult (run_id r)
                       {| Persistence.step_id := t;
                          Persistence.status := Persistence.skipped;
                          Persistence.attempt := 0;
                          Persistence.inputs := [];
                          Persistence.outputs := [];
                          Persistence.error := None;
                          Persistence.start_time := now inp;
                          Persistence.end_time := Some (now inp);
                          Persistence.duration := Some 0%Z |}
                       (step_results r)) r)) as (H1 & H2 & H3 & H4).
    rewrite H1, H2, H3, H4. repeat split.
Qed.

Lemma measure_proceed inp outs next r :
  measure def rank (proceed inp outs next r) =
  (weight def rank next +
   sum_list_with (frame_measure def rank) (frames r) + 3)%nat.
Proof.
  unfold measure, proceed, enter, write_outputs. simpl.
  rewrite frames_measure_log_writes, weight_token. reflexivity.
Qed.

Lemma measure_arrive f fs r :
  (measure def rank (arrive f fs r) <=
   frame_measure def rank f +
   sum_list_with (frame_measure def rank) fs + 3)%nat.
Proof.
  unfold measure, arrive.
  destruct (pending_branches f) as [|c cs] eqn:Hp; simpl.
  - rewrite frames_measure_log_writes, <- weight_token.
    set (F := sum_list_with (frame_measure def rank) fs).
    unfold frame_measure. rewrite Hp. simpl. lia.
  - rewrite <- weight_token.
    set (F := sum_list_with (frame_measure def rank) fs).
    unfold frame_measure. rewrite Hp. simpl. lia.
Qed.

Lemma measure_fail_run cause r :
  (measure def rank (fail_run cause r) <= 2)%nat.
Proof.
  unfold measure, fail_run. simpl. destruct (failure_policy def); lia.
Qed.

Lemma measure_permanent cause r :
  (measure def rank (permanent cause r) <=
   sum_list_with (frame_measure def rank) (frames r) + 3)%nat.
Proof.
  unfold permanent. destruct (frames r) as [|f fs] eqn:Hfs.
  - pose proof (measure_fail_run cause r). lia.
  - destruct (frame_stop_on_error f).
    + pose proof (measure_fail_run cause r). lia.
    + apply measure_arrive.
Qed.

Lemma measure_step_failed inp st cause may_retry r b :
  find_step def (current r) = Some st ->
  (measure def rank (step_failed def inp st cause may_retry r) <
   token def rank (current r) (attempt r) b +
   sum_list_with (frame_measure def rank) (frames r) + 3)%nat.
Proof.
  intros Hf. unfold step_failed. cbv zeta.
  pose proof (token_positive (current r) (attempt r) b) as Hpos.
  destruct cause as [e|].
  - destruct (may_retry && Retry.shouldRetry e (attempt r) (policy_of def st))
      eqn:Hagain.
    + apply andb_true_iff in Hagain as [_ Hretry].
      unfold Retry.shouldRetry in Hretry.
      apply andb_true_iff in Hretry as [_ Hlt]. apply Nat.ltb_lt in Hlt.
      unfold measure. simpl.
      pose proof (token_retry (current r) st (attempt r) b Hf Hlt). lia.
    + pose proof (measure_permanent (Some e)
                    (record_result inp Persistence.failed [] (Some e) r)) as H.
      simpl in H. lia.
  - pose proof (measure_permanent None
                  (record_result inp Persistence.failed [] None r)) as H.
    simpl in H. lia.
Qed.

Lemma measure_finish inp r : (measure def rank (finish inp r) <= 2)%nat.
Proof.
  unfold finish. cbv zeta.
  destruct (partial_failure _); [apply measure_fail_run|].
  unfold measure. simpl. lia.
Qed.

Lemma measure_fan_out inp children join stop st r :
  find_step def (current r) = Some st ->
  body st = ParallelStep children join stop ->
  (measure def rank (fan_out inp children join stop r) <
   token def rank (current r) (attempt r) false +
   sum_list_with (frame_measure def rank) (frames r) + 3)%nat.
Proof.
  intros Hf Hb. unfold fan_out. cbv zeta.
  unfold token at 1. rewrite Hf, Hb. simpl successors.
  rewrite sum_list_with_app. simpl.
  unfold local_budget, measure.
  set (F := sum_list_with (frame_measure def rank) (frames r)).
  destruct children as [|c cs]; simpl; rewrite <- weight_token.
  - lia.
  - fold F. unfold frame_measure. simpl. lia.
Qed.

Lemma condition_chosen_successor s c t marks :
  Condition.execute s c = Condition.Chosen t marks ->
  t ∈ successors (ConditionStep c).
Proof.
  unfold Condition.execute. simpl.
  destruct (Condition.first_match s (Condition.branches c))
    as [[[[before m] after]|[]]|] eqn:Hm; [|discriminate|].
  - intros [= <- _]. apply first_match_found in Hm as (-> & _ & _).
    apply elem_of_app. left. rewrite map_app. apply elem_of_app. right. left.
  - destruct (Condition.else_branch c) as [e|]; [|discriminate].
    intros [= <- _]. apply elem_of_app. right. left.
Qed.

Lemma measure_positive r :
  settled def r = false -> (1 <= measure def rank r)%nat.
Proof.
  unfold settled, measure, measure_at.
  destruct (status r); try discriminate; try lia.
  destruct (failure_policy def); [discriminate|lia|lia].
Qed.

Lemma measure_run_step inp r :
  status r = running ->
  (measure def rank (run_step def inp r) < measure def rank r)%nat.
Proof.
  intros Hs. unfold measure at 2. rewrite Hs. simpl measure_at.
  pose proof (token_positive (current r) (attempt r) false) as Hpos.
  destruct (visit_control r) as (_ & Hcur & Hatt & Hfr).
  unfold run_step. destruct (at_join r) as [[f fs]|] eqn:Hj.
  - unfold at_join in Hj. destruct (frames r) as [|f' fs'] eqn:Hfs;
      [discriminate|].
    destruct (String.eqb (current r) (frame_join f')); [|discriminate].
    injection Hj as <- <-. pose proof (measure_arrive f' fs' r).
    cbn [sum_list_with]. lia.
  - destruct (find_step def (current r)) as [st|] eqn:Hf.
    + assert (Hf1 : find_step def (current (visit r)) = Some st)
        by (rewrite Hcur; exact Hf).
      assert (Hnext : forall n inp' outs r',
                n ∈ successors (body st) -> frames r' = frames r ->
                (measure def rank (proceed inp' outs n r') <
                 token def rank (current r) (attempt r) false +
                 sum_list_with (frame_measure def rank) (frames r) + 3)%nat).
      { intros n inp' outs r' Hn Hfr'. rewrite measure_proceed, Hfr'.
        pose proof (token_successor _ _ (attempt r) false _ Hf Hn). lia. }
      assert (Hfail : forall cause flag,
                (measure def rank (step_failed def inp st cause flag (visit r)) <
                 token def rank (current r) (attempt r) false +
                 sum_list_with (frame_measure def rank) (frames r) + 3)%nat).
      { intros cause flag.
        pose proof (measure_step_failed inp st cause flag (visit r) false Hf1) as H.
        rewrite Hcur, Hatt, Hfr in H. exact H. }
      destruct (body st) as [n|n|ct ac n|mapping n|c|n|children join stop|ap n|]
        eqn:Hb.
      * apply Hnext; [left|exact Hfr].
      * unfold measure. simpl. rewrite Hcur, Hatt, Hfr.
        pose proof (token_suspend _ _ (attempt r) Hf). lia.
      * destruct (connector_result inp) as [outs|[e flag]].
        -- apply Hnext; [left|exact Hfr].
        -- apply Hfail.
      * destruct (mapping (store (visit r))) as [outs|].
        -- apply Hnext; [left|exact Hfr].
        -- apply Hfail.
      * destruct (Condition.execute (store (visit r)) c) as [t marks|e] eqn:He.
        -- apply Hnext; [eapply condition_chosen_successor; exact He|].
           destruct (record_skipped_control inp marks (visit r)) as (_ & _ & _ & H).
           rewrite H. exact Hfr.
        -- destruct e; apply Hfail.
      * unfold measure. simpl. rewrite Hcur, Hatt, Hfr.
        pose proof (token_suspend _ _ (attempt r) Hf). lia.
      * pose proof (measure_fan_out inp children join stop st (visit r) Hf1 Hb)
          as H.
        rewrite Hcur, Hatt, Hfr in H. exact H.
      * unfold measure. simpl. rewrite Hcur, Hatt, Hfr.
        pose proof (token_suspend _ _ (attempt r) Hf). lia.
      * pose proof (measure_finish inp (visit r)). lia.
    + pose proof (measure_permanent (Some Errors.MappingError)
                    (record_result inp Persistence.failed []
                       (Some Errors.MappingError) (visit r))) as H.
      simpl in H. rewrite Hfr in H. lia.
Qed.

Lemma measure_resume inp r :
  status r = waiting -> advances def inp r = true ->
  (measure def rank (resume def inp r) < measure def rank r)%nat.
Proof.
  intros Hs Hadv. unfold measure at 2. rewrite Hs. simpl measure_at.
  pose proof (token_positive (current r) (attempt r) true) as Hpos.
  unfold advances in Hadv. rewrite Hs in Hadv.
  unfold resume. destruct (find_step def (current r)) as [st|] eqn:Hf.
  - assert (Hnext : forall n outs,
              n ∈ successors (body st) ->
              (measure def rank (proceed inp outs n r) <
               token def rank (current r) (attempt r) true +
               sum_list_with (frame_measure def rank) (frames r) + 3)%nat).
    { intros n outs Hn. rewrite measure_proceed.
      pose proof (token_successor _ _ (attempt r) true _ Hf Hn). lia. }
    pose proof (fun cause flag =>
                  measure_step_failed inp st cause flag r true Hf) as Hfail.
    destruct (body st) as [n|n|ct ac n|mapping n|c|n|children join stop|ap n|];
      destruct (signal inp) as [|payload|[|]|]; simpl in Hadv;
      try discriminate Hadv;
      try (apply Hnext; left); try apply Hfail.
    destruct ap; [apply Hnext; left|apply Hfail].
  - pose proof (measure_permanent (Some Errors.MappingError)
                  (set_status running r)) as H.
    simpl in H. lia.
Qed.

Lemma measure_advance inp r :
  settled def r = false -> advances def inp r = true ->
  (measure def rank (advance def inp r) < measure def rank r)%nat.
Proof.
  intros Hset Hadv. pose proof (measure_positive r Hset) as Hpos.
  unfold advance. rewrite Hset.
  destruct (cancel_requested inp); [unfold measure in *; simpl; lia|].
  destruct (status r) eqn:Hs.
  - unfold measure. rewrite Hs. simpl. lia.
  - apply measure_run_step, Hs.
  - apply measure_resume; assumption.
  - unfold settled in Hset. rewrite Hs in Hset. discriminate.
  - unfold settled in Hset. rewrite Hs in Hset.
    unfold measure. rewrite Hs. simpl.
    destruct (failure_policy def); [discriminate|simpl; lia|simpl; lia].
  - unfold settled in Hset. rewrite Hs in Hset. discriminate.
  - unfold measure. rewrite Hs. simpl. lia.
  - unfold settled in Hset. rewrite Hs in Hset. discriminate.
Qed.

Lemma advance_settled inp r : settled def r = true -> advance def inp r = r.
Proof. intros H. unfold advance. rewrite H. reflexivity. Qed.

Lemma run_for_settled_stays inputs r :
  settled def r = true -> run_for def inputs r = r.
Proof.
  unfold run_for. induction inputs as [|inp inputs IH]; intros H; simpl;
    [reflexivity|].
  rewrite advance_settled by exact H. apply IH, H.
Qed.

(** A driven run is settled once as many transitions as its measure have
    been made. *)
Lemma run_for_settles n inputs r :
  (measure def rank r <= n)%nat -> (n <= length inputs)%nat ->
  driven def inputs r = true ->
  settled def (run_for def inputs r) = true.
Proof.
  revert n r. induction inputs as [|inp inputs IH]; intros n r Hm Hn Hd.
  - simpl in *. destruct (settled def r) eqn:Hset; [reflexivity|].
    pose proof (measure_positive r Hset). lia.
  - destruct (settled def r) eqn:Hset.
    + rewrite run_for_settled_stays by exact Hset. exact Hset.
    + simpl in Hd. apply andb_true_iff in Hd as [Hadv Hd].
      pose proof (measure_advance inp r Hset Hadv).
      simpl in Hn. unfold run_for. simpl.
      apply (IH (n - 1)%nat); [lia|lia|exact Hd].
Qed.

End Termination.

Lemma settled_terminal def r :
  RunStateMachine.settled def r = true ->
  RunStateMachine.terminal_status (RunStateMachine.status r) = true /\
  RunStateMachine.status r <> RunStateMachine.running.
Proof.
  unfold RunStateMachine.settled.
  destruct (RunStateMachine.status r); simpl; try discriminate; intros _;
    split; try reflexivity; discriminate.
Qed.

(** *** Every suspended step can be advanced *)

Lemma status_arrive f fs r :
  RunStateMachine.status (RunStateMachine.arrive f fs r) =
  RunStateMachine.running.
Proof.
  unfold RunStateMachine.arrive.
  destruct (RunStateMachine.pending_branches f); reflexivity.
Qed.

Lemma status_permanent cause r :
  RunStateMachine.status (RunStateMachine.permanent cause r) <>
  RunStateMachine.waiting.
Proof.
  unfold RunStateMachine.permanent.
  destruct (RunStateMachine.frames r) as [|f fs]; [discriminate|].
  destruct (RunStateMachine.frame_stop_on_error f); [discriminate|].
  rewrite status_arrive. discriminate.
Qed.

Lemma status_step_failed def inp st cause may_retry r :
  RunStateMachine.status
    (RunStateMachine.step_failed def inp st cause may_retry r) <>
  RunStateMachine.waiting.
Proof.
  unfold RunStateMachine.step_failed. cbv zeta.
  destruct cause as [e|]; [|apply status_permanent].
  destruct (may_retry && _); [discriminate|apply status_permanent].
Qed.

Lemma status_finish inp r :
  RunStateMachine.status (RunStateMachine.finish inp r) <>
  RunStateMachine.waiting.
Proof.
  unfold RunStateMachine.finish. cbv zeta.
  destruct (RunStateMachine.partial_failure _); discriminate.
Qed.

Lemma status_fan_out inp children join stop r :
  RunStateMachine.status
    (RunStateMachine.fan_out inp children join stop r) =
  RunStateMachine.running.
Proof. unfold RunStateMachine.fan_out. destruct children; reflexivity. Qed.

Lemma run_step_waits_at_suspension def inp r :
  RunStateMachine.waits_at_suspension def (RunStateMachine.run_step def inp r).
Proof.
  unfold RunStateMachine.waits_at_suspension, RunStateMachine.run_step.
  destruct (visit_control r) as (_ & Hcur & _ & _).
  destruct (RunStateMachine.at_join r) as [[f fs]|].
  { rewrite status_arrive. discriminate. }
  destruct (RunStateMachine.find_step def (RunStateMachine.current r))
    as [st|] eqn:Hf.
  2: { intros H. exfalso. revert H. apply status_permanent. }
  assert (Hsusp : RunStateMachine.suspends (RunStateMachine.body st) = true ->
            exists st',
              RunStateMachine.find_step def
                (RunStateMachine.current
                   (RunStateMachine.set_status RunStateMachine.waiting
                      (RunStateMachine.visit r))) = Some st' /\
              RunStateMachine.suspends (RunStateMachine.body st') = true).
  { intros Hb. exists st. simpl. rewrite Hcur. split; assumption. }
  destruct (RunStateMachine.body st)
    as [n|n|ct ac n|mapping n|c|n|children join stop|ap n|];
    try (intros _; apply Hsusp; reflexivity);
    try discriminate.
  - destruct (RunStateMachine.connector_result inp) as [outs|[e flag]];
      [discriminate|].
    intros H. exfalso. revert H. apply status_step_failed.
  - destruct (mapping _); [discriminate|].
    intros H. exfalso. revert H. apply status_step_failed.
  - destruct (Condition.execute _ c) as [t marks|e]; [discriminate|].
    intros H. exfalso. revert H. destruct e; apply status_step_failed.
  - rewrite status_fan_out. discriminate.
  - intros H. exfalso. revert H. apply status_finish.
Qed.

Lemma resume_waits_at_suspension def inp r :
  RunStateMachine.waits_at_suspension def r ->
  RunStateMachine.waits_at_suspension def (RunStateMachine.resume def inp r).
Proof.
  intros Hr. unfold RunStateMachine.resume.
  destruct (RunStateMachine.find_step def (RunStateMachine.current r))
    as [st|] eqn:Hf.
  2: { intros H. exfalso. revert H. apply status_permanent. }
  destruct (RunStateMachine.body st)
    as [n|n|ct ac n|mapping n|c|n|children join stop|ap n|];
    destruct (RunStateMachine.signal inp) as [|payload|[|]|];
    try exact Hr; try (intros H; discriminate H);
    try (intros H; exfalso; revert H; apply status_step_failed).
  destruct ap; [intros H; discriminate H|].
  intros H. exfalso. revert H. apply status_step_failed.
Qed.

Lemma advance_waits_at_suspension def inp r :
  RunStateMachine.waits_at_suspension def r ->
  RunStateMachine.waits_at_suspension def (RunStateMachine.advance def inp r).
Proof.
  intros Hr. unfold RunStateMachine.advance.
  destruct (RunStateMachine.settled def r); [exact Hr|].
  destruct (RunStateMachine.cancel_requested inp); [intros H; discriminate H|].
  destruct (RunStateMachine.status r) eqn:Hs; try (intros H; discriminate H).
  - apply run_step_waits_at_suspension.
  - apply resume_waits_at_suspension, Hr.
  - intros H. rewrite Hs in H. discriminate H.
  - destruct (RunStateMachine.failure_policy def); intros H; discriminate H.
  - intros H. rewrite Hs in H. discriminate H.
  - intros H. rewrite Hs in H. discriminate H.
Qed.

Lemma advancing_input_advances def r :
  RunStateMachine.waits_at_suspension def r ->
  RunStateMachine.advances def (RunStateMachine.advancing_input def r) r = true.
Proof.
  intros Hr. unfold RunStateMachine.advances.
  destruct (RunStateMachine.status r) eqn:Hs; try reflexivity.
  destruct (Hr Hs) as (st & Hf & Hsusp).
  simpl. rewrite Hf.
  destruct (RunStateMachine.body st); try discriminate Hsusp; reflexivity.
Qed.

(** From a run that waits only at suspending steps (a triggered run among
    them) input sequences of every length advance every suspended step. *)
Lemma advancing_inputs_driven def n r :
  RunStateMachine.waits_at_suspension def r ->
  length (RunStateMachine.advancing_inputs def n r) = n /\
  RunStateMachine.driven def (RunStateMachine.advancing_inputs def n r) r = true.
Proof.
  revert r. induction n as [|n IH]; intros r Hr; simpl; [split; reflexivity|].
  destruct (IH _ (advance_waits_at_suspension def
                    (RunStateMachine.advancing_input def r) r Hr)) as [Hlen Hd].
  rewrite Hlen, Hd, advancing_input_advances by exact Hr.
  split; reflexivity.
Qed.

(** A triggered run whose suspended steps are all advanced is over within
    the bound. *)
Lemma triggered_run_settles_when_advanced def rank runId inputData :
  RunStateMachine.ranked def rank ->
  let r0 := RunStateMachine.triggerRun def runId inputData in
  RunStateMachine.settled def
    (RunStateMachine.run_for def
       (RunStateMachine.advancing_inputs def
          (Progress.transition_bound def rank) r0) r0) = true.
Proof.
  intros Hrank r0.
  assert (H0 : RunStateMachine.waits_at_suspension def r0)
    by (intros H; discriminate H).
  destruct (advancing_inputs_driven def (Progress.transition_bound def rank)
              r0 H0) as [Hlen Hd].
  eapply (run_for_settles def rank Hrank); [|rewrite Hlen|exact Hd];
    apply Nat.le_refl.
Qed.

Lemma rankedb_ranked def rank :
  RunStateMachine.rankedb def rank = true -> RunStateMachine.ranked def rank.
Proof.
  unfold RunStateMachine.rankedb, RunStateMachine.ranked.
  rewrite forallb_forall. intros H s t Hs Ht.
  apply list_elem_of_In in Hs. specialize (H s Hs).
  rewrite forallb_forall in H. apply list_elem_of_In in Ht.
  apply Nat.ltb_lt, H, Ht.
Qed.

(** C3: for every workflow definition with an entry step, a terminal step
    reachable from it and no raw cycle (its steps are ranked along the
    edges), the run created by [triggerRun] is over within
    [transition_bound] transitions, whatever the connectors answer, provided
    every suspended step is advanced: it then has a terminal status
    (completed, failed, cancelled or dead_lettered) that no further
    transition leaves, and is not [running]. The retries are bounded by
    [max_attempts], and a delay ends when its timer fires. *)
Theorem run_reaches_terminal_status :
  forall def rank runId inputData inputs,
    RunStateMachine.valid_definition def ->
    RunStateMachine.ranked def rank ->
    (Progress.transition_bound def rank <= length inputs)%nat ->
    RunStateMachine.driven def inputs
      (RunStateMachine.triggerRun def runId inputData) = true ->
    let r := RunStateMachine.getRunStatus
               (RunStateMachine.run_for def inputs
                  (RunStateMachine.triggerRun def runId inputData)) in
    RunStateMachine.settled def r = true /\
    RunStateMachine.terminal_status (RunStateMachine.status r) = true /\
    RunStateMachine.status r <> RunStateMachine.running /\
    (forall more, RunStateMachine.run_for def more r = r).
Proof.
  intros def rank runId inputData inputs _ Hrank Hlen Hdriven r.
  assert (Hset : RunStateMachine.settled def r = true).
  { unfold r, RunStateMachine.getRunStatus.
    eapply (run_for_settles def rank Hrank); [|exact Hlen|exact Hdriven].
    apply Nat.le_refl. }
  split; [exact Hset|].
  destruct (settled_terminal def r Hset) as [Ht Hr].
  repeat split; [exact Ht|exact Hr|].
  intros more. apply run_for_settled_stays, Hset.
Qed.

Lemma linear_valid : RunStateMachine.valid_definition RunStateMachine.linear.
Proof.
  split; [eexists; reflexivity|]. split.
  - exists "C", (RunStateMachine.plain_step "C" RunStateMachine.EndStep).
    split; [|split; reflexivity].
    eapply RunStateMachine.reaches_edge; [reflexivity|left|].
    eapply RunStateMachine.reaches_edge; [reflexivity|left|].
    apply RunStateMachine.reaches_here.
  - exists RunStateMachine.linear_rank. apply rankedb_ranked. reflexivity.
Qed.

Lemma run_reaches_terminal_status_witness :
  let r := RunStateMachine.getRunStatus
             (RunStateMachine.run_for RunStateMachine.linear
                (repeat RunStateMachine.failing_input 30)
                (RunStateMachine.triggerRun RunStateMachine.linear "run-1" [])) in
  RunStateMachine.settled RunStateMachine.linear r = true /\
  RunStateMachine.terminal_status (RunStateMachine.status r) = true /\
  RunStateMachine.status r <> RunStateMachine.running /\
  (forall more, RunStateMachine.run_for RunStateMachine.linear more r = r).
Proof.
  apply (run_reaches_terminal_status RunStateMachine.linear
           RunStateMachine.linear_rank).
  - exact linear_valid.
  - apply rankedb_ranked. reflexivity.
  - vm_compute. lia.
  - vm_compute. reflexivity.
Defined.

(** ** Simulation and live execution (C2) *)









(** The simulation of [linear] with the response of [B] mocked runs along
    [A], [B], [C] and marks the mock response used at [B]. *)
Example simulation_marks_mock_data :
  let sim := RunStateMachine.simulate RunStateMachine.linear
               RunStateMachine.linear_mock
               (repeat RunStateMachine.ok_input 4)
               (RunStateMachine.triggerRun RunStateMachine.linear "run-1" []) in
  RunStateMachine.status (fst sim) = RunStateMachine.completed /\
  RunStateMachine.execution_path (fst sim) = ["A"; "B"; "C"] /\
  snd sim = [("B", [("response", JStr "ok")])].
Proof. vm_compute. repeat split. Qed.

(** Where the registry does not answer as the mock declares, simulation and
    live execution part: the simulation of [linear] completes while the live
    run, its connector failing every time, fails. *)
Example simulation_parts_from_live_otherwise :
  let r := RunStateMachine.triggerRun RunStateMachine.linear "run-1" [] in
  let inputs := repeat RunStateMachine.failing_input 5 in
  RunStateMachine.status
    (fst (RunStateMachine.simulate RunStateMachine.linear
            RunStateMachine.linear_mock inputs r)) =
    RunStateMachine.completed /\
  RunStateMachine.status
    (RunStateMachine.run_for RunStateMachine.linear inputs r) =
    RunStateMachine.failed.
Proof. vm_compute. repeat split. Qed.

(** ** The scenarios of the specification, run on the state machine *)

(** [B] fails twice, retryably, and then succeeds: three attempts are
    recorded for it and the run completes along [A], [B], [C]. *)
Example scenario_retry_then_success :
  let r := RunStateMachine.run_for RunStateMachine.linear
             [RunStateMachine.ok_input; RunStateMachine.ok_input;
              RunStateMachine.failing_input; RunStateMachine.failing_input;
              RunStateMachine.ok_input; RunStateMachine.ok_input]
             (RunStateMachine.triggerRun RunStateMachine.linear "run-1" []) in
  RunStateMachine.status r = RunStateMachine.completed /\
  RunStateMachine.attempts_of "B" r = [1; 2; 3]%nat /\
  RunStateMachine.execution_path r = ["A"; "B"; "C"].
Proof. vm_compute. repeat split. Qed.

(** A third failure exhausts the three attempts: the run fails. *)
Example scenario_retries_exhausted :
  let r := RunStateMachine.run_for RunStateMachine.linear
             (repeat RunStateMachine.failing_input 5)
             (RunStateMachine.triggerRun RunStateMachine.linear "run-1" []) in
  RunStateMachine.status r = RunStateMachine.failed /\
  RunStateMachine.attempts_of "B" r = [1; 2; 3]%nat /\
  RunStateMachine.error_summary r = Some Errors.ConnectorError.
Proof. vm_compute. repeat split. Qed.

(** A cancellation requested while the run waits on a delay step cancels it
    without executing a further step. *)
Example scenario_cancel_while_waiting :
  let waiting_run :=
    RunStateMachine.run_for RunStateMachine.delayed
      (repeat RunStateMachine.ok_input 3)
      (RunStateMachine.triggerRun RunStateMachine.delayed "run-2" []) in
  let r := RunStateMachine.advance RunStateMachine.delayed
             RunStateMachine.cancel_input waiting_run in
  RunStateMachine.status waiting_run = RunStateMachine.waiting /\
  RunStateMachine.status r = RunStateMachine.cancelled /\
  RunStateMachine.execution_path r = ["S"; "D"].
Proof. vm_compute. repeat split. Qed.

(** With [stop_on_error = false] a failed branch does not keep the join
    from executing, and the run does not end as a success. *)
Example scenario_parallel_partial_failure :
  let r := RunStateMachine.run_for RunStateMachine.forked
             (repeat RunStateMachine.ok_input 8)
             (RunStateMachine.triggerRun RunStateMachine.forked "run-3" []) in
  RunStateMachine.status r = RunStateMachine.failed /\
  RunStateMachine.execution_path r = ["S"; "P"; "X"; "Y"; "J"; "E"] /\
  RunStateMachine.store r = [("response", JStr "ok")].
Proof. vm_compute. repeat split. Qed.

(** Under the failure policy [compensate] a run whose step exhausts its
    retries passes through [failed] and [compensating] and ends
    [dead_lettered], the compensation of the visited step logged. *)
Example scenario_compensate_then_dead_letter :
  let after n :=
    RunStateMachine.run_for RunStateMachine.compensated
      (repeat RunStateMachine.failing_input n)
      (RunStateMachine.triggerRun RunStateMachine.compensated "run-4" []) in
  map (fun n => RunStateMachine.status (after n)) [3; 4; 5; 6]%nat =
    [RunStateMachine.failed; RunStateMachine.compensating;
     RunStateMachine.dead_lettered; RunStateMachine.dead_lettered] /\
  RunStateMachine.compensation_log (after 5%nat) = [("B", true)].
Proof. vm_compute. repeat split. Qed.

(** * Further properties of the sources *)

(** ** The SDK's schemas and interfaces *)

(** Reads off the first parser whose input is a member of [fs] in an
    equation [H] saying that a schema accepted. *)
Ltac schema_member H fs :=
  match type of H with
  | context [?p (field ?k fs)] =>
      let E := fresh "Hm" in
      destruct (p (field k fs)) eqn:E; simpl in H; [|discriminate H]
  end.

Lemma z_string_inv v s : Sdk.z_string v = Some s -> v = Some (JStr s).
Proof. destruct v as [[]|]; simpl; congruence. Qed.

Lemma z_string_min1_inv v s :
  Schemas.z_string_min1 v = Some s -> v = Some (JStr s) /\ s <> "".
Proof.
  destruct v as [[| | |s'| |]|]; simpl; try discriminate.
  destruct (String.eqb_spec s' ""); [discriminate|].
  intros [= <-]. split; [reflexivity|assumption].
Qed.

Lemma z_string_min1_string s :
  Schemas.z_string_min1 (Some (JStr s)) = if String.eqb s "" then None else Some s.
Proof. reflexivity. Qed.

Lemma z_array_strings l :
  Schemas.z_array Sdk.z_string (Some (JArr (map JStr l))) = Some l.
Proof.
  simpl. apply mapM_Some. induction l as [|s l IH]; simpl; constructor;
    [reflexivity|exact IH].
Qed.

Lemma WorkflowRun_object_parse r :
  Sdk.WorkflowRunSchema (Schemas.WorkflowRun_object r) = Some r.
Proof.
  destruct r as [i w ver st inp out sa ca em].
  destruct st, out, ca, em; reflexivity.
Qed.

Lemma Workflow_toJSON_parse w :
  Schemas.WorkflowSchema (Schemas.Workflow_toJSON w) = Some w.
Proof.
  destruct w as [i n d ver st ca ua]. destruct st, d; reflexivity.
Qed.

Lemma WorkflowRunSchema_members fs fs' :
  (forall k, k ∈ Schemas.WorkflowRun_members -> field k fs = field k fs') ->
  Sdk.WorkflowRunSchema (JObj fs) = Sdk.WorkflowRunSchema (JObj fs').
Proof.
  intros H. unfold Sdk.WorkflowRunSchema.
  assert (Hk : forall k, In k Schemas.WorkflowRun_members ->
                         field k fs = field k fs')
    by (intros k Hin; apply H, list_elem_of_In, Hin).
  rewrite (Hk "id"), (Hk "workflow_id"), (Hk "version"), (Hk "status"),
    (Hk "input_data"), (Hk "output_data"), (Hk "started_at"),
    (Hk "completed_at"), (Hk "error_message") by (simpl; tauto).
  reflexivity.
Qed.

Lemma field_unknown_member {A : Type} k (v : A) fs m :
  m <> k -> field m ((k, v) :: fs) = field m fs.
Proof. intros H. simpl. destruct (String.eqb_spec m k); [contradiction|reflexivity]. Qed.

(** X1: [WorkflowRunSchema.parse] is idempotent: the run it returns, handed
    to it again as the object it is, is accepted and returned member for
    member, nothing coerced and nothing defaulted; so is every run whose
    records hold values read from a document. Nothing is serialised here:
    what [JSON.stringify] would do to a run is not part of the
    statement. *)
Theorem WorkflowRunSchema_idempotent :
  (forall doc,
     match Sdk.WorkflowRunSchema doc with
     | Some r => Sdk.WorkflowRunSchema (Schemas.WorkflowRun_object r) = Some r
     | None => True
     end) /\
  (forall r, Sdk.WorkflowRunSchema (Schemas.WorkflowRun_object r) = Some r).
Proof.
  split; [|exact WorkflowRun_object_parse].
  intros doc. destruct (Sdk.WorkflowRunSchema doc) as [r|]; [|exact I].
  apply WorkflowRun_object_parse.
Qed.

(** X2: [WorkflowRunSchema] reads the nine declared members and nothing
    else: two objects that agree on them parse alike, so a member the schema
    does not declare is dropped, not refused. *)
Theorem WorkflowRunSchema_strips_unknown_members :
  forall fs fs',
    (forall k, k ∈ Schemas.WorkflowRun_members -> field k fs = field k fs') ->
    Sdk.WorkflowRunSchema (JObj fs) = Sdk.WorkflowRunSchema (JObj fs').
Proof. exact WorkflowRunSchema_members. Qed.

Lemma WorkflowRunSchema_strips_unknown_members_witness :
  Sdk.WorkflowRunSchema
    (JObj [("tenant", JStr "acme"); ("id", JStr "run-1");
           ("workflow_id", JStr "wf-1"); ("version", JStr "1.0.0");
           ("status", JStr "running"); ("input_data", JObj []);
           ("started_at", JStr "2024-01-01T00:00:00Z")]) =
  Sdk.WorkflowRunSchema (Sdk.run_document "running").
Proof.
  apply WorkflowRunSchema_strips_unknown_members.
  intros k Hk. apply field_unknown_member.
  intros ->. apply list_elem_of_In in Hk. simpl in Hk.
  repeat (destruct Hk as [Hk|Hk]; [discriminate Hk|]). exact Hk.
Defined.

Lemma z_optional_string_present v o s :
  Sdk.z_optional Sdk.z_string v = Some o -> v = Some (JStr s) -> o = Some s.
Proof. intros H ->. simpl in H. congruence. Qed.

Lemma WorkflowSchema_inv doc w :
  Schemas.WorkflowSchema doc = Some w ->
  exists fs, doc = JObj fs /\
    field "name" fs = Some (JStr (Schemas.name w)) /\
    is_Some (Sdk.z_optional Sdk.z_string (field "description" fs)) /\
    is_Some (Schemas.z_WorkflowStatus (field "status" fs)).
Proof.
  destruct doc as [| | | |?|fs]; simpl; try discriminate.
  intros H. exists fs. split; [reflexivity|].
  schema_member H fs. schema_member H fs. schema_member H fs.
  schema_member H fs. schema_member H fs. schema_member H fs.
  schema_member H fs. injection H as <-. simpl.
  repeat split; eauto. apply z_string_inv. assumption.
Qed.

Lemma ConnectionSchema_inv doc c :
  Schemas.ConnectionSchema doc = Some c ->
  exists fs, doc = JObj fs /\
    field "name" fs = Some (JStr (Schemas.connection_name c)) /\
    is_Some (Schemas.z_ConnectionType (field "type" fs)) /\
    is_Some (Sdk.z_record_any (field "config" fs)) /\
    is_Some (Schemas.z_ConnectionStatus (field "status" fs)).
Proof.
  destruct doc as [| | | |?|fs]; simpl; try discriminate.
  intros H. exists fs. split; [reflexivity|].
  schema_member H fs. schema_member H fs. schema_member H fs.
  schema_member H fs. schema_member H fs. schema_member H fs.
  schema_member H fs. injection H as <-. simpl.
  repeat split; eauto. apply z_string_inv. assumption.
Qed.

Lemma z_optional_present {A} (p : option json -> option A) j :
  Sdk.z_optional p (Some j) =
  match p (Some j) with Some a => Some (Some a) | None => None end.
Proof. reflexivity. Qed.

(** X3: a workflow of interface [Workflow], serialised, parses back to
    itself; and a document [WorkflowSchema] accepts is accepted by
    [CreateWorkflowSchema], and by [UpdateWorkflowSchema], exactly when its
    name is not empty: a workflow stored with an empty name cannot be sent
    back through either of the two. *)
Theorem WorkflowSchema_create_update :
  (forall w, Schemas.WorkflowSchema (Schemas.Workflow_toJSON w) = Some w) /\
  (forall doc,
     match Schemas.WorkflowSchema doc with
     | Some w =>
         (is_Some (Schemas.CreateWorkflowSchema doc) <-> Schemas.name w <> "") /\
         (is_Some (Schemas.UpdateWorkflowSchema doc) <-> Schemas.name w <> "")
     | None => True
     end).
Proof.
  split; [exact Workflow_toJSON_parse|].
  intros doc. destruct (Schemas.WorkflowSchema doc) as [w|] eqn:Hw; [|exact I].
  destruct (WorkflowSchema_inv _ _ Hw) as (fs & -> & Hn & [d Hd] & [st Hst]).
  unfold Schemas.CreateWorkflowSchema, Schemas.UpdateWorkflowSchema.
  rewrite Hn, Hd, z_optional_present, z_string_min1_string. simpl.
  destruct (String.eqb_spec (Schemas.name w) "") as [He|He]; simpl.
  - split; (split; [intros [? [=]]|intros H; contradiction]).
  - assert (Hs : Sdk.z_optional Schemas.z_WorkflowStatus (field "status" fs)
                 = Some (Some st)).
    { destruct (field "status" fs) as [j|]; [|discriminate Hst].
      rewrite z_optional_present, Hst. reflexivity. }
    rewrite Hs. simpl. split; (split; [intros _; exact He|eauto]).
Qed.

(** X4: a document [ConnectionSchema] accepts is accepted by
    [CreateConnectionSchema], and by [UpdateConnectionSchema], exactly when
    its name is not empty. *)
Theorem ConnectionSchema_create_update :
  forall doc,
    match Schemas.ConnectionSchema doc with
    | Some c =>
        (is_Some (Schemas.CreateConnectionSchema doc) <->
         Schemas.connection_name c <> "") /\
        (is_Some (Schemas.UpdateConnectionSchema doc) <->
         Schemas.connection_name c <> "")
    | None => True
    end.
Proof.
  intros doc. destruct (Schemas.ConnectionSchema doc) as [c|] eqn:Hc; [|exact I].
  destruct (ConnectionSchema_inv _ _ Hc)
    as (fs & -> & Hn & [t Ht] & [cfg Hcfg] & [st Hst]).
  unfold Schemas.CreateConnectionSchema, Schemas.UpdateConnectionSchema.
  rewrite Hn, Ht, Hcfg, z_optional_present, z_string_min1_string. simpl.
  destruct (String.eqb_spec (Schemas.connection_name c) "") as [He|He]; simpl.
  - split; (split; [intros [? [=]]|intros H; contradiction]).
  - assert (Hs : Sdk.z_optional Schemas.z_ConnectionStatus (field "status" fs)
                 = Some (Some st)).
    { destruct (field "status" fs) as [j|]; [|discriminate Hst].
      rewrite z_optional_present, Hst. reflexivity. }
    assert (Hg : Sdk.z_optional Sdk.z_record_any (field "config" fs)
                 = Some (Some cfg)).
    { destruct (field "config" fs) as [j|]; [|discriminate Hcfg].
      rewrite z_optional_present, Hcfg. reflexivity. }
    rewrite Hs, Hg. simpl. split; (split; [intros _; exact He|eauto]).
Qed.

Lemma field_member_if_other {A} k k' (to_json : A -> json) (v : option A) rest :
  k <> k' ->
  field k (Schemas.member_if k' to_json v ++ rest) = field k rest.
Proof.
  intros H. destruct v; simpl; [|reflexivity].
  destruct (String.eqb_spec k k'); [contradiction|reflexivity].
Qed.

Lemma ApiResponseSchema_envelope {T} (dataSchema : option json -> option T)
    d x m e :
  dataSchema (Some d) = Some x ->
  Schemas.ApiResponseSchema dataSchema (Schemas.envelope d m e) =
  Some {| Schemas.data := x; Schemas.message := m; Schemas.errors := e |}.
Proof.
  intros Hx. unfold Schemas.ApiResponseSchema, Schemas.envelope.
  change (field "data" ([("data", d)] ++ _)) with (Some d).
  rewrite Hx. simpl.
  destruct m as [m|]; simpl.
  - destruct e as [e|]; simpl; [|reflexivity].
    pose proof (z_array_strings e) as He. simpl in He. rewrite He. reflexivity.
  - destruct e as [e|]; simpl; [|reflexivity].
    pose proof (z_array_strings e) as He. simpl in He. rewrite He. reflexivity.
Qed.

Lemma ApiResponseSchema_data {T} (dataSchema : option json -> option T) doc r :
  Schemas.ApiResponseSchema dataSchema doc = Some r ->
  exists fs, doc = JObj fs /\
             dataSchema (field "data" fs) = Some (Schemas.data r).
Proof.
  destruct doc as [| | | |?|fs]; simpl; try discriminate.
  intros H. destruct (dataSchema (field "data" fs)) as [x|] eqn:Hx;
    simpl in H; [|discriminate H].
  destruct (Sdk.z_optional _ (field "message" fs)); simpl in H; [|discriminate H].
  destruct (Sdk.z_optional _ (field "errors" fs)); simpl in H; [|discriminate H].
  injection H as <-. exists fs. split; [reflexivity|exact Hx].
Qed.

(** X5: for every data schema, [ApiResponseSchema(dataSchema)] accepts the
    envelope of a document the data schema accepts, with any message and
    any list of errors, and returns the parsed data with them; whatever it
    accepts is an object whose [data] member, present or not, the data
    schema accepts. An object without [data] is refused when the data
    schema refuses [undefined], and accepted, with what the data schema
    makes of [undefined], when it accepts it. *)
Theorem ApiResponseSchema_envelope_law :
  forall (T : Type) (dataSchema : option json -> option T),
    (forall d x m e, dataSchema (Some d) = Some x ->
       Schemas.ApiResponseSchema dataSchema (Schemas.envelope d m e) =
       Some {| Schemas.data := x; Schemas.message := m; Schemas.errors := e |}) /\
    (forall doc r,
       Schemas.ApiResponseSchema dataSchema doc = Some r ->
       exists fs, doc = JObj fs /\
                  dataSchema (field "data" fs) = Some (Schemas.data r)) /\
    (forall fs, field "data" fs = None ->
       (dataSchema None = None ->
        Schemas.ApiResponseSchema dataSchema (JObj fs) = None) /\
       (forall x, dataSchema None = Some x ->
          field "message" fs = None -> field "errors" fs = None ->
          Schemas.ApiResponseSchema dataSchema (JObj fs) =
          Some {| Schemas.data := x; Schemas.message := None;
                  Schemas.errors := None |})).
Proof.
  intros T dataSchema. split; [|split].
  - intros d x m e. apply ApiResponseSchema_envelope.
  - intros doc r. apply ApiResponseSchema_data.
  - intros fs H. split.
    + intros Hnone. simpl. rewrite H, Hnone. reflexivity.
    + intros x Hx Hm He. simpl. rewrite H, Hx, Hm, He. reflexivity.
Qed.

Lemma ApiResponseSchema_envelope_law_witness :
  Schemas.ApiResponseSchema (Schemas.as_member Sdk.WorkflowRunSchema)
    (Schemas.envelope (Sdk.run_document "completed") (Some "ok") (Some [])) =
  Some {| Schemas.data :=
            {| Sdk.id := "run-1"; Sdk.workflow_id := "wf-1";
               Sdk.version := "1.0.0"; Sdk.status := Sdk.completed;
               Sdk.input_data := []; Sdk.output_data := None;
               Sdk.started_at := "2024-01-01T00:00:00Z";
               Sdk.completed_at := None; Sdk.error_message := None |};
          Schemas.message := Some "ok"; Schemas.errors := Some [] |} /\
  Schemas.ApiResponseSchema (Schemas.as_member Sdk.WorkflowRunSchema)
    (JObj [("message", JStr "no data")]) = None /\
  Schemas.ApiResponseSchema (Sdk.z_optional Sdk.z_string)
    (JObj [("status", JStr "no data")]) =
  Some {| Schemas.data := None; Schemas.message := None;
          Schemas.errors := None |}.
Proof.
  destruct (ApiResponseSchema_envelope_law _
              (Schemas.as_member Sdk.WorkflowRunSchema))
    as (Henv & _ & Hmissing).
  destruct (ApiResponseSchema_envelope_law _ (Sdk.z_optional Sdk.z_string))
    as (_ & _ & Hoptional).
  split; [apply Henv; reflexivity|].
  split; [apply Hmissing; reflexivity|].
  apply (Hoptional [("status", JStr "no data")]); reflexivity.
Defined.

Lemma PaginatedResponseSchema_items {T} (schema : option json -> option T) doc r :
  Schemas.PaginatedResponseSchema schema doc = Some r ->
  exists fs js, doc = JObj fs /\ field "data" fs = Some (JArr js) /\
    Forall2 (fun j x => schema (Some j) = Some x) js (Schemas.items r).
Proof.
  destruct doc as [| | | |?|fs]; simpl; try discriminate.
  intros H. destruct (field "data" fs) as [[| | | |js|]|] eqn:Hd; simpl in H;
    try discriminate H.
  destruct (mapM _ js) as [xs|] eqn:Hxs; simpl in H; [|discriminate H].
  destruct (Schemas.z_pagination _); simpl in H; [|discriminate H].
  injection H as <-. exists fs, js. simpl.
  split; [reflexivity|]. split; [exact Hd|]. apply mapM_Some, Hxs.
Qed.

(** X6: [PaginatedResponseSchema(dataSchema)] parses the items of a page
    one by one and in order: an accepted page has as many items as the
    document's [data] array, each the parse of the element at its place,
    and one element the data schema refuses makes the whole page
    refused. *)
Theorem PaginatedResponseSchema_itemwise :
  forall (T : Type) (schema : option json -> option T),
    (forall doc r,
       Schemas.PaginatedResponseSchema schema doc = Some r ->
       exists fs js, doc = JObj fs /\ field "data" fs = Some (JArr js) /\
         length (Schemas.items r) = length js /\
         Forall2 (fun j x => schema (Some j) = Some x) js (Schemas.items r)) /\
    (forall fs js,
       field "data" fs = Some (JArr js) ->
       Exists (fun j => schema (Some j) = None) js ->
       Schemas.PaginatedResponseSchema schema (JObj fs) = None).
Proof.
  intros T schema. split.
  - intros doc r H.
    destruct (PaginatedResponseSchema_items schema doc r H)
      as (fs & js & -> & Hd & Hall).
    exists fs, js. repeat split; try assumption.
    symmetry. eapply Forall2_length, Hall.
  - intros fs js Hd Hbad. simpl. rewrite Hd. simpl.
    apply mapM_None in Hbad. rewrite Hbad. reflexivity.
Qed.

Lemma PaginatedResponseSchema_itemwise_witness :
  Schemas.PaginatedResponseSchema (Schemas.as_member Sdk.WorkflowRunSchema)
    (JObj [("data", JArr [Sdk.run_document "completed";
                          Sdk.run_document "waiting"]);
           ("pagination",
            JObj [("page", JNum 1); ("limit", JNum 10); ("total", JNum 2);
                  ("total_pages", JNum 1)])]) = None.
Proof.
  eapply (proj2 (PaginatedResponseSchema_itemwise _ _)); [reflexivity|].
  right. left. reflexivity.
Defined.

(** ** The test suite panel: suites and test cases *)

Lemma replace_suite_updated selected updated suites :
  selected ∈ suites ->
  updated ∈ TestSuitePanel.replace_suite selected updated suites.
Proof.
  intros H. unfold TestSuitePanel.replace_suite.
  apply list_elem_of_fmap. exists selected.
  rewrite String.eqb_refl. split; [reflexivity|exact H].
Qed.

Lemma replace_suite_Forall (P : TestSuitePanel.TestSuite -> Prop)
    selected updated suites :
  Forall P suites -> P updated ->
  Forall P (TestSuitePanel.replace_suite selected updated suites).
Proof.
  intros H Hu. unfold TestSuitePanel.replace_suite.
  induction H as [|s suites Hs _ IH]; simpl; constructor; [|exact IH].
  destruct (String.eqb _ _); assumption.
Qed.

Lemma replace_suite_lookup selected updated suites i s :
  suites !! i = Some s ->
  TestSuitePanel.replace_suite selected updated suites !! i =
  Some (if String.eqb (TestSuitePanel.id s) (TestSuitePanel.id selected)
        then updated else s).
Proof.
  intros H. unfold TestSuitePanel.replace_suite.
  rewrite list_lookup_fmap, H. reflexivity.
Qed.

Lemma truthy_number_or x :
  TestSuitePanel.truthy_number (TestSuitePanel.number_or x 30%float) = true.
Proof.
  unfold TestSuitePanel.number_or. destruct x as [x|]; [|reflexivity].
  destruct (TestSuitePanel.truthy_number x) eqn:E; [exact E|reflexivity].
Qed.

Lemma truthy_string_nonempty s :
  TestSuitePanel.truthy_string s = true <-> s <> "".
Proof.
  unfold TestSuitePanel.truthy_string.
  destruct (String.eqb_spec s ""); simpl; split; congruence.
Qed.

Lemma built_case_well_formed now n form :
  TestSuitePanel.truthy_string n = true ->
  TestSuitePanel.well_formed_case (TestSuitePanel.built_case now n form).
Proof.
  intros H. split; simpl.
  - apply truthy_string_nonempty, H.
  - apply truthy_number_or.
Qed.

Lemma panel_invariant_selected st sel :
  TestSuitePanel.panel_invariant st -> TestSuitePanel.selectedSuite st = Some sel ->
  Forall TestSuitePanel.well_formed_case (TestSuitePanel.test_cases sel).
Proof.
  intros [Hsel Hall] H. rewrite Forall_forall in Hall. apply Hall, Hsel, H.
Qed.

Lemma panel_invariant_edit st sel cases iso :
  TestSuitePanel.panel_invariant st -> TestSuitePanel.selectedSuite st = Some sel ->
  Forall TestSuitePanel.well_formed_case cases ->
  TestSuitePanel.panel_invariant
    {| TestSuitePanel.testSuites :=
         TestSuitePanel.replace_suite sel
           (TestSuitePanel.with_cases sel cases iso)
           (TestSuitePanel.testSuites st);
       TestSuitePanel.selectedSuite :=
         Some (TestSuitePanel.with_cases sel cases iso);
       TestSuitePanel.isRunning := TestSuitePanel.isRunning st;
       TestSuitePanel.testResults := TestSuitePanel.testResults st;
       TestSuitePanel.newTestCase := TestSuitePanel.blank |} /\
  forall form,
  TestSuitePanel.panel_invariant
    {| TestSuitePanel.testSuites :=
         TestSuitePanel.replace_suite sel
           (TestSuitePanel.with_cases sel cases iso)
           (TestSuitePanel.testSuites st);
       TestSuitePanel.selectedSuite :=
         Some (TestSuitePanel.with_cases sel cases iso);
       TestSuitePanel.isRunning := TestSuitePanel.isRunning st;
       TestSuitePanel.testResults := TestSuitePanel.testResults st;
       TestSuitePanel.newTestCase := form |}.
Proof.
  intros [Hsel Hall] Hs Hcases.
  assert (H : forall form, TestSuitePanel.panel_invariant
    {| TestSuitePanel.testSuites :=
         TestSuitePanel.replace_suite sel
           (TestSuitePanel.with_cases sel cases iso)
           (TestSuitePanel.testSuites st);
       TestSuitePanel.selectedSuite :=
         Some (TestSuitePanel.with_cases sel cases iso);
       TestSuitePanel.isRunning := TestSuitePanel.isRunning st;
       TestSuitePanel.testResults := TestSuitePanel.testResults st;
       TestSuitePanel.newTestCase := form |}).
  { intros form. split; simpl.
    - intros ? [= <-]. apply replace_suite_updated, Hsel, Hs.
    - apply replace_suite_Forall; [exact Hall|exact Hcases]. }
  split; [apply H|exact H].
Qed.

Lemma dispatch_panel_invariant a st :
  TestSuitePanel.panel_invariant st -> TestSuitePanel.panel_invariant (TestSuitePanel.dispatch a st).
Proof.
  intros Hinv. pose proof Hinv as [Hsel Hall].
  destruct a as [wf now c u|now iso|tid iso|tid checked|i|form|env]; simpl.
  - unfold TestSuitePanel.createTestSuite. destruct wf as [wf|]; [|exact Hinv].
    split; simpl.
    + intros ? [= <-]. apply elem_of_app. right. left.
    + apply Forall_app. split; [exact Hall|]. repeat constructor.
  - unfold TestSuitePanel.addTestCase.
    destruct (TestSuitePanel.selectedSuite st) as [sel|] eqn:Hs; [|exact Hinv].
    destruct (TestSuitePanel.new_name _) as [n|]; [|exact Hinv].
    destruct (TestSuitePanel.truthy_string n) eqn:Hn; [|exact Hinv].
    apply (panel_invariant_edit st sel _ iso Hinv Hs).
    apply Forall_app. split.
    + apply (panel_invariant_selected st sel Hinv Hs).
    + repeat constructor; [apply truthy_string_nonempty, Hn
                          |apply truthy_number_or].
  - unfold TestSuitePanel.removeTestCase.
    destruct (TestSuitePanel.selectedSuite st) as [sel|] eqn:Hs; [|exact Hinv].
    apply (panel_invariant_edit st sel _ iso Hinv Hs).
    pose proof (panel_invariant_selected st sel Hinv Hs) as Hc.
    rewrite Forall_forall in *. intros t Ht. apply Hc.
    apply list_elem_of_In in Ht. apply List.filter_In in Ht as [Ht _].
    apply list_elem_of_In, Ht.
  - unfold TestSuitePanel.setEnabled.
    destruct (TestSuitePanel.selectedSuite st) as [sel|] eqn:Hs; [|exact Hinv].
    apply (panel_invariant_edit st sel _ _ Hinv Hs).
    pose proof (panel_invariant_selected st sel Hinv Hs) as Hc.
    induction Hc as [|t ts Ht _ IH]; simpl; constructor; [|exact IH].
    destruct (String.eqb _ _); exact Ht.
  - unfold TestSuitePanel.selectSuite.
    destruct (TestSuitePanel.testSuites st !! i) as [s|] eqn:Hi; [|exact Hinv].
    split; simpl; [|exact Hall].
    intros ? [= <-]. eapply list_elem_of_lookup_2, Hi.
  - exact Hinv.
  - unfold TestSuitePanel.runTestSuite.
    destruct (TestSuitePanel.selectedSuite st) as [sel|] eqn:Hs; [|exact Hinv].
    split; simpl; [|exact Hall]. intros ? [= <-]. apply Hsel. reflexivity.
Qed.

Lemma run_panel_invariant acts st :
  TestSuitePanel.panel_invariant st -> TestSuitePanel.panel_invariant (TestSuitePanel.run acts st).
Proof.
  unfold TestSuitePanel.run. revert st.
  induction acts as [|a acts IH]; intros st H; simpl; [exact H|].
  apply IH, dispatch_panel_invariant, H.
Qed.

Lemma initial_panel_invariant : TestSuitePanel.panel_invariant TestSuitePanel.initial.
Proof. split; [intros ? [=]|constructor]. Qed.

(** X7: in every state the panel reaches, the selected suite is one of the
    listed suites. *)
Theorem selected_suite_is_listed :
  forall acts,
    match TestSuitePanel.selectedSuite
            (TestSuitePanel.run acts TestSuitePanel.initial) with
    | Some sel =>
        sel ∈ TestSuitePanel.testSuites
                (TestSuitePanel.run acts TestSuitePanel.initial)
    | None => True
    end.
Proof.
  intros acts.
  destruct (run_panel_invariant acts _ initial_panel_invariant) as [Hsel _].
  destruct (TestSuitePanel.selectedSuite _) as [sel|]; [|exact I].
  apply Hsel. reflexivity.
Qed.


Lemma edit_shape a st sel :
  TestSuitePanel.edits_selected a = true ->
  TestSuitePanel.selectedSuite st = Some sel ->
  TestSuitePanel.dispatch a st = st \/
  exists updated,
    TestSuitePanel.selectedSuite (TestSuitePanel.dispatch a st) = Some updated /\
    TestSuitePanel.testSuites (TestSuitePanel.dispatch a st) =
    TestSuitePanel.replace_suite sel updated (TestSuitePanel.testSuites st).
Proof.
  intros Ha Hs. destruct a; try discriminate Ha; simpl.
  - unfold TestSuitePanel.addTestCase. rewrite Hs.
    destruct (TestSuitePanel.new_name _) as [n|]; [|left; reflexivity].
    destruct (TestSuitePanel.truthy_string n); [|left; reflexivity].
    right. eexists. split; reflexivity.
  - unfold TestSuitePanel.removeTestCase. rewrite Hs.
    right. eexists. split; reflexivity.
  - unfold TestSuitePanel.setEnabled. rewrite Hs.
    right. eexists. split; reflexivity.
Qed.

Lemma edit_without_selection a st :
  TestSuitePanel.edits_selected a = true ->
  TestSuitePanel.selectedSuite st = None ->
  TestSuitePanel.dispatch a st = st.
Proof.
  intros Ha Hs. destruct a; try discriminate Ha; simpl.
  - unfold TestSuitePanel.addTestCase. rewrite Hs. reflexivity.
  - unfold TestSuitePanel.removeTestCase. rewrite Hs. reflexivity.
  - unfold TestSuitePanel.setEnabled. rewrite Hs. reflexivity.
Qed.

(** X9: adding a test case, removing one or switching one on or off edits
    the suites by id: the list of suites keeps its length and order, a suite
    whose id is not the selected suite's id stays as it is, and a suite
    that changes has the selected suite's id and becomes the new selected
    suite. *)
Theorem edits_replace_suites_by_id :
  forall a st i s,
    TestSuitePanel.edits_selected a = true ->
    TestSuitePanel.testSuites st !! i = Some s ->
    length (TestSuitePanel.testSuites (TestSuitePanel.dispatch a st)) =
      length (TestSuitePanel.testSuites st) /\
    (TestSuitePanel.testSuites (TestSuitePanel.dispatch a st) !! i = Some s \/
     (exists sel,
        TestSuitePanel.selectedSuite st = Some sel /\
        TestSuitePanel.id s = TestSuitePanel.id sel) /\
     TestSuitePanel.testSuites (TestSuitePanel.dispatch a st) !! i =
       TestSuitePanel.selectedSuite (TestSuitePanel.dispatch a st)).
Proof.
  intros a st i s Ha Hi.
  destruct (TestSuitePanel.selectedSuite st) as [sel|] eqn:Hs.
  - destruct (edit_shape a st sel Ha Hs) as [->|(updated & Hu & Hl)].
    + split; [reflexivity|left; exact Hi].
    + rewrite Hl, Hu. split.
      * unfold TestSuitePanel.replace_suite. apply length_map.
      * rewrite (replace_suite_lookup _ _ _ _ _ Hi).
        destruct (String.eqb_spec (TestSuitePanel.id s) (TestSuitePanel.id sel))
          as [He|He]; [right|left; reflexivity].
        split; [exists sel; split; [reflexivity|exact He]|reflexivity].
  - rewrite (edit_without_selection a st Ha Hs).
    split; [reflexivity|left; exact Hi].
Qed.

Lemma filter_other_ids tid cases :
  tid ∉ map Testing.id cases ->
  List.filter (fun t => negb (String.eqb (Testing.id t) tid)) cases = cases.
Proof.
  induction cases as [|t cases IH]; simpl; intros H; [reflexivity|].
  destruct (String.eqb_spec (Testing.id t) tid) as [He|He]; simpl.
  - exfalso. apply H. rewrite He. left.
  - rewrite IH; [reflexivity|]. intros Hin. apply H. right. exact Hin.
Qed.

Lemma filter_removes_id tid cases :
  tid ∉ map Testing.id
          (List.filter (fun t => negb (String.eqb (Testing.id t) tid)) cases).
Proof.
  intros H. apply list_elem_of_fmap in H as (t & -> & Ht).
  apply list_elem_of_In, List.filter_In in Ht as [_ Ht].
  rewrite String.eqb_refl in Ht. discriminate Ht.
Qed.

Lemma filter_sublist {A} (p : A -> bool) (l : list A) :
  sublist (List.filter p l) l.
Proof.
  induction l as [|x l IH]; simpl; [constructor|].
  destruct (p x); [apply sublist_skip|apply sublist_cons]; exact IH.
Qed.

(** X10: [removeTestCase] removes from the selected suite every test case
    with the given id and no other: no test case with that id is left, the
    test cases with another id are kept, in their order, and removing the id
    once more changes no test case. *)
Theorem removeTestCase_removes_the_id :
  forall tid iso st sel,
    TestSuitePanel.selectedSuite st = Some sel ->
    let st' := TestSuitePanel.removeTestCase tid iso st in
    (tid ∉ TestSuitePanel.selected_case_ids st') /\
    (forall t, t ∈ TestSuitePanel.test_cases sel -> Testing.id t <> tid ->
               t ∈ TestSuitePanel.selected_cases st') /\
    sublist (TestSuitePanel.selected_cases st') (TestSuitePanel.test_cases sel) /\
    (forall iso',
       TestSuitePanel.selected_cases
         (TestSuitePanel.removeTestCase tid iso' st') =
       TestSuitePanel.selected_cases st').
Proof.
  intros tid iso st sel Hs st'. unfold st', TestSuitePanel.removeTestCase.
  rewrite Hs. unfold TestSuitePanel.selected_case_ids,
    TestSuitePanel.selected_cases. simpl.
  split; [apply filter_removes_id|]. split; [|split].
  - intros t Ht Hne. apply list_elem_of_In, List.filter_In.
    split; [apply list_elem_of_In, Ht|].
    destruct (String.eqb_spec (Testing.id t) tid); [contradiction|reflexivity].
  - apply filter_sublist.
  - intros iso'. apply filter_other_ids, filter_removes_id.
Qed.

Lemma test_id_injective (now now' : N) :
  "test_" +:+ pretty now = "test_" +:+ pretty now' -> now = now'.
Proof. simpl. intros [= H]. apply (inj pretty), H. Qed.

(** X11: a test case added and then removed by its id leaves the test cases
    of the selected suite as they were, when no older test case has that id;
    the ids given at two different times differ. *)
Theorem addTestCase_removeTestCase :
  (forall (now : N) iso iso' st sel n,
     TestSuitePanel.selectedSuite st = Some sel ->
     TestSuitePanel.new_name (TestSuitePanel.newTestCase st) = Some n ->
     n <> "" ->
     ("test_" +:+ pretty now) ∉ map Testing.id (TestSuitePanel.test_cases sel) ->
     TestSuitePanel.selected_cases (TestSuitePanel.addTestCase now iso st) =
       TestSuitePanel.test_cases sel ++
       [TestSuitePanel.built_case now n (TestSuitePanel.newTestCase st)] /\
     TestSuitePanel.selected_cases
       (TestSuitePanel.removeTestCase ("test_" +:+ pretty now) iso'
          (TestSuitePanel.addTestCase now iso st)) =
     TestSuitePanel.test_cases sel) /\
  (forall (now now' : N) n n' form form',
     now <> now' ->
     Testing.id (TestSuitePanel.built_case now n form) <>
     Testing.id (TestSuitePanel.built_case now' n' form')).
Proof.
  split.
  - intros now iso iso' st sel n Hs Hn Hne Hfresh.
    unfold TestSuitePanel.addTestCase. rewrite Hs, Hn.
    rewrite (proj2 (truthy_string_nonempty n) Hne).
    unfold TestSuitePanel.removeTestCase, TestSuitePanel.selected_cases. simpl.
    split; [reflexivity|].
    rewrite List.filter_app, filter_other_ids by exact Hfresh. simpl.
    rewrite String.eqb_refl. simpl. apply app_nil_r.
  - intros now now' n n' form form' Hne H. apply Hne.
    apply test_id_injective. exact H.
Qed.

(** ** The test suite panel: running a suite *)

Lemma replace_last_snoc results x y :
  TestSuitePanel.replace_last (results ++ [x]) y = results ++ [y].
Proof.
  unfold TestSuitePanel.replace_last. rewrite length_app. simpl.
  replace (length results + 1 - 1)%nat with (length results + 0)%nat by lia.
  rewrite insert_app_r. reflexivity.
Qed.

Lemma calls_before_cons t cases i :
  TestSuitePanel.calls_before (t :: cases) (S i) =
  ((if Testing.enabled t then 1 else 0) +
   TestSuitePanel.calls_before cases i)%nat.
Proof.
  unfold TestSuitePanel.calls_before. simpl.
  destruct (Testing.enabled t); reflexivity.
Qed.

(** The local array after the loop: the results so far, then one result per
    test case. *)
Lemma run_cases_results env suite cases :
  forall calls results published,
  exists added,
    fst (TestSuitePanel.run_cases env suite calls cases results published) =
      results ++ added /\
    length added = length cases /\
    forall i t, cases !! i = Some t ->
      added !! i =
      Some (if Testing.enabled t
            then TestSuitePanel.settled_result env t
                   (TestSuitePanel.fetch env
                      (calls + TestSuitePanel.calls_before cases i)
                      (TestSuitePanel.request_for suite t))
            else TestSuitePanel.placeholder t TestSuitePanel.pending).
Proof.
  induction cases as [|t cases IH]; intros calls results published; simpl.
  - exists []. rewrite app_nil_r. repeat split. intros i t [=].
  - destruct (Testing.enabled t) eqn:Het; simpl.
    + rewrite replace_last_snoc.
      destruct (IH (S calls)
                  (results ++ [TestSuitePanel.settled_result env t
                     (TestSuitePanel.fetch env calls
                        (TestSuitePanel.request_for suite t))])
                  (published ++
                   [results ++ [TestSuitePanel.placeholder t
                                  TestSuitePanel.running];
                    results ++ [TestSuitePanel.settled_result env t
                      (TestSuitePanel.fetch env calls
                         (TestSuitePanel.request_for suite t))]]))
        as (added & Hfst & Hlen & Hat).
      eexists (_ :: added). rewrite Hfst, <- app_assoc. simpl.
      split; [reflexivity|]. split; [rewrite Hlen; reflexivity|].
      intros [|i] t' Hi; simpl in Hi.
      * injection Hi as <-. rewrite Het. simpl.
        unfold TestSuitePanel.calls_before. simpl. rewrite Nat.add_0_r.
        reflexivity.
      * simpl. rewrite (Hat i t' Hi), calls_before_cons, Het.
        replace (calls + (1 + TestSuitePanel.calls_before cases i))%nat
          with (S calls + TestSuitePanel.calls_before cases i)%nat by lia.
        reflexivity.
    + destruct (IH calls
                  (results ++ [TestSuitePanel.placeholder t
                                 TestSuitePanel.pending]) published)
        as (added & Hfst & Hlen & Hat).
      eexists (_ :: added). rewrite Hfst, <- app_assoc. simpl.
      split; [reflexivity|]. split; [rewrite Hlen; reflexivity|].
      intros [|i] t' Hi; simpl in Hi.
      * injection Hi as <-. rewrite Het. reflexivity.
      * simpl. rewrite (Hat i t' Hi), calls_before_cons, Het. reflexivity.
Qed.

Lemma run_cases_lookup env suite cases i t :
  cases !! i = Some t ->
  fst (TestSuitePanel.run_cases env suite 0 cases [] []) !! i =
  Some (TestSuitePanel.result_of env suite cases i t).
Proof.
  intros Hi.
  destruct (run_cases_results env suite cases 0%nat [] [])
    as (added & Hfst & _ & Hat).
  rewrite Hfst. simpl. rewrite (Hat i t Hi). reflexivity.
Qed.

Lemma run_cases_length env suite cases :
  length (fst (TestSuitePanel.run_cases env suite 0 cases [] [])) =
  length cases.
Proof.
  destruct (run_cases_results env suite cases 0%nat [] [])
    as (added & Hfst & Hlen & _).
  rewrite Hfst. exact Hlen.
Qed.

Lemma settled_result_identity env t o :
  TestSuitePanel.test_id (TestSuitePanel.settled_result env t o) = Testing.id t /\
  TestSuitePanel.test_name (TestSuitePanel.settled_result env t o) =
    Testing.name t /\
  (TestSuitePanel.status (TestSuitePanel.settled_result env t o) =
     TestSuitePanel.passed \/
   TestSuitePanel.status (TestSuitePanel.settled_result env t o) =
     TestSuitePanel.failed).
Proof.
  destruct o as [e|[|] [e| |r d]]; simpl; try (repeat split; right; reflexivity).
  destruct (Testing.validateTestResult t r) as [[|]|]; simpl;
    repeat split; auto.
Qed.

Lemma settled_result_passed env t o :
  TestSuitePanel.status (TestSuitePanel.settled_result env t o) =
    TestSuitePanel.passed <->
  exists r d,
    o = TestSuitePanel.Responds true (TestSuitePanel.BodyObject r d) /\
    Testing.validateTestResult t r = Testing.Return true.
Proof.
  split.
  - destruct o as [e|[|] [e| |r d]]; simpl; try discriminate.
    destruct (Testing.validateTestResult t r) as [[|]|] eqn:Hv; simpl;
      try discriminate.
    intros _. exists r, d. split; [reflexivity|exact Hv].
  - intros (r & d & -> & Hv). simpl. rewrite Hv. reflexivity.
Qed.

Lemma result_of_identity env suite cases i t :
  TestSuitePanel.test_id (TestSuitePanel.result_of env suite cases i t) =
    Testing.id t /\
  TestSuitePanel.test_name (TestSuitePanel.result_of env suite cases i t) =
    Testing.name t /\
  TestSuitePanel.status (TestSuitePanel.result_of env suite cases i t) <>
    TestSuitePanel.running.
Proof.
  unfold TestSuitePanel.result_of. destruct (Testing.enabled t).
  - destruct (settled_result_identity env t
                (TestSuitePanel.fetch env (TestSuitePanel.calls_before cases i)
                   (TestSuitePanel.request_for suite t)))
      as (H1 & H2 & [H3|H3]); rewrite H1, H2, H3; repeat split; discriminate.
  - repeat split. discriminate.
Qed.

(** X12: once [runTestSuite] is through its loop, the results stand one per
    test case and in the order of the test cases, each under the id and the
    name of its test case, and none is left [running]. *)
Theorem runTestSuite_results_aligned :
  forall env suite,
    let cases := TestSuitePanel.test_cases suite in
    let results := fst (TestSuitePanel.run_cases env suite 0 cases [] []) in
    map TestSuitePanel.test_id results = map Testing.id cases /\
    map TestSuitePanel.test_name results = map Testing.name cases /\
    Forall (fun r => TestSuitePanel.status r <> TestSuitePanel.running) results.
Proof.
  intros env suite cases results.
  assert (Hlen : length results = length cases) by apply run_cases_length.
  assert (Hat : forall i r, results !! i = Some r ->
            exists t, cases !! i = Some t /\
                      r = TestSuitePanel.result_of env suite cases i t).
  { intros i r Hr.
    destruct (cases !! i) as [t|] eqn:Ht.
    - exists t. split; [reflexivity|].
      pose proof (run_cases_lookup env suite cases i t Ht) as H.
      fold results in H. congruence.
    - apply lookup_lt_Some in Hr. apply lookup_ge_None in Ht. lia. }
  split; [|split].
  - apply list_eq. intros i. rewrite !list_lookup_fmap.
    destruct (results !! i) as [r|] eqn:Hr; simpl.
    + destruct (Hat i r Hr) as (t & -> & ->). simpl.
      f_equal. apply result_of_identity.
    + apply lookup_ge_None in Hr.
      rewrite (proj2 (lookup_ge_None cases i)) by lia. reflexivity.
  - apply list_eq. intros i. rewrite !list_lookup_fmap.
    destruct (results !! i) as [r|] eqn:Hr; simpl.
    + destruct (Hat i r Hr) as (t & -> & ->). simpl.
      f_equal. apply result_of_identity.
    + apply lookup_ge_None in Hr.
      rewrite (proj2 (lookup_ge_None cases i)) by lia. reflexivity.
  - apply Forall_lookup. intros i r Hr.
    destruct (Hat i r Hr) as (t & _ & ->). apply result_of_identity.
Qed.

(** X13: the result of a test case is [passed] exactly when the test case
    is enabled, the call of [fetch] made for it answered with an ok response
    whose body is an object, and [validateTestResult] returned true on it;
    it is [pending] exactly when the test case is disabled. A validation
    that throws is caught and counts as failed. *)
Theorem runTestSuite_verdicts :
  forall env suite i t,
    let cases := TestSuitePanel.test_cases suite in
    cases !! i = Some t ->
    exists result,
      fst (TestSuitePanel.run_cases env suite 0 cases [] []) !! i =
        Some result /\
      (TestSuitePanel.status result = TestSuitePanel.passed <->
       Testing.enabled t = true /\
       exists r d,
         TestSuitePanel.fetch env (TestSuitePanel.calls_before cases i)
           (TestSuitePanel.request_for suite t) =
         TestSuitePanel.Responds true (TestSuitePanel.BodyObject r d) /\
         Testing.validateTestResult t r = Testing.Return true) /\
      (TestSuitePanel.status result = TestSuitePanel.pending <->
       Testing.enabled t = false) /\
      (Testing.enabled t = true ->
       forall r d,
         TestSuitePanel.fetch env (TestSuitePanel.calls_before cases i)
           (TestSuitePanel.request_for suite t) =
         TestSuitePanel.Responds true (TestSuitePanel.BodyObject r d) ->
         Testing.validateTestResult t r = Testing.ThrowTypeError ->
         TestSuitePanel.status result = TestSuitePanel.failed /\
         TestSuitePanel.error result =
           Some (TestSuitePanel.type_error_message env t
                   (TestSuitePanel.BodyObject r d))).
Proof.
  intros env suite i t cases Hi.
  exists (TestSuitePanel.result_of env suite cases i t).
  split; [apply run_cases_lookup, Hi|].
  unfold TestSuitePanel.result_of.
  destruct (Testing.enabled t) eqn:Het.
  - split; [|split].
    + rewrite settled_result_passed. split; [intros H; split; [reflexivity|exact H]
                                           |intros [_ H]; exact H].
    + split; [|discriminate].
      destruct (settled_result_identity env t
                  (TestSuitePanel.fetch env
                     (TestSuitePanel.calls_before cases i)
                     (TestSuitePanel.request_for suite t)))
        as (_ & _ & [H|H]); rewrite H; discriminate.
    + intros _ r d -> Hv. simpl. rewrite Hv. split; reflexivity.
  - split; [|split].
    + simpl. split; [discriminate|intros [H _]; discriminate H].
    + simpl. split; reflexivity.
    + discriminate.
Qed.

Lemma run_cases_disabled env suite cases :
  Forall (fun t => Testing.enabled t = false) cases ->
  forall calls results published,
    TestSuitePanel.run_cases env suite calls cases results published =
    (results ++
     map (fun t => TestSuitePanel.placeholder t TestSuitePanel.pending) cases,
     published).
Proof.
  induction 1 as [|t cases Ht _ IH]; intros calls results published; simpl.
  - rewrite app_nil_r. reflexivity.
  - rewrite Ht. simpl. rewrite IH, <- app_assoc. reflexivity.
Qed.

Lemma run_cases_app env suite l1 l2 :
  forall calls results published,
    TestSuitePanel.run_cases env suite calls (l1 ++ l2) results published =
    TestSuitePanel.run_cases env suite
      (calls + length (List.filter Testing.enabled l1)) l2
      (fst (TestSuitePanel.run_cases env suite calls l1 results published))
      (snd (TestSuitePanel.run_cases env suite calls l1 results published)).
Proof.
  induction l1 as [|t l1 IH]; intros calls results published; simpl.
  - rewrite Nat.add_0_r. reflexivity.
  - destruct (Testing.enabled t); simpl; rewrite IH; [|reflexivity].
    replace (S calls + length (List.filter Testing.enabled l1))%nat
      with (calls + S (length (List.filter Testing.enabled l1)))%nat by lia.
    reflexivity.
Qed.

Lemma runTestSuite_last_enabled env suite pre t post :
  TestSuitePanel.test_cases suite = pre ++ t :: post ->
  Testing.enabled t = true ->
  Forall (fun u => Testing.enabled u = false) post ->
  let run := TestSuitePanel.run_cases env suite 0
               (TestSuitePanel.test_cases suite) [] [] in
  last (snd run) = Some (take (S (length pre)) (fst run)).
Proof.
  intros Hc Ht Hpost run. unfold run. rewrite Hc, run_cases_app. simpl.
  destruct (run_cases_results env suite pre 0%nat [] [])
    as (added & Hfst & Hlen & _).
  simpl in Hfst. rewrite Hfst, Ht. simpl.
  rewrite replace_last_snoc, run_cases_disabled by exact Hpost. simpl.
  change (snd (TestSuitePanel.run_cases env suite 0 pre [] []) ++
          [added ++ [TestSuitePanel.placeholder t TestSuitePanel.running];
           added ++ [TestSuitePanel.settled_result env t
             (TestSuitePanel.fetch env
                (length (List.filter Testing.enabled pre))
                (TestSuitePanel.request_for suite t))]])
    with (snd (TestSuitePanel.run_cases env suite 0 pre [] []) ++
          [added ++ [TestSuitePanel.placeholder t TestSuitePanel.running]] ++
          [added ++ [TestSuitePanel.settled_result env t
             (TestSuitePanel.fetch env
                (length (List.filter Testing.enabled pre))
                (TestSuitePanel.request_for suite t))]]).
  rewrite app_assoc, last_snoc. f_equal. symmetry.
  apply take_app_length'. rewrite length_app, Hlen. simpl. lia.
Qed.

(** X14: [runTestSuite] shows the results up to the last enabled test case
    and no further: the pending entries of the disabled test cases that come
    after it are never passed to [setTestResults], and when no test case is
    enabled the results shown before stay as they are. In both cases
    [isRunning] is false at the end. *)
Theorem runTestSuite_published_results :
  forall env st suite,
    TestSuitePanel.selectedSuite st = Some suite ->
    let st' := TestSuitePanel.runTestSuite env st in
    TestSuitePanel.isRunning st' = false /\
    (Forall (fun t => Testing.enabled t = false)
       (TestSuitePanel.test_cases suite) ->
     TestSuitePanel.testResults st' = TestSuitePanel.testResults st) /\
    (forall pre t post,
       TestSuitePanel.test_cases suite = pre ++ t :: post ->
       Testing.enabled t = true ->
       Forall (fun u => Testing.enabled u = false) post ->
       TestSuitePanel.testResults st' =
         take (S (length pre))
           (fst (TestSuitePanel.run_cases env suite 0
                   (TestSuitePanel.test_cases suite) [] [])) /\
       length (TestSuitePanel.testResults st') = S (length pre)).
Proof.
  intros env st suite Hs st'. unfold st', TestSuitePanel.runTestSuite.
  rewrite Hs. simpl. split; [reflexivity|]. split.
  - intros Hall. rewrite run_cases_disabled by exact Hall. reflexivity.
  - intros pre t post Hc Ht Hpost.
    rewrite (runTestSuite_last_enabled env suite pre t post Hc Ht Hpost).
    split; [reflexivity|].
    rewrite length_take, run_cases_length, Hc, length_app, length_cons. lia.
Qed.

(** ** Witnesses on the sample session of the panel *)

Lemma edits_replace_suites_by_id_witness :
  TestSuitePanel.edits_selected
    (TestSuitePanel.SetEnabled "test_1002" true) = true /\
  TestSuitePanel.testSuites TestSuitePanel.sample_state !! 0%nat =
    Some TestSuitePanel.sample_suite /\
  length (TestSuitePanel.testSuites
            (TestSuitePanel.dispatch
               (TestSuitePanel.SetEnabled "test_1002" true)
               TestSuitePanel.sample_state)) = 1%nat.
Proof.
  split; [reflexivity|]. split; [vm_compute; reflexivity|].
  destruct (edits_replace_suites_by_id
              (TestSuitePanel.SetEnabled "test_1002" true)
              TestSuitePanel.sample_state 0%nat TestSuitePanel.sample_suite
              eq_refl eq_refl) as [Hlen _].
  rewrite Hlen. reflexivity.
Defined.

Lemma removeTestCase_removes_the_id_witness :
  TestSuitePanel.selectedSuite TestSuitePanel.sample_state =
    Some TestSuitePanel.sample_suite /\
  "test_1001" ∉
    TestSuitePanel.selected_case_ids
      (TestSuitePanel.removeTestCase "test_1001" "t3"
         TestSuitePanel.sample_state).
Proof.
  split; [vm_compute; reflexivity|].
  apply (removeTestCase_removes_the_id "test_1001" "t3"
           TestSuitePanel.sample_state TestSuitePanel.sample_suite eq_refl).
Defined.

Lemma addTestCase_removeTestCase_witness :
  TestSuitePanel.selected_cases
    (TestSuitePanel.removeTestCase ("test_" +:+ pretty 1003%N) "t4"
       (TestSuitePanel.addTestCase 1003 "t3"
          (TestSuitePanel.setNewTestCase
             (TestSuitePanel.sample_form "extra" true)
             TestSuitePanel.sample_state))) =
  TestSuitePanel.test_cases TestSuitePanel.sample_suite.
Proof.
  apply (proj1 addTestCase_removeTestCase 1003%N "t3" "t4"
           (TestSuitePanel.setNewTestCase
              (TestSuitePanel.sample_form "extra" true)
              TestSuitePanel.sample_state)
           TestSuitePanel.sample_suite "extra").
  - vm_compute. reflexivity.
  - reflexivity.
  - discriminate.
  - apply (bool_decide_unpack _). vm_compute. exact I.
Defined.

Lemma runTestSuite_verdicts_witness :
  TestSuitePanel.test_cases TestSuitePanel.sample_suite !! 0%nat =
    Some TestSuitePanel.sample_smoke /\
  exists result,
    fst (TestSuitePanel.run_cases TestSuitePanel.sample_environment
           TestSuitePanel.sample_suite 0
           (TestSuitePanel.test_cases TestSuitePanel.sample_suite) [] [])
      !! 0%nat = Some result /\
    TestSuitePanel.status result = TestSuitePanel.passed.
Proof.
  split; [reflexivity|].
  destruct (runTestSuite_verdicts TestSuitePanel.sample_environment
              TestSuitePanel.sample_suite 0%nat TestSuitePanel.sample_smoke
              eq_refl) as (result & Hr & Hp & _).
  exists result. split; [exact Hr|]. apply Hp.
  split; [reflexivity|]. eexists _, _. split; reflexivity.
Defined.

Lemma runTestSuite_published_results_witness :
  TestSuitePanel.selectedSuite TestSuitePanel.sample_state =
    Some TestSuitePanel.sample_suite /\
  length (TestSuitePanel.testResults
            (TestSuitePanel.runTestSuite TestSuitePanel.sample_environment
               TestSuitePanel.sample_state)) = 1%nat.
Proof.
  split; [vm_compute; reflexivity|].
  destruct (runTestSuite_published_results TestSuitePanel.sample_environment
              TestSuitePanel.sample_state TestSuitePanel.sample_suite eq_refl)
    as (_ & _ & Hlast).
  apply (Hlast [] TestSuitePanel.sample_smoke [TestSuitePanel.sample_skipped]).
  - reflexivity.
  - reflexivity.
  - repeat constructor.
Defined.

(** ** The flow builder: what the store lets the components show *)

Lemma right_sidebar_cases s :
  FlowBuilderView.right_sidebar s =
  match FlowStore.rightPanel s with
  | FlowStore.node =>
      match FlowStore.selectedNode s with
      | Some n => [FlowBuilderView.NodePanel n]
      | None => []
      end
  | FlowStore.simulation => [FlowBuilderView.SimulationPanel]
  | FlowStore.testing => [FlowBuilderView.TestSuite]
  end.
Proof.
  unfold FlowBuilderView.right_sidebar.
  destruct (FlowStore.rightPanel s), (FlowStore.selectedNode s); reflexivity.
Qed.

(** X15: the right sidebar of the flow builder shows at most one panel, and
    follows [rightPanel] and [selectedNode] only: the node panel is shown
    exactly when the panel is [node] and a node is selected, nothing is shown
    exactly when the panel is [node] and no node is selected, an action
    other than [setSelectedNode] and [setRightPanel] ([toggleNodePanel]
    among them) changes nothing of it, and a click on a node while another
    panel is chosen leaves that panel in place. *)
Theorem right_sidebar_follows_panel_and_selection :
  forall s,
    (length (FlowBuilderView.right_sidebar s) <= 1)%nat /\
    (forall n,
       FlowBuilderView.NodePanel n ∈ FlowBuilderView.right_sidebar s <->
       (FlowStore.rightPanel s = FlowStore.node /\
        FlowStore.selectedNode s = Some n)) /\
    (FlowBuilderView.right_sidebar s = [] <->
     (FlowStore.rightPanel s = FlowStore.node /\
      FlowStore.selectedNode s = None)) /\
    (forall a,
       FlowBuilderView.steers_right_sidebar a = false ->
       FlowBuilderView.right_sidebar (FlowStore.dispatch a s) =
       FlowBuilderView.right_sidebar s) /\
    (forall n,
       FlowStore.rightPanel s <> FlowStore.node ->
       FlowBuilderView.right_sidebar
         (FlowStore.dispatch (FlowBuilderView.onNodeClick n) s) =
       FlowBuilderView.right_sidebar s) /\
    (forall p,
       FlowBuilderView.right_sidebar
         (FlowStore.dispatch FlowBuilderView.onPaneClick
            (FlowStore.dispatch (FlowStore.SetRightPanel p) s)) =
       match p with
       | FlowStore.node => []
       | FlowStore.simulation => [FlowBuilderView.SimulationPanel]
       | FlowStore.testing => [FlowBuilderView.TestSuite]
       end).
Proof.
  intros s. rewrite right_sidebar_cases.
  split; [|split; [|split; [|split; [|split]]]].
  - destruct (FlowStore.rightPanel s), (FlowStore.selectedNode s); simpl; lia.
  - intros n.
    destruct (FlowStore.rightPanel s), (FlowStore.selectedNode s) as [m|];
      rewrite list_elem_of_In; simpl; split;
      try (intros [H|[]]; inversion H; subst; split; reflexivity);
      try (intros []; fail);
      try (intros [H1 H2]; try discriminate H1; try discriminate H2).
    injection H2 as ->. left. reflexivity.
  - destruct (FlowStore.rightPanel s), (FlowStore.selectedNode s) as [m|];
      split; try discriminate; try (intros [H1 H2]; discriminate);
      try (intros _; split; reflexivity); reflexivity.
  - intros a Ha. rewrite right_sidebar_cases.
    destruct a; try discriminate Ha; reflexivity.
  - intros n Hp. rewrite right_sidebar_cases. simpl.
    destruct (FlowStore.rightPanel s); [contradiction|reflexivity..].
  - intros p. rewrite right_sidebar_cases. destruct p; reflexivity.
Qed.

(** X16: in every state the store reaches, a toolbar that shows the
    execution badge shows the Stop button; the Execute button is shown
    exactly when [executionId] is null, and the Stop button stands without
    a badge exactly when the execution id is the empty string, which
    [startExecution("")] brings about. *)
Theorem toolbar_badge_implies_stop :
  forall acts,
    let s := FlowStore.run acts FlowStore.initial in
    (forall text,
       FlowBuilderView.execution_badge s = Some text ->
       FlowBuilderView.run_button s = FlowBuilderView.StopButton) /\
    (FlowBuilderView.run_button s = FlowBuilderView.ExecuteButton <->
     FlowStore.executionId s = None) /\
    ((FlowBuilderView.run_button s = FlowBuilderView.StopButton /\
      FlowBuilderView.execution_badge s = None) <->
     FlowStore.executionId s = Some "") /\
    (let s' := FlowStore.dispatch (FlowStore.StartExecution "") s in
     FlowBuilderView.run_button s' = FlowBuilderView.StopButton /\
     FlowBuilderView.execution_badge s' = None).
Proof.
  intros acts s.
  assert (H : FlowStore.executing_consistent s).
  { apply run_executing_consistent. split; [discriminate|].
    intros Hne. exfalso. apply Hne. reflexivity. }
  unfold FlowStore.executing_consistent in H.
  unfold FlowBuilderView.run_button, FlowBuilderView.execution_badge.
  destruct (FlowStore.isExecuting s) eqn:Hx;
    destruct (FlowStore.executionId s) as [i|] eqn:Hi.
  - split; [reflexivity|]. split; [split; discriminate|].
    split; [|cbv zeta; split; reflexivity].
    destruct (String.eqb_spec i "") as [->|Hne].
    + split; [reflexivity|intros _; split; reflexivity].
    + split; [intros [_ Hb]; discriminate Hb|].
      intros [= ->]. contradiction.
  - exfalso. destruct H as [H _]. apply (H eq_refl). reflexivity.
  - exfalso. destruct H as [_ H].
    assert (Hf : false = true) by (apply H; discriminate). discriminate Hf.
  - split; [discriminate|]. split; [split; reflexivity|].
    split; [|cbv zeta; split; reflexivity].
    split; [intros [Hb _]; discriminate Hb|discriminate].
Qed.

(** X17: in the palette of Sidebar.tsx every entry of [nodeCategories] finds
    its icon, which is read without a fallback: it is the icon CustomNode.tsx
    gives to a node of that type, and the class of its swatch, put together
    from the entry's colour, is the class CustomNode.tsx and NodePanel.tsx
    give to that type. *)
Theorem palette_entries_agree_with_node_tables :
  Forall (fun e =>
            FlowBuilderView.Sidebar_icon e =
              Some (Nodes.CustomNode_icon (Nodes.type e)) /\
            Nodes.Found (FlowBuilderView.Sidebar_swatch e) =
              Nodes.CustomNode_colorClass (Nodes.type e) /\
            Nodes.Found (FlowBuilderView.Sidebar_swatch e) =
              Nodes.getNodeTypeColor (Nodes.type e))
         FlowBuilderView.palette.
Proof. repeat constructor. Qed.

(** ** The simulation panel: starting a simulation *)

Lemma parse_if_given_None env text :
  SimulationPanel.parse_if_given env text = None <->
  ~ SimulationPanel.sendable env text.
Proof.
  unfold SimulationPanel.parse_if_given, SimulationPanel.sendable.
  destruct (String.eqb_spec text "") as [->|Hne].
  - split; [discriminate|]. intros H. exfalso. apply H. left. reflexivity.
  - destruct (SimulationPanel.JSON_parse env text) as [j|].
    + split; [discriminate|]. intros H. exfalso. apply H. right. eexists.
      reflexivity.
    + split; [|reflexivity]. intros _ [H|[j H]]; [contradiction|discriminate H].
Qed.


Lemma build_request_None env wf st :
  SimulationPanel.build_request env wf st = None <->
  ~ (SimulationPanel.sendable env (SimulationPanel.initialVariables st) /\
     SimulationPanel.sendable env (SimulationPanel.mockDataConfig st)).
Proof.
  unfold SimulationPanel.build_request.
  destruct (SimulationPanel.parse_if_given env
              (SimulationPanel.initialVariables st)) as [iv|] eqn:Hiv; simpl.
  - destruct (SimulationPanel.parse_if_given env
                (SimulationPanel.mockDataConfig st)) as [mc|] eqn:Hmc; simpl.
    + split; [discriminate|]. intros H. exfalso. apply H. split.
      * destruct (String.eqb_spec (SimulationPanel.initialVariables st) "")
          as [He|He]; [left; exact He|right].
        unfold SimulationPanel.parse_if_given in Hiv.
        rewrite (proj2 (String.eqb_neq _ _) He) in Hiv.
        destruct (SimulationPanel.JSON_parse env _); [eexists; reflexivity|].
        discriminate Hiv.
      * destruct (String.eqb_spec (SimulationPanel.mockDataConfig st) "")
          as [He|He]; [left; exact He|right].
        unfold SimulationPanel.parse_if_given in Hmc.
        rewrite (proj2 (String.eqb_neq _ _) He) in Hmc.
        destruct (SimulationPanel.JSON_parse env _); [eexists; reflexivity|].
        discriminate Hmc.
    + split; [|reflexivity]. intros _ [_ H].
      apply parse_if_given_None in Hmc. contradiction.
  - split; [|reflexivity]. intros _ [H _].
    apply parse_if_given_None in Hiv. contradiction.
Qed.

Lemma startSimulation_sent env wf st :
  snd (SimulationPanel.startSimulation (Some wf) env st) =
  SimulationPanel.build_request env wf st.
Proof.
  unfold SimulationPanel.startSimulation.
  destruct (SimulationPanel.build_request env wf st) as [req|]; [|reflexivity].
  destruct (SimulationPanel.fetch env req) as [|[|] [r|]]; reflexivity.
Qed.

(** X18: [startSimulation] always ends with [isSimulating] false and the
    configuration and the two texts untouched. It sends no request exactly
    when a text that is not empty is refused by [JSON.parse]. The result
    shown afterwards is the body of an ok response to the request sent, and
    in every other case (no request, a rejected [fetch], a response that is
    not ok, a body that cannot be read) the result shown before stays. With
    no workflow nothing happens at all. *)
Theorem startSimulation_outcomes :
  forall env st,
    SimulationPanel.startSimulation None env st = (st, None) /\
    forall wf,
      let out := SimulationPanel.startSimulation (Some wf) env st in
      SimulationPanel.isSimulating (fst out) = false /\
      SimulationPanel.config (fst out) = SimulationPanel.config st /\
      SimulationPanel.initialVariables (fst out) =
        SimulationPanel.initialVariables st /\
      SimulationPanel.mockDataConfig (fst out) =
        SimulationPanel.mockDataConfig st /\
      (snd out = None <->
       ~ (SimulationPanel.sendable env (SimulationPanel.initialVariables st) /\
          SimulationPanel.sendable env (SimulationPanel.mockDataConfig st))) /\
      (forall req r,
         snd out = Some req ->
         SimulationPanel.fetch env req =
           SimulationPanel.Responds true (Some r) ->
         SimulationPanel.simulationResult (fst out) = Some r) /\
      ((forall req r,
          snd out = Some req ->
          SimulationPanel.fetch env req <>
            SimulationPanel.Responds true (Some r)) ->
       SimulationPanel.simulationResult (fst out) =
         SimulationPanel.simulationResult st).
Proof.
  intros env st. split; [reflexivity|]. intros wf out.
  assert (Hsent : snd out = SimulationPanel.build_request env wf st)
    by apply startSimulation_sent.
  split; [|split; [|split; [|split; [|split; [|split]]]]].
  - unfold out, SimulationPanel.startSimulation.
    destruct (SimulationPanel.build_request env wf st) as [req|]; [|reflexivity].
    destruct (SimulationPanel.fetch env req) as [|[|] [r|]]; reflexivity.
  - unfold out, SimulationPanel.startSimulation.
    destruct (SimulationPanel.build_request env wf st) as [req|]; [|reflexivity].
    destruct (SimulationPanel.fetch env req) as [|[|] [r|]]; reflexivity.
  - unfold out, SimulationPanel.startSimulation.
    destruct (SimulationPanel.build_request env wf st) as [req|]; [|reflexivity].
    destruct (SimulationPanel.fetch env req) as [|[|] [r|]]; reflexivity.
  - unfold out, SimulationPanel.startSimulation.
    destruct (SimulationPanel.build_request env wf st) as [req|]; [|reflexivity].
    destruct (SimulationPanel.fetch env req) as [|[|] [r|]]; reflexivity.
  - rewrite Hsent. apply build_request_None.
  - intros req r Hreq Hf. rewrite Hsent in Hreq.
    unfold out, SimulationPanel.startSimulation. rewrite Hreq, Hf. reflexivity.
  - intros Hno. rewrite Hsent in Hno.
    unfold out, SimulationPanel.startSimulation.
    destruct (SimulationPanel.build_request env wf st) as [req|]; [|reflexivity].
    destruct (SimulationPanel.fetch env req) as [|[|] [r|]] eqn:Hf;
      try reflexivity.
    exfalso. apply (Hno req r eq_refl). exact Hf.
Qed.


